(** * LLM-CRM-Agent: a shallow embedding of the agent, its tools, its
    mocked services and its conversation memory.

    The Python sources under [app/] are embedded as Rocq functions:

    - a Python [str] is a [string], the bytes of its text, with [find],
      [rfind], slicing and [in] written out. On ASCII text a byte is a
      character, and [lower] and [strip] below are Python's; a property that
      depends on how a string is lowered, trimmed or cut is stated for ASCII
      text ([PyStr.is_ascii]);
    - Python objects that travel through JSON ([dict], [list], [str], ...)
      are the inductive type [value], dictionaries being [gmap string value];
      an object of any type ([Any]), as a customer context may hold, is an
      [object]; dictionary literals of a fixed shape (an email, a customer
      record) are records;
    - code that logs, reads the clock, calls the LLM or a service, or raises,
      lives in a state-and-exception monad [M] over a [World]; the world
      records the log, the calls that leave the process and the content of
      the memory file;
    - the libraries the program calls but does not contain (the chat model,
      [json], [datetime], LangChain's buffer memory) are the fields of the
      class [Externals]: every theorem holds for every behaviour of them.
      In particular [json.loads] may raise any exception, not only
      [JSONDecodeError], and [json.dump] may raise on the customer contexts,
      which leaves the memory file cut short.

    Exceptions are those that [except Exception] catches. Opening the memory
    file succeeds: a failure of the host's file system is not modelled. *)

From Stdlib Require Import ZArith String Ascii List Lia Bool.
From stdpp Require Import base option gmap strings list pretty.

Set Warnings "-register-all".
Set Default Proof Using "Type*".

Open Scope string_scope.
Open Scope list_scope.
Open Scope Z_scope.

(* Let [simpl] compute string concatenation on constructors. *)
#[local] Arguments String.append !_ _ / : simpl nomatch.

(* ===================================================================== *)
(** * Part I: definitions                                                 *)
(* ===================================================================== *)

(** ** Python strings *)

Module PyStr.

Definition nl : string := String "010"%char EmptyString.

(** [str.startswith]. *)
Fixpoint startswith (p s : string) : bool :=
  match p, s with
  | EmptyString, _ => true
  | String a p', String b s' => if Ascii.eqb a b then startswith p' s' else false
  | String _ _, EmptyString => false
  end.

(** Index of the first occurrence of [sub] in [s], if any. *)
Fixpoint find_nat (sub s : string) : option nat :=
  if startswith sub s then Some 0%nat
  else match s with
       | EmptyString => None
       | String _ s' => option_map S (find_nat sub s')
       end.

(** Index of the last occurrence of [sub] in [s], if any. *)
Fixpoint rfind_nat (sub s : string) : option nat :=
  match s with
  | EmptyString => if startswith sub EmptyString then Some 0%nat else None
  | String _ s' =>
      match rfind_nat sub s' with
      | Some i => Some (S i)
      | None => if startswith sub s then Some 0%nat else None
      end
  end.

(** [s.find(sub)] and [s.rfind(sub)]: the index, or [-1]. *)
Definition find (s sub : string) : Z :=
  match find_nat sub s with Some i => Z.of_nat i | None => -1 end.

Definition rfind (s sub : string) : Z :=
  match rfind_nat sub s with Some i => Z.of_nat i | None => -1 end.

(** [sub in s]. *)
Definition contains (sub s : string) : bool :=
  match find_nat sub s with Some _ => true | None => false end.

(** Normalisation of a slice bound against a length: a negative bound counts
    from the end, and the result is clamped to [0..len]. *)
Definition slice_bound (len i : Z) : Z :=
  if i <? 0 then Z.max 0 (i + len) else Z.min i len.

(** [s[i:j]], the bounds counting bytes: Python counts characters, which
    is the same on ASCII text, and on any text when the bounds are places
    that [find] and [rfind] gave for an ASCII character. *)
Definition slice (s : string) (i j : Z) : string :=
  let len := Z.of_nat (String.length s) in
  let a := slice_bound len i in
  let b := slice_bound len j in
  String.substring (Z.to_nat a) (Z.to_nat (b - a)) s.

(** [s[:j]] on ASCII text (the first [j] bytes). *)
Definition slice_to (s : string) (j : Z) : string := slice s 0 j.

Definition is_upper (c : ascii) : bool :=
  let n := nat_of_ascii c in (65 <=? n)%nat && (n <=? 90)%nat.

Definition lower_char (c : ascii) : ascii :=
  if is_upper c then ascii_of_nat (nat_of_ascii c + 32) else c.

(** [s.lower()] on ASCII text: the letters [A] to [Z] are lowered and every
    other byte is kept, where Python also lowers letters beyond ASCII. *)
Fixpoint lower (s : string) : string :=
  match s with
  | EmptyString => EmptyString
  | String c s' => String (lower_char c) (lower s')
  end.

(** [c.isspace()] on ASCII. *)
Definition isspace (c : ascii) : bool :=
  let n := nat_of_ascii c in
  ((9 <=? n)%nat && (n <=? 13)%nat) || ((28 <=? n)%nat && (n <=? 32)%nat).

Fixpoint lstrip (s : string) : string :=
  match s with
  | EmptyString => EmptyString
  | String c s' => if isspace c then lstrip s' else s
  end.

Fixpoint rstrip (s : string) : string :=
  match s with
  | EmptyString => EmptyString
  | String c s' =>
      match rstrip s' with
      | EmptyString => if isspace c then EmptyString else String c EmptyString
      | r => String c r
      end
  end.

(** [s.strip()] on ASCII text: white space of ASCII is removed at both
    ends, where Python also removes the white space beyond ASCII. *)
Definition strip (s : string) : string := rstrip (lstrip s).

(** The text is ASCII: every byte is a character below 128. *)
Fixpoint is_ascii (s : string) : bool :=
  match s with
  | EmptyString => true
  | String c s' => (nat_of_ascii c <? 128)%nat && is_ascii s'
  end.

(** [sep.join(l)]. *)
Fixpoint join (sep : string) (l : list string) : string :=
  match l with
  | [] => EmptyString
  | [x] => x
  | x :: rest => x +:+ sep +:+ join sep rest
  end.

(** The shortest [g] with [s = g ++ delim ++ _], if [delim] occurs in [s]:
    what a lazy [(.*?)] followed by the literal [delim] captures when the
    match is attempted at the start of [s] (with [re.DOTALL], so that [.]
    also matches a newline). *)
Fixpoint lazy_until (delim s : string) : option string :=
  if startswith delim s then Some EmptyString
  else match s with
       | EmptyString => None
       | String c s' => option_map (String c) (lazy_until delim s')
       end.

(** What remains of [s] after the literal prefix [p], if [s] starts with it. *)
Fixpoint drop_prefix (p s : string) : option string :=
  match p, s with
  | EmptyString, _ => Some s
  | String a p', String b s' => if Ascii.eqb a b then drop_prefix p' s' else None
  | String _ _, EmptyString => None
  end.

(** One attempt of the pattern [opener(.*?)closer] at the start of [s]:
    group 1 of the match. *)
Definition match_here (opener closer s : string) : option string :=
  match drop_prefix opener s with
  | Some rest => lazy_until closer rest
  | None => None
  end.

(** [re.search(opener + '(.*?)' + closer, s, re.DOTALL)] for literal [opener]
    and [closer]: the pattern is tried at each start position from the left,
    and the first position where it matches wins; the result is group 1. *)
Fixpoint re_search_group (opener closer s : string) : option string :=
  match match_here opener closer s with
  | Some g => Some g
  | None =>
      match s with
      | EmptyString => None
      | String _ s' => re_search_group opener closer s'
      end
  end.

End PyStr.

(** ** Python lists *)

Module PyList.

(** [l[i:]]. *)
Definition slice_from {A} (l : list A) (i : Z) : list A :=
  drop (Z.to_nat (PyStr.slice_bound (Z.of_nat (length l)) i)) l.

End PyList.

(** ** Python values, exceptions, log records *)

(** The objects that [json.loads] produces and that the tools pass around.
    A float is kept as its 64-bit pattern; it is never computed with. *)
Inductive value :=
| VNone
| VBool (b : bool)
| VInt (z : Z)
| VFloat (bits : Z)
| VStr (s : string)
| VList (l : list value)
| VDict (d : gmap string value).

(** Truth value of an object ([if x], [x or y], [not x]). *)
Definition truthy (v : value) : bool :=
  match v with
  | VNone => false
  | VBool b => b
  | VInt z => negb (z =? 0)
  | VFloat bits => negb (Z.land bits (Z.ones 63) =? 0)
  | VStr s => negb (String.eqb s EmptyString)
  | VList l => match l with [] => false | _ => true end
  | VDict d => negb (bool_decide (d = ∅))
  end.

(** An object of any type ([Any]), as the values of a customer context and
    the inputs of a turn are: one of the objects above, or any other object
    (a set, a datetime, an instance of some class, a list that holds one of
    these, ...), of which only a name is kept. The program stores such
    objects and hands them to [json.dump]; it never looks into them. *)
Inductive object :=
| Plain (v : value)
| Opaque (name : string).

(** [v == s] for a [str] [s]. *)
Definition value_eq_str (v : value) (s : string) : bool :=
  match v with
  | VStr t => String.eqb t s
  | _ => false
  end.

(** [x or default] for an [Optional[str]] argument: [None] and the empty
    string are both false. *)
Definition str_or (x : option string) (default : string) : string :=
  match x with
  | Some s => if String.eqb s EmptyString then default else s
  | None => default
  end.

(** The exception classes that occur; all derive from [Exception]. *)
Inductive exn_class :=
| JSONDecodeError
| ValueError
| KeyError
| TypeError
| AttributeError
| OtherException (name : string).

(** An exception: its class and its [str(e)]. *)
Record exn := Exn { exn_cls : exn_class; exn_str : string }.

Definition is_JSONDecodeError (e : exn) : bool :=
  match exn_cls e with JSONDecodeError => true | _ => false end.

Inductive log_level := INFO | WARNING | ERROR.

Record log_record := LogRecord { levelname : log_level; message : string }.

Definition is_error_record (r : log_record) : bool :=
  match levelname r with ERROR => true | _ => false end.

(** ** The world the program runs in *)

(** A call of [format_messages] on one of the five prompt templates: which
    template, and the keyword arguments of the call. It is the call that is
    recorded, not the messages it returns: the templates are built from
    [SystemMessage] and [HumanMessage] objects, which LangChain hands back
    as they are, placeholders included, so the messages that the chat model
    is invoked on are those of the template whatever the arguments. *)
Inductive prompt :=
| SummarizationPrompt (subject body sender date attachments : string)
| CategorizationPrompt (title description customer_id priority category : string)
| RoutingPrompt (query customer_id context : string)
| SupportDetectionPrompt (subject message : string)
| CRMEntryPrompt (customer_name interaction_details additional_info : string).

(** The calls that leave the process: one per chat-model invocation and one
    per (simulated) request of a mocked service. *)
Inductive action :=
| LLMInvoke (p : prompt)
| TicketCreate (title description : string) (category priority : value)
    (customer_id : option string)
| CRMCreateEntry (entry_data : value)
| CRMGetCustomer (customer_id : string)
| CRMSearchCustomers (query : string)
| EmailFetch
| EmailMarkProcessed (email_id : string).

(** A message as [_save_memory] writes it: [{"type": ..., "content": ...}]. *)
Record StoredMessage := mkStored { stored_type : string; stored_content : string }.

(** The JSON document kept in [agent_memory.json]. *)
Record FileData := mkFileData {
  file_customer_contexts : gmap string (gmap string value);
  file_messages : list StoredMessage;
  file_last_updated : string
}.

(** What [agent_memory.json] holds: a whole document, or the beginning of
    one, cut where [json.dump] raised. The document is written key by key,
    [customer_contexts] first, so a file cut short holds part of the customer
    contexts that were being written, and neither messages nor stamp. *)
Inductive FileContent :=
| Document (data : FileData)
| Truncated (customer_contexts : gmap string (gmap string object)).

Record World := mkWorld {
  llm_calls : nat;          (* chat-model invocations made so far *)
  clock : nat;              (* readings of [datetime.now()] made so far *)
  log : list log_record;    (* what the loggers have emitted, oldest first *)
  trace : list action;      (* outgoing calls, oldest first *)
  agent_memory_json : option FileContent   (* the memory file, if it exists *)
}.

(** What the program relies on but does not contain. *)
Class Externals := {
  (** [ChatOpenAI.invoke]: the outcome of the [n]-th invocation, an
      exception or the [content] of the response. The invocation is made on
      what the given call of [format_messages] returned; the outcome is any
      function of the call, so also any function of the template alone. *)
  llm_outcome : nat -> prompt -> exn + string;
  (** [json.loads] on a [str]: the parsed object, or the exception it
      raises, a [JSONDecodeError] for text that is not JSON or another one
      (a [RecursionError] for text nested too deep, a plain [ValueError] for
      an integer literal beyond the digit limit). *)
  json_loads : string -> exn + value;
  (** [json.dump(data, f, indent=2)], as far as the customer contexts go
      (the messages and the stamp are strings): the exception it raises on
      an object that it cannot serialise, or the contexts as the document
      holds them, which is what [json.load] reads back. *)
  json_dump_contexts :
    gmap string (gmap string object) -> exn + gmap string (gmap string value);
  (** [str(e)] of the [JSONDecodeError] that [json.load] raises on a file
      cut short while these contexts were written. *)
  json_load_truncated : gmap string (gmap string object) -> string;
  (** [json.dumps(_, indent=2)]. *)
  json_dumps : value -> string;
  (** [str(_)], as an f-string applies it to an object. *)
  format_value : value -> string;
  (** [datetime.now().strftime('%Y%m%d%H%M%S')] at the [n]-th reading. *)
  strftime_now : nat -> string;
  (** [(datetime.now() - timedelta(hours=h)).isoformat()] at the [n]-th
      reading. *)
  isoformat_now : nat -> Z -> string;
  (** [settings.EMAIL_BATCH_SIZE]. *)
  EMAIL_BATCH_SIZE : Z;
  (** LangChain's [BaseChatMemory._get_input_output]: the input and output
      strings of a turn, or the exception it raises on malformed
      dictionaries. *)
  get_input_output : gmap string object -> gmap string string -> exn + (string * string)
}.

(** State and exceptions: a computation runs from a world to an outcome and
    the world it leaves, also when it raises. *)
Definition M (A : Type) : Type := World -> (exn + A) * World.

#[export] Instance M_ret : MRet M := fun A a w => (inr a, w).

#[export] Instance M_bind : MBind M := fun A B f m w =>
  match m w with
  | (inl e, w') => (inl e, w')
  | (inr a, w') => f a w'
  end.

Definition raise {A} (e : exn) : M A := fun w => (inl e, w).

(** [try: body  except Exception as e: handler e]. *)
Definition try_except {A} (body : M A) (handler : exn -> M A) : M A := fun w =>
  match body w with
  | (inl e, w') => handler e w'
  | (inr a, w') => (inr a, w')
  end.

(** [try: body  except C as e: handler e], for the class [C] recognised by
    [is_C]; other exceptions propagate. *)
Definition try_except_class {A} (is_C : exn -> bool) (body : M A)
    (handler : exn -> M A) : M A := fun w =>
  match body w with
  | (inl e, w') => if is_C e then handler e w' else (inl e, w')
  | (inr a, w') => (inr a, w')
  end.

Definition logger (lvl : log_level) (msg : string) : M unit := fun w =>
  (inr tt, mkWorld (llm_calls w) (clock w) (log w ++ [LogRecord lvl msg]) (trace w)
            (agent_memory_json w)).

Definition logger_info : string -> M unit := logger INFO.
Definition logger_error : string -> M unit := logger ERROR.

(** An outgoing request ([await asyncio.sleep(_)] in the mocks). *)
Definition request (a : action) : M unit := fun w =>
  (inr tt, mkWorld (llm_calls w) (clock w) (log w) (trace w ++ [a])
            (agent_memory_json w)).

(** One reading of [datetime.now()]: its index. *)
Definition datetime_now : M nat := fun w =>
  (inr (clock w), mkWorld (llm_calls w) (S (clock w)) (log w) (trace w)
                    (agent_memory_json w)).

(** [for x in l: body x]. *)
Fixpoint for_each {A} (l : list A) (body : A -> M unit) : M unit :=
  match l with
  | [] => mret tt
  | x :: l' => body x;; for_each l' body
  end.

(** [type(v).__name__]. *)
Definition type_name (v : value) : string :=
  match v with
  | VNone => "NoneType"
  | VBool _ => "bool"
  | VInt _ => "int"
  | VFloat _ => "float"
  | VStr _ => "str"
  | VList _ => "list"
  | VDict _ => "dict"
  end.

(** [d[key]] on an object, for a [str] key: a dictionary looks the key up,
    a list or a string rejects the index, anything else cannot be
    subscripted. *)
Definition getitem (d : value) (key : string) : M value :=
  match d with
  | VDict m =>
      match m !! key with
      | Some v => mret v
      | None => raise (Exn KeyError ("'" +:+ key +:+ "'"))
      end
  | VList _ =>
      raise (Exn TypeError "list indices must be integers or slices, not str")
  | VStr _ => raise (Exn TypeError "string indices must be integers")
  | _ =>
      raise (Exn TypeError ("'" +:+ type_name d
                            +:+ "' object is not subscriptable"))
  end.

(** [d.get(key)] on an object: only a dictionary has the method. *)
Definition get (d : value) (key : string) : M value :=
  match d with
  | VDict m => mret (default VNone (m !! key))
  | _ =>
      raise (Exn AttributeError ("'" +:+ type_name d
                                 +:+ "' object has no attribute 'get'"))
  end.

Section LLM.
Context `{Externals}.

(** [self.llm.invoke(formatted_prompt)] followed by [response.content],
    where [formatted_prompt] is what the call [p] of [format_messages]
    returned. *)
Definition llm_invoke (p : prompt) : M string := fun w =>
  (llm_outcome (llm_calls w) p,
   mkWorld (S (llm_calls w)) (clock w) (log w) (trace w ++ [LLMInvoke p])
     (agent_memory_json w)).

(** [json.loads(s)]. *)
Definition loads (s : string) : M value :=
  match json_loads s with
  | inr v => mret v
  | inl e => raise e
  end.

(** [os.path.exists(path)] and, when the file exists,
    [with open(path, 'r') as f: json.load(f)]: a file cut short is no JSON
    document. *)
Definition read_memory_file : M (option FileData) := fun w =>
  match agent_memory_json w with
  | None => (inr None, w)
  | Some (Document data) => (inr (Some data), w)
  | Some (Truncated customer_contexts) =>
      (inl (Exn JSONDecodeError (json_load_truncated customer_contexts)), w)
  end.

(** [with open(path, 'w') as f: json.dump(data, f, indent=2)] for the
    dictionary [data] with the keys [customer_contexts], [messages] and
    [last_updated], in this order. Opening the file for writing empties it;
    [json.dump] then writes the document piece by piece and raises at the
    first object that it cannot serialise, which leaves the file cut short
    inside the customer contexts. *)
Definition write_memory_file
    (customer_contexts : gmap string (gmap string object))
    (messages : list StoredMessage) (last_updated : string) : M unit := fun w =>
  match json_dump_contexts customer_contexts with
  | inr written =>
      (inr tt,
       mkWorld (llm_calls w) (clock w) (log w) (trace w)
         (Some (Document (mkFileData written messages last_updated))))
  | inl e =>
      (inl e,
       mkWorld (llm_calls w) (clock w) (log w) (trace w)
         (Some (Truncated customer_contexts)))
  end.

Definition json_fence_open : string := "```json" +:+ PyStr.nl.
Definition json_fence_close : string := PyStr.nl +:+ "```".

(** The extraction of a JSON object from the content of a response. The
    sources repeat these lines verbatim in [_run_categorization],
    [_run_routing] and [CRMEntryGenerator._run]:
<<
    try:
        result = json.loads(content)
    except json.JSONDecodeError:
        json_match = re.search(r'```json\n(.*?)\n```', content, re.DOTALL)
        if json_match:
            result = json.loads(json_match.group(1))
        else:
            start_idx = content.find('{')
            end_idx = content.rfind('}')
            if start_idx != -1 and end_idx != -1:
                result = json.loads(content[start_idx:end_idx+1])
            else:
                raise ValueError(...)
>>
    An exception of the first [json.loads] that is no [JSONDecodeError]
    passes the [except] clause. *)
Definition extract_json (content : string) : M value :=
  try_except_class is_JSONDecodeError (loads content) (fun _ =>
    match PyStr.re_search_group json_fence_open json_fence_close content with
    | Some json_str => loads json_str
    | None =>
        let start_idx := PyStr.find content "{" in
        let end_idx := PyStr.rfind content "}" in
        if negb (start_idx =? -1) && negb (end_idx =? -1) then
          loads (PyStr.slice content start_idx (end_idx + 1))
        else
          raise (Exn ValueError "Could not extract valid JSON from the response")
    end).

End LLM.

(** ** [app/tools/summarizer.py] *)

Module EmailSummarizer.
Section EmailSummarizer.
Context `{Externals}.

(** [attachments_str] and the call [self.prompt.format_messages(...)]. *)
Definition formatted_prompt (subject body sender date : string)
    (attachments : option (list string)) : prompt :=
  let attachments_str :=
    match attachments with
    | Some (a :: l) => PyStr.join ", " (a :: l)
    | _ => "None"
    end in
  SummarizationPrompt subject body sender date attachments_str.

Definition _run (subject body sender date : string)
    (attachments : option (list string)) : M string :=
  try_except
    (summary ← llm_invoke
       (formatted_prompt subject body sender date attachments);
     logger_info ("Successfully summarized email from " +:+ sender);;
     mret summary)
    (fun e =>
       let error_msg := "Error summarizing email: " +:+ exn_str e in
       logger_error error_msg;;
       mret ("Failed to summarize email: " +:+ error_msg)).

(** [email_data] is unpacked into the arguments of [_run]; the caller below
    builds it with all five keys. *)
Definition summarize_email (subject body sender date : string)
    (attachments : option (list string)) : M string :=
  _run subject body sender date attachments.

End EmailSummarizer.
End EmailSummarizer.

(** ** [app/tools/crm_entry.py] *)

Module CRMEntryGenerator.
Section CRMEntryGenerator.
Context `{Externals}.

Definition parse_failure_entry (customer_name raw : string) : value :=
  VDict (list_to_map
    [("customer_name", VStr customer_name);
     ("raw_entry", VStr raw);
     ("error", VStr "Failed to parse structured CRM entry")]).

Definition failure_entry (customer_name error_msg : string) : value :=
  VDict (list_to_map
    [("customer_name", VStr customer_name);
     ("error", VStr error_msg)]).

(** [additional_info_str] and the call [self.prompt.format_messages(...)];
    [additional_info] holds objects of JSON. *)
Definition formatted_prompt (customer_name interaction_details : string)
    (additional_info : option (gmap string value)) : prompt :=
  let additional_info_str :=
    match additional_info with
    | Some d => if truthy (VDict d) then json_dumps (VDict d) else "None"
    | None => "None"
    end in
  CRMEntryPrompt customer_name interaction_details additional_info_str.

Definition _run (customer_name interaction_details : string)
    (additional_info : option (gmap string value)) : M value :=
  try_except
    (content ← llm_invoke
       (formatted_prompt customer_name interaction_details additional_info);
     try_except
       (crm_entry ← extract_json content;
        logger_info ("Successfully generated CRM entry for " +:+ customer_name);;
        mret crm_entry)
       (fun json_error =>
          logger_error ("Error parsing CRM entry JSON: " +:+ exn_str json_error);;
          mret (parse_failure_entry customer_name content)))
    (fun e =>
       let error_msg := "Error generating CRM entry: " +:+ exn_str e in
       logger_error error_msg;;
       mret (failure_entry customer_name error_msg)).

(** [interaction_data] is unpacked into the arguments of [_run]. *)
Definition create_crm_entry (customer_name interaction_details : string)
    (additional_info : option (gmap string value)) : M value :=
  _run customer_name interaction_details additional_info.

End CRMEntryGenerator.
End CRMEntryGenerator.

(** ** [app/tools/ticket_router.py] *)

Module TicketRouter.
Section TicketRouter.
Context `{Externals}.

Definition categorization_parse_failure (title : string)
    (priority category : option string) (raw : string) : value :=
  VDict (list_to_map
    [("title", VStr title);
     ("category", VStr (str_or category "Unknown"));
     ("priority", VStr (str_or priority "Medium"));
     ("department", VStr "Support");
     ("raw_response", VStr raw);
     ("error", VStr "Failed to parse structured categorization")]).

Definition categorization_failure (title : string)
    (priority category : option string) (error_msg : string) : value :=
  VDict (list_to_map
    [("title", VStr title);
     ("category", VStr (str_or category "Unknown"));
     ("priority", VStr (str_or priority "Medium"));
     ("department", VStr "Support");
     ("error", VStr error_msg)]).

(** The call [self.categorization_prompt.format_messages(...)]. *)
Definition categorization_formatted_prompt (title description : string)
    (customer_id priority category : option string) : prompt :=
  CategorizationPrompt title description
    (str_or customer_id "N/A")
    (str_or priority "Not specified")
    (str_or category "Not specified").

Definition _run_categorization (title description : string)
    (customer_id priority category : option string) : M value :=
  try_except
    (content ← llm_invoke
       (categorization_formatted_prompt title description customer_id
          priority category);
     try_except
       (result ← extract_json content;
        logger_info ("Successfully categorized ticket: " +:+ title);;
        mret result)
       (fun json_error =>
          logger_error ("Error parsing ticket categorization JSON: "
                        +:+ exn_str json_error);;
          mret (categorization_parse_failure title priority category content)))
    (fun e =>
       let error_msg := "Error categorizing ticket: " +:+ exn_str e in
       logger_error error_msg;;
       mret (categorization_failure title priority category error_msg)).

Definition routing_parse_failure (raw : string) : value :=
  VDict (list_to_map
    [("department", VStr "Support");
     ("priority", VStr "Medium");
     ("category", VStr "General");
     ("raw_response", VStr raw);
     ("error", VStr "Failed to parse structured routing")]).

Definition routing_failure (error_msg : string) : value :=
  VDict (list_to_map
    [("department", VStr "Support");
     ("priority", VStr "Medium");
     ("category", VStr "General");
     ("error", VStr error_msg)]).

(** [context_str] and the call [self.routing_prompt.format_messages(...)];
    [context] holds objects of JSON. *)
Definition routing_formatted_prompt (query : string)
    (customer_id : option string) (context : option (gmap string value))
    : prompt :=
  let context_str :=
    match context with
    | Some d => if truthy (VDict d) then json_dumps (VDict d) else "None"
    | None => "None"
    end in
  RoutingPrompt query (str_or customer_id "N/A") context_str.

Definition _run_routing (query : string) (customer_id : option string)
    (context : option (gmap string value)) : M value :=
  try_except
    (content ← llm_invoke (routing_formatted_prompt query customer_id context);
     try_except
       (result ← extract_json content;
        logger_info "Successfully routed customer query";;
        mret result)
       (fun json_error =>
          logger_error ("Error parsing query routing JSON: " +:+ exn_str json_error);;
          mret (routing_parse_failure content)))
    (fun e =>
       let error_msg := "Error routing query: " +:+ exn_str e in
       logger_error error_msg;;
       mret (routing_failure error_msg)).

(** The call [self.support_detection_prompt.format_messages(...)] with its
    keyword arguments. *)
Definition support_detection_formatted_prompt (subject message : string)
    : prompt :=
  SupportDetectionPrompt subject message.

Definition is_support_request (subject message : string) : M bool :=
  try_except
    (response ← llm_invoke (support_detection_formatted_prompt subject message);
     let content := PyStr.lower (PyStr.strip response) in
     let is_support :=
       PyStr.contains "yes" content
       && negb (PyStr.contains "no" (PyStr.slice_to content 3)) in
     logger_info ("Support request detection: "
                  +:+ (if is_support then "True" else "False")
                  +:+ " for subject: " +:+ subject);;
     mret is_support)
    (fun e =>
       logger_error ("Error detecting support request: " +:+ exn_str e);;
       mret true).

(** [ticket_data] is unpacked into the arguments of [_run_categorization]. *)
Definition categorize_ticket (title description : string)
    (customer_id priority category : option string) : M value :=
  _run_categorization title description customer_id priority category.

(** [query_data] is unpacked into the arguments of [_run_routing]. *)
Definition route_query (query : string) (customer_id : option string)
    (context : option (gmap string value)) : M value :=
  _run_routing query customer_id context.

End TicketRouter.
End TicketRouter.

(** ** [app/services/email.py] *)

Module EmailService.

Import PyStr.

(** An email as the service returns it: a dictionary with the keys [id],
    [subject], [body], [sender], [date], [attachments] and [customer_id]. *)
Record Email := mkEmail {
  email_id : string;
  email_subject : string;
  email_body : string;
  email_sender : string;
  email_date : string;
  email_attachments : list string;
  email_customer_id : option string
}.

Definition body_login : string :=
    "Hello Support Team," +:+ nl +:+
    nl +:+
    "I've been trying to log in to my account for the past two days but keep getting an 'Invalid credentials' error even though I'm sure my password is correct. I've tried resetting my password twice but still can't get in." +:+ nl +:+
    nl +:+
    "Can you please help me resolve this issue? My account is associated with this email address." +:+ nl +:+
    nl +:+
    "Thank you," +:+ nl +:+
    "John Smith".

Definition body_invoice : string :=
    "Hi there," +:+ nl +:+
    nl +:+
    "I received an invoice yesterday (Invoice #INV-2023-10-15) and noticed a charge for 'Premium Support' that I don't remember signing up for. Can you explain what this is and why I'm being charged for it?" +:+ nl +:+
    nl +:+
    "Also, when is the payment due?" +:+ nl +:+
    nl +:+
    "Regards," +:+ nl +:+
    "Sarah Johnson".

Definition body_feature : string :=
    "Hello Product Team," +:+ nl +:+
    nl +:+
    "I've been using your software for about 6 months now and love it! I have a suggestion that I think would make it even better." +:+ nl +:+
    nl +:+
    "It would be really helpful if you could add a bulk export feature for reports. Currently, I have to export each report individually which is time-consuming when I need to analyze multiple reports together." +:+ nl +:+
    nl +:+
    "Is this something you might consider adding in a future update?" +:+ nl +:+
    nl +:+
    "Thanks," +:+ nl +:+
    "Michael Chen".

Definition body_compat : string :=
    "Hello," +:+ nl +:+
    nl +:+
    "I'm considering purchasing your software but need to know if it's compatible with Mac OS Monterey. Your website only mentions compatibility up to Big Sur." +:+ nl +:+
    nl +:+
    "Also, do you offer any educational discounts? I'm a teacher at Springfield High School." +:+ nl +:+
    nl +:+
    "Thanks for your help," +:+ nl +:+
    "Emily Rodriguez".

Definition body_followup : string :=
    "Hi Sales Team," +:+ nl +:+
    nl +:+
    "Thank you for the demo last week. I was impressed with the features you showed us, particularly the reporting capabilities." +:+ nl +:+
    nl +:+
    "Our team has a few follow-up questions:" +:+ nl +:+
    "1. Can we customize the dashboard for different user roles?" +:+ nl +:+
    "2. What's the typical implementation timeline?" +:+ nl +:+
    "3. Do you offer any training sessions for new users?" +:+ nl +:+
    nl +:+
    "We're hoping to make a decision by the end of the month, so any information you can provide would be helpful." +:+ nl +:+
    nl +:+
    "Best regards," +:+ nl +:+
    "David Wilson" +:+ nl +:+
    "Director of Operations" +:+ nl +:+
    "Acme Corporation".

(** The mock email for index [i] of the batch. *)
Definition mock_email (i : nat) (email_id date : string) : Email :=
  match i with
  | 0%nat =>
      mkEmail email_id "Issue with login to the platform" body_login
        "john.smith@example.com" date [] (Some "CUST12345")
  | 1%nat =>
      mkEmail email_id "Question about my recent invoice" body_invoice
        "sarah.johnson@example.com" date ["invoice.pdf"] (Some "CUST67890")
  | 2%nat =>
      mkEmail email_id "Suggestion for new feature" body_feature
        "michael.chen@example.com" date [] (Some "CUST24680")
  | 3%nat =>
      mkEmail email_id "Question about product compatibility" body_compat
        "emily.rodriguez@example.com" date [] None
  | _ =>
      mkEmail email_id "Following up on our conversation" body_followup
        "david.wilson@acmecorp.com" date ["requirements.docx"] (Some "CUST13579")
  end.

Section EmailService.
Context `{Externals}.

(** [for i in range(...)]: two readings of the clock per email, one for the
    id and one for the date. *)
Fixpoint mock_emails (range : list nat) (emails : list Email) : M (list Email) :=
  match range with
  | [] => mret emails
  | i :: range' =>
      t_id ← datetime_now;
      let email_id := "email_" +:+ pretty i +:+ "_" +:+ strftime_now t_id in
      t_date ← datetime_now;
      let date := isoformat_now t_date (Z.of_nat i) in
      mock_emails range' (emails ++ [mock_email i email_id date])
  end.

Definition get_unprocessed_emails : M (list Email) :=
  try_except
    (request EmailFetch;;
     emails ← mock_emails (seq 0 (Z.to_nat (Z.min 5 EMAIL_BATCH_SIZE))) [];
     logger_info ("Retrieved " +:+ pretty (length emails) +:+ " unprocessed emails");;
     mret emails)
    (fun e =>
       logger_error ("Error retrieving unprocessed emails: " +:+ exn_str e);;
       mret []).

Definition mark_as_processed (email_id : string) : M bool :=
  try_except
    (request (EmailMarkProcessed email_id);;
     logger_info ("Marked email " +:+ email_id +:+ " as processed");;
     mret true)
    (fun e =>
       logger_error ("Error marking email " +:+ email_id +:+ " as processed: "
                     +:+ exn_str e);;
       mret false).

End EmailService.
End EmailService.

(** ** [app/services/tickets.py] *)

Module TicketService.
Section TicketService.
Context `{Externals}.

Definition create_ticket (title description : string) (category priority : value)
    (customer_id : option string) : M (option string) :=
  try_except
    (request (TicketCreate title description category priority customer_id);;
     t ← datetime_now;
     let ticket_id := "TICKET_" +:+ strftime_now t in
     logger_info ("Created ticket: " +:+ ticket_id +:+ " - " +:+ title +:+ " ("
                  +:+ format_value category +:+ ", " +:+ format_value priority
                  +:+ ")");;
     mret (Some ticket_id))
    (fun e =>
       logger_error ("Error creating ticket: " +:+ exn_str e);;
       mret None).

End TicketService.
End TicketService.

(** ** [app/services/crm.py] *)

Module CRMService.

(** A customer record of [get_customer]. *)
Record Customer := mkCustomer {
  cust_id : string;
  cust_name : string;
  cust_email : string;
  cust_phone : string;
  cust_company : string;
  cust_status : string;
  cust_plan : option string;
  cust_created_at : string;
  cust_last_contact : string;
  cust_notes : string
}.

Definition john_smith : Customer :=
  mkCustomer "CUST12345" "John Smith" "john.smith@example.com" "555-123-4567"
    "ABC Corp" "Active" (Some "Enterprise") "2022-01-15T10:30:00Z"
    "2023-09-28T14:45:00Z" "Frequent support requests about login issues".

Definition sarah_johnson : Customer :=
  mkCustomer "CUST67890" "Sarah Johnson" "sarah.johnson@example.com"
    "555-987-6543" "XYZ Inc" "Active" (Some "Professional")
    "2022-03-22T09:15:00Z" "2023-10-10T11:20:00Z"
    "Recently upgraded from Basic plan".

Definition michael_chen : Customer :=
  mkCustomer "CUST24680" "Michael Chen" "michael.chen@example.com"
    "555-246-8024" "Tech Solutions LLC" "Active" (Some "Professional")
    "2022-05-10T14:00:00Z" "2023-10-05T16:30:00Z"
    "Interested in API integration features".

Definition david_wilson : Customer :=
  mkCustomer "CUST13579" "David Wilson" "david.wilson@acmecorp.com"
    "555-135-7913" "Acme Corporation" "Prospect" None
    "2023-09-15T10:00:00Z" "2023-10-08T15:45:00Z"
    "In sales pipeline, demo provided on Oct 5".

(** An entry of the catalog that [search_customers] scans. *)
Record CatalogEntry := mkEntry {
  entry_id : string;
  entry_name : string;
  entry_email : string;
  entry_company : string
}.

Definition mock_customers : list CatalogEntry :=
  [ mkEntry "CUST12345" "John Smith" "john.smith@example.com" "ABC Corp";
    mkEntry "CUST67890" "Sarah Johnson" "sarah.johnson@example.com" "XYZ Inc";
    mkEntry "CUST24680" "Michael Chen" "michael.chen@example.com"
      "Tech Solutions LLC";
    mkEntry "CUST13579" "David Wilson" "david.wilson@acmecorp.com"
      "Acme Corporation" ].

(** The condition of the loop body of [search_customers], on the lowered
    query. *)
Definition entry_matches (query : string) (customer : CatalogEntry) : bool :=
  PyStr.contains query (PyStr.lower (entry_name customer))
  || PyStr.contains query (PyStr.lower (entry_email customer))
  || PyStr.contains query (PyStr.lower (entry_company customer)).

(** [for customer in mock_customers: if ...: results.append(customer)]. *)
Fixpoint search_loop (query : string) (customers results : list CatalogEntry)
    : list CatalogEntry :=
  match customers with
  | [] => results
  | customer :: rest =>
      search_loop query rest
        (if entry_matches query customer then results ++ [customer] else results)
  end.

Section CRMService.
Context `{Externals}.

Definition get_customer (customer_id : string) : M (option Customer) :=
  try_except
    (request (CRMGetCustomer customer_id);;
     if String.eqb customer_id "CUST12345" then mret (Some john_smith)
     else if String.eqb customer_id "CUST67890" then mret (Some sarah_johnson)
     else if String.eqb customer_id "CUST24680" then mret (Some michael_chen)
     else if String.eqb customer_id "CUST13579" then mret (Some david_wilson)
     else mret None)
    (fun e =>
       logger_error ("Error retrieving customer " +:+ customer_id +:+ ": "
                     +:+ exn_str e);;
       mret None).

Definition search_customers (query : string) : M (list CatalogEntry) :=
  try_except
    (request (CRMSearchCustomers query);;
     let query := PyStr.lower query in
     let results := search_loop query mock_customers [] in
     logger_info ("Found " +:+ pretty (length results)
                  +:+ " customers matching query: " +:+ query);;
     mret results)
    (fun e =>
       logger_error ("Error searching customers with query '" +:+ query +:+ "': "
                     +:+ exn_str e);;
       mret []).

Definition create_entry (entry_data : value) : M (option string) :=
  try_except
    (request (CRMCreateEntry entry_data);;
     t ← datetime_now;
     let entry_id := "ENTRY_" +:+ strftime_now t in
     logger_info ("Created CRM entry: " +:+ entry_id);;
     mret (Some entry_id))
    (fun e =>
       logger_error ("Error creating CRM entry: " +:+ exn_str e);;
       mret None).

End CRMService.
End CRMService.


(** ** [app/agent.py] *)

Module CustomerServiceAgent.
Section CustomerServiceAgent.
Context `{Externals}.

Import EmailService.

(** The four operations of the agent pack their arguments into a
    dictionary and hand it to the tool, which unpacks it; the optional
    arguments are replaced by an empty list or dictionary when false. *)
Definition summarize_email (subject body sender date : string)
    (attachments : option (list string)) : M string :=
  logger_info ("Summarizing email from " +:+ sender +:+ " with subject: "
               +:+ subject);;
  summary ← EmailSummarizer.summarize_email subject body sender date
              (Some (default [] attachments));
  logger_info "Email summarized successfully";;
  mret summary.

Definition categorize_ticket (title description : string)
    (customer_id priority category : option string) : M value :=
  logger_info ("Categorizing ticket: " +:+ title);;
  result ← TicketRouter.categorize_ticket title description customer_id
             priority category;
  result_category ← get result "category";
  result_priority ← get result "priority";
  logger_info ("Ticket categorized as " +:+ format_value result_category
               +:+ " with " +:+ format_value result_priority +:+ " priority");;
  mret result.

Definition create_crm_entry (customer_name interaction_details : string)
    (additional_info : option (gmap string value)) : M value :=
  logger_info ("Creating CRM entry for customer: " +:+ customer_name);;
  crm_entry ← CRMEntryGenerator.create_crm_entry customer_name
                interaction_details (Some (default ∅ additional_info));
  logger_info "CRM entry created successfully";;
  mret crm_entry.

Definition route_query (query : string) (customer_id : option string)
    (context : option (gmap string value)) : M value :=
  logger_info ("Routing customer query: " +:+ PyStr.slice_to query 50 +:+ "...");;
  routing ← TicketRouter.route_query query customer_id
              (Some (default ∅ context));
  department ← get routing "department";
  logger_info ("Query routed to " +:+ format_value department);;
  mret routing.

(** The [try] block of the loop body of [process_email_batch]. *)
Definition process_email (email : Email) : M unit :=
  summary ← summarize_email (email_subject email) (email_body email)
              (email_sender email) (email_date email)
              (Some (email_attachments email));
  is_support ← TicketRouter.is_support_request (email_subject email)
                 (email_body email);
  (if is_support : bool then
     ticket_data ← categorize_ticket (email_subject email) (email_body email)
                     (email_customer_id email) None None;
     category ← getitem ticket_data "category";
     priority ← getitem ticket_data "priority";
     _ ← TicketService.create_ticket (email_subject email) (email_body email)
           category priority (email_customer_id email);
     mret tt
   else mret tt);;
  crm_entry ← create_crm_entry (email_sender email)
                ("Email: " +:+ email_subject email +:+ PyStr.nl +:+ PyStr.nl
                 +:+ "Summary: " +:+ summary)
                (Some {[ "email_id" := VStr (email_id email) ]});
  _ ← CRMService.create_entry crm_entry;
  _ ← mark_as_processed (email_id email);
  mret tt.

(** The loop body: the [try] block and its [except Exception] handler. *)
Definition process_email_guarded (email : Email) : M unit :=
  try_except (process_email email) (fun e =>
    logger_error ("Error processing email " +:+ email_id email +:+ ": "
                  +:+ exn_str e)).

(** [for email in emails: ...]. *)
Definition process_emails (emails : list Email) : M unit :=
  for_each emails process_email_guarded.

Definition process_email_batch : M unit :=
  logger_info "Starting batch email processing";;
  emails ← get_unprocessed_emails;
  process_emails emails;;
  logger_info ("Batch email processing completed. Processed "
               +:+ pretty (length emails) +:+ " emails").

End CustomerServiceAgent.
End CustomerServiceAgent.

(** ** [app/memory.py] *)

(** [AgentMemory] derives from LangChain's [ConversationBufferMemory], a
    pydantic model, and declares no field of its own. The constructor is
    embedded as it is written; the methods are embedded for an object that
    has the two attributes they use, [customer_contexts] and
    [memory_file_path] (as an object of a subclass that declares them
    has). *)

Module AgentMemory.

(** The classes of LangChain messages; [_save_memory] tests for the first
    three. *)
Inductive message_class :=
| HumanMessage
| AIMessage
| SystemMessage
| OtherMessage (class_name : string).

Record Message := mkMessage {
  message_cls : message_class;
  content : string;
  additional_kwargs : gmap string value
}.

(** The memory object: [self.chat_memory.messages] and
    [self.customer_contexts], a [Dict[str, Dict[str, Any]]]. *)
Record Memory := mkMemory {
  messages : list Message;
  customer_contexts : gmap string (gmap string object)
}.

(** The customer contexts of a document, as the objects that [json.load]
    builds. *)
Definition loaded_contexts (written : gmap string (gmap string value))
    : gmap string (gmap string object) :=
  fmap (M:=gmap string) (fmap (M:=gmap string) Plain) written.

(** [self.chat_memory.add_message(C(content=c))]. *)
Definition add_message (self : Memory) (cls : message_class) (c : string) : Memory :=
  mkMemory (messages self ++ [mkMessage cls c ∅]) (customer_contexts self).

(** The loop of [_load_memory] over the stored messages. *)
Fixpoint load_messages (stored : list StoredMessage) (self : Memory) : Memory :=
  match stored with
  | [] => self
  | message_data :: rest =>
      let ty := stored_type message_data in
      let self' :=
        if String.eqb ty "human" then
          add_message self HumanMessage (stored_content message_data)
        else if String.eqb ty "ai" then
          add_message self AIMessage (stored_content message_data)
        else if String.eqb ty "system" then
          add_message self SystemMessage (stored_content message_data)
        else self in
      load_messages rest self'
  end.

(** The loop of [_save_memory] over the messages in memory. *)
Fixpoint dump_messages (msgs : list Message) (out : list StoredMessage)
    : list StoredMessage :=
  match msgs with
  | [] => out
  | message :: rest =>
      let out' :=
        match message_cls message with
        | HumanMessage => out ++ [mkStored "human" (content message)]
        | AIMessage => out ++ [mkStored "ai" (content message)]
        | SystemMessage => out ++ [mkStored "system" (content message)]
        | OtherMessage _ => out
        end in
      dump_messages rest out'
  end.

(** [self.<name> = ...] in [__init__], for a name that is no field of the
    model: pydantic refuses to set an attribute that is not a field. *)
Definition setattr_no_field (name : string) : M unit :=
  let dq := String "034"%char EmptyString in
  raise (Exn ValueError (dq +:+ "AgentMemory" +:+ dq +:+ " object has no field "
                         +:+ dq +:+ name +:+ dq)).

Section AgentMemory.
Context `{Externals}.

Definition memory_file_path : string := "agent_memory.json".

Definition _load_memory (self : Memory) : M Memory :=
  try_except
    (file ← read_memory_file;
     match file with
     | Some data =>
         let self' :=
           load_messages (file_messages data)
             (mkMemory (messages self)
                (loaded_contexts (file_customer_contexts data))) in
         logger_info ("Loaded memory from " +:+ memory_file_path);;
         mret self'
     | None => mret self
     end)
    (fun e =>
       logger_error ("Error loading memory: " +:+ exn_str e);;
       mret self).

(** [AgentMemory()]: after [super().__init__(...)] the first assignment,
    [self.customer_contexts = {}], raises, so that neither the file is read
    nor anything logged. *)
Definition __init__ : M Memory :=
  setattr_no_field "customer_contexts";;
  setattr_no_field "memory_file_path";;
  self ← _load_memory (mkMemory [] ∅);
  logger_info "Agent memory initialized";;
  mret self.

Definition _save_memory (self : Memory) : M unit :=
  try_except
    (let stored := dump_messages (messages self) [] in
     t ← datetime_now;
     write_memory_file (customer_contexts self) stored (isoformat_now t 0);;
     logger_info ("Saved memory to " +:+ memory_file_path))
    (fun e => logger_error ("Error saving memory: " +:+ exn_str e)).

(** [super().save_context(inputs, outputs)] of LangChain's buffer memory:
    the input and output strings of the turn are appended as a human and an
    AI message. *)
Definition super_save_context (self : Memory) (inputs : gmap string object)
    (outputs : gmap string string) : M Memory :=
  match get_input_output inputs outputs with
  | inl e => raise e
  | inr (input_str, output_str) =>
      mret (add_message (add_message self HumanMessage input_str)
              AIMessage output_str)
  end.

Definition save_context (self : Memory) (inputs : gmap string object)
    (outputs : gmap string string) : M Memory :=
  self' ← super_save_context self inputs outputs;
  _save_memory self';;
  mret self'.

(** [super().clear()] empties the chat history. *)
Definition clear (self : Memory) : M Memory :=
  let self' := mkMemory [] (customer_contexts self) in
  _save_memory self';;
  mret self'.

Definition get_customer_context (self : Memory) (customer_id : string)
    : gmap string object :=
  default ∅ (customer_contexts self !! customer_id).

Definition update_customer_context (self : Memory) (customer_id : string)
    (context_data : gmap string object) : M Memory :=
  let contexts :=
    match customer_contexts self !! customer_id with
    | Some _ => customer_contexts self
    | None => <[customer_id := ∅]> (customer_contexts self)
    end in
  (* dict.update: the new keys win *)
  let updated := context_data ∪ default ∅ (contexts !! customer_id) in
  t ← datetime_now;
  let stamped := <["last_updated" := Plain (VStr (isoformat_now t 0))]> updated in
  let self' := mkMemory (messages self) (<[customer_id := stamped]> contexts) in
  _save_memory self';;
  logger_info ("Updated context for customer " +:+ customer_id);;
  mret self'.

(** [not customer_id] for an [Optional[str]]. *)
Definition no_customer_id (customer_id : option string) : bool :=
  match customer_id with
  | None => true
  | Some s => String.eqb s EmptyString
  end.

(** The filter loop of [get_relevant_history]. *)
Fixpoint filter_by_customer (customer_id : string) (all_messages : list Message)
    (relevant_messages : list Message) : list Message :=
  match all_messages with
  | [] => relevant_messages
  | message :: rest =>
      let message_customer_id :=
        default VNone (additional_kwargs message !! "customer_id") in
      filter_by_customer customer_id rest
        (if value_eq_str message_customer_id customer_id
         then relevant_messages ++ [message] else relevant_messages)
  end.

Definition get_relevant_history (self : Memory) (customer_id : option string)
    (max_messages : Z) : list Message :=
  let all_messages := messages self in
  if no_customer_id customer_id then
    PyList.slice_from all_messages (- max_messages)
  else
    let relevant_messages :=
      filter_by_customer (default EmptyString customer_id) all_messages [] in
    PyList.slice_from relevant_messages (- max_messages).

(** The operations that change the memory, for stating properties of
    sequences of them. *)
Inductive operation :=
| SaveContext (inputs : gmap string object) (outputs : gmap string string)
| UpdateCustomerContext (customer_id : string) (context_data : gmap string object)
| Clear.

Definition run_operation (op : operation) (self : Memory) : M Memory :=
  match op with
  | SaveContext inputs outputs => save_context self inputs outputs
  | UpdateCustomerContext customer_id context_data =>
      update_customer_context self customer_id context_data
  | Clear => clear self
  end.

(** Runs the operations in turn on one memory object; a [save_context] that
    raises leaves the object as it was, and the caller goes on. *)
Fixpoint run_operations (ops : list operation) (self : Memory) (w : World)
    : Memory * World :=
  match ops with
  | [] => (self, w)
  | op :: rest =>
      match run_operation op self w with
      | (inr self', w') => run_operations rest self' w'
      | (inl _, w') => run_operations rest self w'
      end
  end.

(** The messages that the memory file holds: those of its document; a file
    cut short holds none. *)
Definition persisted_messages (w : World) : list StoredMessage :=
  match agent_memory_json w with
  | Some (Document data) => file_messages data
  | _ => []
  end.

(** [AgentMemory()] as the agent calls it when it starts, and the world
    afterwards; when the constructor raises there is no object, and an
    empty memory stands in its place. *)
Definition start (w : World) : Memory * World :=
  match __init__ w with
  | (inr self, w') => (self, w')
  | (inl _, w') => (mkMemory [] ∅, w')
  end.

(** A memory object that has read the file: [_load_memory] on an object
    whose conversation and customer contexts are empty, which is how
    [__init__] calls it. *)
Definition loaded (w : World) : Memory * World :=
  match _load_memory (mkMemory [] ∅) w with
  | (inr self, w') => (self, w')
  | (inl _, w') => (mkMemory [] ∅, w')
  end.

(** The same world with another content of the memory file. *)
Definition with_memory_file (file : option FileContent) (w : World) : World :=
  mkWorld (llm_calls w) (clock w) (log w) (trace w) file.

End AgentMemory.
End AgentMemory.

(** ** Vocabulary of the specification

    The notions the properties below are stated with, written after the
    words of the specification rather than after the code. *)

Module Spec.

(** [sub] occurs in [s]. *)
Definition occurs (sub s : string) : Prop :=
  ∃ pre post, s = pre +:+ sub +:+ post.

(** The text contains a fenced [json] code block. *)
Definition has_json_fence (content : string) : Prop :=
  ∃ pre block post,
    content = pre +:+ json_fence_open +:+ block +:+ json_fence_close +:+ post.

(** [block] is the contents of the first fenced [json] code block of the
    text: no opening fence starts earlier, and the block ends at the first
    closing fence after it. *)
Definition first_json_fence (content block : string) : Prop :=
  ∃ pre post,
    content = pre +:+ json_fence_open +:+ block +:+ json_fence_close +:+ post
    ∧ (∀ pre' rest', content = pre' +:+ json_fence_open +:+ rest' →
         (String.length pre <= String.length pre')%nat)
    ∧ (∀ block' post',
         block +:+ json_fence_close +:+ post
         = block' +:+ json_fence_close +:+ post' →
         (String.length block <= String.length block')%nat).

(** The text contains an opening brace and a closing brace after it. *)
Definition has_braces (content : string) : Prop :=
  ∃ pre mid post, content = pre +:+ "{" +:+ mid +:+ "}" +:+ post.

(** [span] is the substring of the text from its first opening brace to its
    last closing brace. *)
Definition brace_span (content span : string) : Prop :=
  ∃ pre mid post,
    content = pre +:+ "{" +:+ mid +:+ "}" +:+ post
    ∧ ¬ occurs "{" pre ∧ ¬ occurs "}" post
    ∧ span = "{" +:+ mid +:+ "}".

Section Extraction.
Context `{Externals}.

(** The parse of a text, if it parses. *)
Definition parsed (text : string) : option value :=
  match json_loads text with
  | inr v => Some v
  | inl _ => None
  end.

(** [json.loads] rejects the text as no JSON: it raises a
    [JSONDecodeError]. *)
Definition rejected (text : string) : Prop :=
  ∃ e, json_loads text = inl e ∧ is_JSONDecodeError e = true.

(** [json.loads] breaks on the text: it raises an exception that is no
    [JSONDecodeError]. *)
Definition breaks_on (text : string) : Prop :=
  ∃ e, json_loads text = inl e ∧ is_JSONDecodeError e = false.

(** The three stages of the extraction, in the order of the specification:
    what is extracted from the content of a response, [None] when every
    stage fails (and a stage that finds its text yields what that text
    parses to). The second and the third stage are for a text that
    [json.loads] rejected as no JSON; when it broke on the text, nothing is
    extracted. *)
Inductive extracts (content : string) : option value → Prop :=
| extracts_whole v :
    parsed content = Some v →
    extracts content (Some v)
| extracts_fence block :
    rejected content →
    first_json_fence content block →
    extracts content (parsed block)
| extracts_braces span :
    rejected content →
    ¬ has_json_fence content →
    brace_span content span →
    extracts content (parsed span)
| extracts_nothing :
    rejected content →
    ¬ has_json_fence content →
    ¬ has_braces content →
    extracts content None
| extracts_broken :
    breaks_on content →
    extracts content None.

End Extraction.

(** A dictionary with a given key. *)
Definition has_key (key : string) (v : value) : Prop :=
  ∃ d, v = VDict d ∧ is_Some (d !! key).

(** Between [w] and [w'] a record was logged at level [ERROR]. *)
Definition logged_error (w w' : World) : Prop :=
  ∃ msg, LogRecord ERROR msg ∈ drop (length (log w)) (log w').

(** The steps of the batch loop for one email. *)
Inductive step :=
| Summarize
| DetectSupport
| Categorize
| SubmitTicket
| GenerateCRMEntry
| SubmitCRMEntry
| MarkProcessed
| OtherStep.

Definition step_of (a : action) : step :=
  match a with
  | LLMInvoke (SummarizationPrompt _ _ _ _ _) => Summarize
  | LLMInvoke (SupportDetectionPrompt _ _) => DetectSupport
  | LLMInvoke (CategorizationPrompt _ _ _ _ _) => Categorize
  | TicketCreate _ _ _ _ _ => SubmitTicket
  | LLMInvoke (CRMEntryPrompt _ _ _) => GenerateCRMEntry
  | CRMCreateEntry _ => SubmitCRMEntry
  | EmailMarkProcessed _ => MarkProcessed
  | _ => OtherStep
  end.

(** The steps of one email in program order, when none of them raises. *)
Definition steps_for (is_support : bool) : list step :=
  [Summarize; DetectSupport]
  ++ (if is_support then [Categorize; SubmitTicket] else [])
  ++ [GenerateCRMEntry; SubmitCRMEntry; MarkProcessed].

(** The steps of one email whose categorization cannot be used. *)
Definition steps_interrupted : list step :=
  [Summarize; DetectSupport; Categorize].

(** The outgoing calls made from world [w] on, and the same as steps. *)
Definition actions_since (w w' : World) : list action :=
  drop (length (trace w)) (trace w').

Definition steps_since (w w' : World) : list step :=
  map step_of (actions_since w w').

(** The call is made on behalf of this email. *)
Definition concerns (email : EmailService.Email) (a : action) : Prop :=
  match a with
  | LLMInvoke (SummarizationPrompt subject body sender date _) =>
      subject = EmailService.email_subject email
      ∧ body = EmailService.email_body email
      ∧ sender = EmailService.email_sender email
      ∧ date = EmailService.email_date email
  | LLMInvoke (SupportDetectionPrompt subject message) =>
      subject = EmailService.email_subject email
      ∧ message = EmailService.email_body email
  | LLMInvoke (CategorizationPrompt title description _ _ _) =>
      title = EmailService.email_subject email
      ∧ description = EmailService.email_body email
  | TicketCreate title description _ _ customer_id =>
      title = EmailService.email_subject email
      ∧ description = EmailService.email_body email
      ∧ customer_id = EmailService.email_customer_id email
  | LLMInvoke (CRMEntryPrompt customer_name _ _) =>
      customer_name = EmailService.email_sender email
  | CRMCreateEntry _ => True
  | EmailMarkProcessed email_id => email_id = EmailService.email_id email
  | _ => False
  end.

Section Batch.
Context `{Externals}.

Import EmailService.

(** The outcome of a categorization can be submitted as a ticket: it is a
    dictionary with a [category] and a [priority]. *)
Definition submittable (r : exn + value) : Prop :=
  ∃ d, r = inr (VDict d) ∧ is_Some (d !! "category") ∧ is_Some (d !! "priority").

(** The loop handles one email between the worlds [w] and [w']: the email is
    summarized, then support-request detection runs; when detection says
    yes the ticket is categorized and, if the categorization can be
    submitted, the ticket is submitted; then the CRM entry is generated and
    submitted and the email is marked as processed. A categorization that
    cannot be submitted ends the handling of the email there, with an error
    logged. All calls made concern this email. *)
Definition handles (email : Email) (w w' : World) : Prop :=
  ∃ summary w1 is_support w2,
    CustomerServiceAgent.summarize_email (email_subject email)
      (email_body email) (email_sender email) (email_date email)
      (Some (email_attachments email)) w = (inr summary, w1)
    ∧ TicketRouter.is_support_request (email_subject email) (email_body email)
        w1 = (inr is_support, w2)
    ∧ Forall (concerns email) (actions_since w w')
    ∧ if is_support then
        ∃ r w3,
          CustomerServiceAgent.categorize_ticket (email_subject email)
            (email_body email) (email_customer_id email) None None w2 = (r, w3)
          ∧ ((submittable r ∧ steps_since w w' = steps_for true)
             ∨ (¬ submittable r ∧ steps_since w w' = steps_interrupted
                ∧ logged_error w w'))
      else steps_since w w' = steps_for false.

(** The emails are handled one at a time, in the order of the list. *)
Inductive handled_in_order : list Email → World → World → Prop :=
| handled_nil w :
    handled_in_order [] w w
| handled_cons email emails w w1 w' :
    handles email w w1 →
    handled_in_order emails w1 w' →
    handled_in_order (email :: emails) w w'.

(** The call that starts the handling of an email. *)
Definition summarization_call (email : Email) : action :=
  LLMInvoke (EmailSummarizer.formatted_prompt (email_subject email)
               (email_body email) (email_sender email) (email_date email)
               (Some (email_attachments email))).

End Batch.

(** The canned customer records, and their ids. *)
Definition canned_customers : list CRMService.Customer :=
  [CRMService.john_smith; CRMService.sarah_johnson; CRMService.michael_chen;
   CRMService.david_wilson].

Definition canned_ids : list string :=
  ["CUST12345"; "CUST67890"; "CUST24680"; "CUST13579"].

(** The stored form of a message, one per message. *)
Definition stored_of (m : AgentMemory.Message) : StoredMessage :=
  match AgentMemory.message_cls m with
  | AgentMemory.HumanMessage => mkStored "human" (AgentMemory.content m)
  | AgentMemory.AIMessage => mkStored "ai" (AgentMemory.content m)
  | AgentMemory.SystemMessage => mkStored "system" (AgentMemory.content m)
  | AgentMemory.OtherMessage name => mkStored name (AgentMemory.content m)
  end.

(** The memory holds role-tagged messages only. *)
Definition role_tagged (m : AgentMemory.Message) : Prop :=
  match AgentMemory.message_cls m with
  | AgentMemory.OtherMessage _ => False
  | _ => True
  end.

(** A stored message that [_load_memory] recognises. *)
Definition known_type (s : StoredMessage) : Prop :=
  stored_type s = "human" ∨ stored_type s = "ai" ∨ stored_type s = "system".

(** The whole state of a memory object as a document: every message, and
    every customer context as [json.dump] wrote it. *)
Definition whole_state (self : AgentMemory.Memory)
    (written : gmap string (gmap string value)) (stamp : string) : FileData :=
  mkFileData written (map stored_of (AgentMemory.messages self)) stamp.

(** The customer contexts after an update: the context of the customer is
    the update laid over what it was, with the stamp laid over both. *)
Definition updated_contexts (self : AgentMemory.Memory) (customer_id : string)
    (context_data : gmap string object) (stamp : string)
    : gmap string (gmap string object) :=
  <[customer_id :=
      <["last_updated" := Plain (VStr stamp)]>
        (context_data
         ∪ default ∅ (AgentMemory.customer_contexts self !! customer_id))]>
    (AgentMemory.customer_contexts self).

(** [json.dump] can write the customer contexts of the memory object. *)
Definition writable `{Externals} (self : AgentMemory.Memory) : Prop :=
  ∃ written,
    json_dump_contexts (AgentMemory.customer_contexts self) = inr written.

(** The memory file holds the conversation that the memory object holds;
    or it holds no message, and the customer contexts of the object cannot
    be written: the last write broke off. *)
Definition in_sync `{Externals} (self : AgentMemory.Memory) (w : World) : Prop :=
  Forall role_tagged (AgentMemory.messages self)
  ∧ (AgentMemory.persisted_messages w = map stored_of (AgentMemory.messages self)
     ∨ (AgentMemory.persisted_messages w = [] ∧ ¬ writable self)).

(** The [n] most recent elements of a list, in order. *)
Definition most_recent {A} (n : nat) (l : list A) : list A :=
  drop (length l - n) l.

(** The message carries this customer id in its [additional_kwargs]. *)
Definition carries_customer_id (customer_id : string) (m : AgentMemory.Message)
    : Prop :=
  AgentMemory.additional_kwargs m !! "customer_id" = Some (VStr customer_id).

(** An entry matches a query, case-insensitively, on one of its three
    searched fields. *)
Definition matches (query : string) (c : CRMService.CatalogEntry) : Prop :=
  occurs (PyStr.lower query) (PyStr.lower (CRMService.entry_name c))
  ∨ occurs (PyStr.lower query) (PyStr.lower (CRMService.entry_email c))
  ∨ occurs (PyStr.lower query) (PyStr.lower (CRMService.entry_company c)).

End Spec.

(** ** Concrete externals, for running the model on examples *)

Module Demo.

Definition dq : string := String "034"%char EmptyString.

(** [{"category": "Bug", "priority": "High"}]. *)
Definition ticket_json : string :=
  "{" +:+ dq +:+ "category" +:+ dq +:+ ": " +:+ dq +:+ "Bug" +:+ dq +:+ ", "
  +:+ dq +:+ "priority" +:+ dq +:+ ": " +:+ dq +:+ "High" +:+ dq +:+ "}".

Definition ticket_dict : gmap string value :=
  list_to_map [("category", VStr "Bug"); ("priority", VStr "High")].

(** The number of opening brackets that a text starts with. *)
Fixpoint opening_brackets (s : string) : Z :=
  match s with
  | String "["%char s' => 1 + opening_brackets s'
  | _ => 0
  end.

(** [n] opening brackets. *)
Fixpoint brackets (n : nat) : string :=
  match n with
  | O => EmptyString
  | S n' => String "["%char (brackets n')
  end.

(** A nesting that no Python decodes: the decoder of arrays calls itself
    once per bracket and runs into the recursion limit long before. *)
Definition too_deep : Z := 100000.

(** [json.loads] on the texts the examples use: three texts that parse, a
    text that opens [too_deep] arrays or more, on which the decoder raises
    [RecursionError], and the others, which are no JSON. *)
Definition demo_json_loads (s : string) : exn + value :=
  if String.eqb s "{}" then inr (VDict ∅)
  else if String.eqb s ticket_json then inr (VDict ticket_dict)
  else if String.eqb s "[]" then inr (VList [])
  else if too_deep <=? opening_brackets s then
    inl (Exn (OtherException "RecursionError")
           "maximum recursion depth exceeded while decoding a JSON array from a unicode string")
  else inl (Exn JSONDecodeError "Expecting value: line 1 column 1 (char 0)").

(** [json.dump] on customer contexts: objects of JSON are written as they
    are, and any other object raises [TypeError] (the examples use a
    set). *)
Definition plain_value (o : object) : option value :=
  match o with
  | Plain v => Some v
  | Opaque _ => None
  end.

Definition all_plain (context : gmap string object) : bool :=
  forallb (fun item => match item.2 with Plain _ => true | Opaque _ => false end)
    (map_to_list context).

Definition demo_json_dump_contexts
    (customer_contexts : gmap string (gmap string object))
    : exn + gmap string (gmap string value) :=
  if forallb (fun item => all_plain item.2) (map_to_list customer_contexts) then
    inr (fmap (M:=gmap string) (omap (M:=gmap string) plain_value)
           customer_contexts)
  else inl (Exn TypeError "Object of type set is not JSON serializable").

Definition demo_get_input_output (inputs : gmap string object)
    (outputs : gmap string string) : exn + (string * string) :=
  match inputs !! "input", outputs !! "output" with
  | Some (Plain (VStr i)), Some o => inr (i, o)
  | _, _ => inl (Exn ValueError "One input key expected")
  end.

(** Externals around a scripted chat model. *)
Definition externals (llm : nat -> prompt -> exn + string) : Externals := {|
  llm_outcome := llm;
  json_loads := demo_json_loads;
  json_dump_contexts := demo_json_dump_contexts;
  json_load_truncated := fun _ => "Expecting value";
  json_dumps := fun _ => "{...}";
  format_value := fun v => match v with VStr s => s | VNone => "None" | _ => "..." end;
  strftime_now := fun n => "2023101510" +:+ pretty n;
  isoformat_now := fun n h => "2023-10-15T10:00:" +:+ pretty n;
  EMAIL_BATCH_SIZE := 10;
  get_input_output := demo_get_input_output
|}.

(** A chat model that finds a support request in every email and answers
    every other prompt with [reply]. *)
Definition llm_replying (reply : string) (n : nat) (p : prompt) : exn + string :=
  match p with
  | SupportDetectionPrompt _ _ => inr "Yes"
  | _ => inr reply
  end.

(** A chat model that answers every prompt with [reply]. *)
Definition llm_constant (reply : string) (n : nat) (p : prompt) : exn + string :=
  inr reply.

(** A chat model that is unreachable. *)
Definition llm_down (n : nat) (p : prompt) : exn + string :=
  inl (Exn (OtherException "APIConnectionError") "Connection error.").

Definition world0 : World := mkWorld 0 0 [] [] None.

Definition an_email : EmailService.Email :=
  EmailService.mock_email 0 "email_0_20231015100000" "2023-10-15T10:00:00".

(** A reply that wraps an empty object in a fenced block. *)
Definition fenced_reply : string :=
  "Here is the result:" +:+ PyStr.nl +:+ "```json" +:+ PyStr.nl +:+ "{}"
  +:+ PyStr.nl +:+ "```".

(** The model answers every prompt with [fenced_reply]. *)
Definition E_fenced : Externals := externals (llm_constant fenced_reply).

(** The model sees a support request and categorizes it as [{}]. *)
Definition E_empty_object : Externals := externals (llm_replying "{}").

(** The model cannot be reached. *)
Definition E_down : Externals := externals llm_down.

(** A reply that opens [too_deep] arrays and then gives an empty object in
    a fenced block. *)
Definition deep_reply : string :=
  brackets (Z.to_nat too_deep) +:+ PyStr.nl +:+ "```json" +:+ PyStr.nl +:+ "{}"
  +:+ PyStr.nl +:+ "```".

(** The model answers every prompt with [deep_reply]. *)
Definition E_deep : Externals := externals (llm_constant deep_reply).

(** One turn of conversation. *)
Definition a_turn : AgentMemory.operation :=
  AgentMemory.SaveContext {[ "input" := Plain (VStr "hi") ]}
    {[ "output" := "hello" ]}.

(** The memory and the world after a memory object read the memory file,
    of which there is none, and saved one turn. *)
Definition after_a_turn : AgentMemory.Memory * World :=
  @AgentMemory.run_operations E_down [a_turn]
    (@AgentMemory.loaded E_down world0).1 (@AgentMemory.loaded E_down world0).2.

(** An update of the context of one customer. *)
Definition an_update : AgentMemory.operation :=
  AgentMemory.UpdateCustomerContext "CUST12345"
    {[ "plan" := Plain (VStr "Enterprise") ]}.

(** An update that puts a set into the context of a customer. *)
Definition a_set_update : AgentMemory.operation :=
  AgentMemory.UpdateCustomerContext "CUST12345" {[ "seen" := Opaque "set" ]}.

(** A memory with three messages, none of which carries a customer id. *)
Definition a_memory : AgentMemory.Memory :=
  AgentMemory.mkMemory
    [AgentMemory.mkMessage AgentMemory.HumanMessage "first" ∅;
     AgentMemory.mkMessage AgentMemory.AIMessage "second" ∅;
     AgentMemory.mkMessage AgentMemory.HumanMessage "third" ∅] ∅.

End Demo.

(** ** The mocked services: the operations beside the batch loop

    The batch loop reaches [create_ticket], [create_entry],
    [get_unprocessed_emails] and [mark_as_processed]; the operations below
    are the other ones of [app/services/tickets.py] and
    [app/services/crm.py] that compute something. Their simulated latency is
    a delay and nothing else. *)

(** [await asyncio.sleep(seconds)]: time passes; nothing that the program
    reads changes. The delay is given in tenths of a second. *)
Definition asyncio_sleep (tenths : Z) : M unit := mret tt.

(** The date stamp of the ticket mock. *)
Class Calendar := {
  (** [datetime.now().strftime('%Y%m%d')] at the [n]-th reading. *)
  strftime_date_now : nat -> string
}.

Module TicketQueries.

Import PyStr.

(** A ticket as [get_tickets_by_customer] returns it. *)
Record CustomerTicket := mkCustomerTicket {
  ct_id : string;
  ct_title : string;
  ct_status : string;
  ct_priority : string;
  ct_category : string;
  ct_customer_id : string;
  ct_created_at : string;
  ct_updated_at : string
}.

(** A ticket as [search_tickets] returns it. *)
Record FoundTicket := mkFoundTicket {
  ft_id : string;
  ft_title : string;
  ft_description : string;
  ft_status : string;
  ft_priority : string;
  ft_category : string;
  ft_created_at : string;
  ft_updated_at : string
}.

(** [wanted and wanted.lower() != actual.lower()], the test that skips a
    ticket: an absent or empty filter skips nothing. *)
Definition filtered_out (wanted : option string) (actual : string) : bool :=
  match wanted with
  | Some s =>
      negb (String.eqb s EmptyString)
      && negb (String.eqb (lower s) (lower actual))
  | None => false
  end.

(** The fixed fields of the [i]-th ticket of [get_tickets_by_customer]:
    status, title, category, priority. *)
Definition customer_ticket_fields (i : nat) : string * string * string * string :=
  match i with
  | 0%nat => ("Open", "Login Issue", "Technical", "High")
  | 1%nat => ("Pending", "Billing Question", "Billing", "Medium")
  | _ => ("Closed", "Feature Request", "Feature Request", "Low")
  end.

(** The fixed fields of the [i]-th ticket of [search_tickets]: status,
    title, description, category, priority. *)
Definition found_ticket_fields (i : nat)
    : string * string * string * string * string :=
  match i with
  | 0%nat =>
      ("Open", "Cannot login to dashboard",
       "Customer is unable to login to the dashboard after password reset.",
       "Technical", "High")
  | 1%nat =>
      ("Open", "Billing discrepancy on invoice #12345",
       "Customer reports being charged for features they didn't use.",
       "Billing", "Medium")
  | 2%nat =>
      ("Pending", "Request for bulk export feature",
       "Customer would like the ability to export all reports at once.",
       "Feature Request", "Low")
  | 3%nat =>
      ("Closed", "Error message when uploading files",
       "Customer was seeing an error when uploading CSV files. Issue resolved.",
       "Technical", "Medium")
  | _ =>
      ("Open", "Question about API rate limits",
       "Customer wants to know what the API rate limits are for their plan.",
       "Technical", "Low")
  end.

Section TicketQueries.
Context `{Externals} `{Calendar}.

(** [for i in range(3): ...] of [get_tickets_by_customer]: the id is built
    first, a ticket that the status filter rejects is skipped, and the two
    dates of a ticket that is kept are read from the clock in turn. *)
Fixpoint customer_tickets (range : list nat) (customer_id : string)
    (status : option string) (tickets : list CustomerTicket)
    : M (list CustomerTicket) :=
  match range with
  | [] => mret tickets
  | i :: range' =>
      t_id ← datetime_now;
      let ticket_id := "TICKET_" +:+ pretty i +:+ "_" +:+ strftime_date_now t_id in
      let '(ticket_status, ticket_title, ticket_category, ticket_priority) :=
        customer_ticket_fields i in
      if filtered_out status ticket_status then
        customer_tickets range' customer_id status tickets
      else
        t_created ← datetime_now;
        t_updated ← datetime_now;
        customer_tickets range' customer_id status
          (tickets ++ [mkCustomerTicket ticket_id ticket_title ticket_status
                         ticket_priority ticket_category customer_id
                         (isoformat_now t_created (24 * (Z.of_nat i * 2)))
                         (isoformat_now t_updated (24 * Z.of_nat i))])
  end.

Definition get_tickets_by_customer (customer_id : string)
    (status : option string) : M (list CustomerTicket) :=
  try_except
    (asyncio_sleep 4;;
     tickets ← customer_tickets (seq 0 3) customer_id status [];
     logger_info ("Retrieved " +:+ pretty (length tickets)
                  +:+ " tickets for customer " +:+ customer_id);;
     mret tickets)
    (fun e =>
       logger_error ("Error retrieving tickets for customer " +:+ customer_id
                     +:+ ": " +:+ exn_str e);;
       mret []).

(** [query.lower() not in title.lower() and query.lower() not in
    description.lower()]. *)
Definition query_misses (query title description : string) : bool :=
  negb (contains (lower query) (lower title))
  && negb (contains (lower query) (lower description)).

(** [for i in range(min(5, limit)): ...] of [search_tickets]. *)
Fixpoint found_tickets (range : list nat) (query : string)
    (status category priority : option string) (tickets : list FoundTicket)
    : M (list FoundTicket) :=
  match range with
  | [] => mret tickets
  | i :: range' =>
      t_id ← datetime_now;
      let ticket_id := "TICKET_" +:+ pretty i +:+ "_" +:+ strftime_date_now t_id in
      let '(ticket_status, ticket_title, ticket_description, ticket_category,
            ticket_priority) := found_ticket_fields i in
      if filtered_out status ticket_status then
        found_tickets range' query status category priority tickets
      else if filtered_out category ticket_category then
        found_tickets range' query status category priority tickets
      else if filtered_out priority ticket_priority then
        found_tickets range' query status category priority tickets
      else if query_misses query ticket_title ticket_description then
        found_tickets range' query status category priority tickets
      else
        t_created ← datetime_now;
        t_updated ← datetime_now;
        found_tickets range' query status category priority
          (tickets ++ [mkFoundTicket ticket_id ticket_title ticket_description
                         ticket_status ticket_priority ticket_category
                         (isoformat_now t_created (24 * Z.of_nat i))
                         (isoformat_now t_updated 0)])
  end.

Definition search_tickets (query : string)
    (status category priority : option string) (limit : Z)
    : M (list FoundTicket) :=
  try_except
    (asyncio_sleep 5;;
     tickets ← found_tickets (seq 0 (Z.to_nat (Z.min 5 limit))) query status
                 category priority [];
     logger_info ("Found " +:+ pretty (length tickets)
                  +:+ " tickets matching query: " +:+ query);;
     mret tickets)
    (fun e =>
       logger_error ("Error searching tickets with query '" +:+ query +:+ "': "
                     +:+ exn_str e);;
       mret []).

End TicketQueries.
End TicketQueries.

Module CRMRecords.

(** An interaction as [get_recent_interactions] builds it. *)
Record Interaction := mkInteraction {
  interaction_id : string;
  interaction_type : string;
  interaction_subject : string;
  interaction_description : string;
  interaction_date : string;
  interaction_agent : string
}.

(** [asyncio.timedelta]: [crm.py] imports [asyncio] and, from [datetime],
    only [datetime]; the module [asyncio] has no attribute [timedelta], so
    looking it up raises. Had it been found, it would map a number of days
    to a duration (in hours here). *)
Definition asyncio_timedelta : M (Z -> Z) :=
  raise (Exn AttributeError "module 'asyncio' has no attribute 'timedelta'").

Section CRMRecords.
Context `{Externals}.

(** [for i in range(min(3, limit)): ...] of [get_recent_interactions]: the
    id is built, and the dictionary is built field by field; its [date]
    reads the clock and then looks up [asyncio.timedelta]. *)
Fixpoint recent_interactions (range : list nat) (interactions : list Interaction)
    : M (list Interaction) :=
  match range with
  | [] => mret interactions
  | i :: range' =>
      t_id ← datetime_now;
      let id := "INT_" +:+ pretty i +:+ "_" +:+ strftime_now t_id in
      t_date ← datetime_now;
      timedelta ← asyncio_timedelta;
      let date := isoformat_now t_date (timedelta (Z.of_nat i * 3)) in
      recent_interactions range'
        (interactions ++
         [match i with
          | 0%nat =>
              mkInteraction id "Email" "Product inquiry"
                "Customer asked about product features and pricing" date
                "Alex Johnson"
          | 1%nat =>
              mkInteraction id "Support Ticket" "Login issue"
                "Customer reported difficulty logging in. Issue resolved by resetting account."
                date "Maria Garcia"
          | _ =>
              mkInteraction id "Call" "Follow-up call"
                "Followed up on recent purchase. Customer is satisfied with the product."
                date "James Wilson"
          end])
  end.

Definition get_recent_interactions (customer_id : string) (limit : Z)
    : M (list Interaction) :=
  try_except
    (asyncio_sleep 3;;
     interactions ← recent_interactions (seq 0 (Z.to_nat (Z.min 3 limit))) [];
     logger_info ("Retrieved " +:+ pretty (length interactions)
                  +:+ " recent interactions for customer " +:+ customer_id);;
     mret interactions)
    (fun e =>
       logger_error ("Error retrieving interactions for customer "
                     +:+ customer_id +:+ ": " +:+ exn_str e);;
       mret []).

Definition create_customer (customer_data : value) : M (option string) :=
  try_except
    (asyncio_sleep 5;;
     t ← datetime_now;
     let customer_id := "CUST_" +:+ strftime_now t in
     logger_info ("Created customer: " +:+ customer_id);;
     mret (Some customer_id))
    (fun e =>
       logger_error ("Error creating customer: " +:+ exn_str e);;
       mret None).

End CRMRecords.
End CRMRecords.

(** ** [app/main.py] *)

Module Main.

(** [HTTPException(status_code=..., detail=...)]. *)
Record HTTPException := mkHTTPException { status_code : Z; detail : string }.

(** An endpoint returns the body of its response or raises an
    [HTTPException]. *)
Definition Endpoint : Type := World -> (HTTPException + value) * World.

(** The body shared by the four endpoints:
<<
    try:
        result = <call of the agent>
        return <response built from result>
    except Exception as e:
        raise HTTPException(status_code=500, detail=f"<what>: {str(e)}")
>> *)
Definition answer {A} (call : M A) (response : A -> value) (what : string)
    : Endpoint := fun w =>
  match call w with
  | (inr result, w') => (inr (response result), w')
  | (inl e, w') => (inl (mkHTTPException 500 (what +:+ ": " +:+ exn_str e)), w')
  end.

Section Main.
Context `{Externals}.

Definition summarize_email (subject body sender date : string)
    (attachments : option (list string)) : Endpoint :=
  answer
    (CustomerServiceAgent.summarize_email subject body sender date attachments)
    (fun summary => VDict {[ "summary" := VStr summary ]})
    "Error summarizing email".

Definition categorize_ticket (title description : string)
    (customer_id priority category : option string) : Endpoint :=
  answer
    (CustomerServiceAgent.categorize_ticket title description customer_id
       priority category)
    (fun result => result)
    "Error categorizing ticket".

Definition create_crm_entry (customer_name interaction_details : string)
    (additional_info : option (gmap string value)) : Endpoint :=
  answer
    (CustomerServiceAgent.create_crm_entry customer_name interaction_details
       additional_info)
    (fun crm_entry => VDict {[ "crm_entry" := crm_entry ]})
    "Error creating CRM entry".

Definition route_query (query : string) (customer_id : option string)
    (context : option (gmap string value)) : Endpoint :=
  answer
    (CustomerServiceAgent.route_query query customer_id context)
    (fun routing => routing)
    "Error routing query".

End Main.
End Main.

(** ** Vocabulary of the further properties *)

Module Notions.

Import AgentMemory.

(** The message is of one of the three classes that [_save_memory]
    writes. *)
Definition is_role_tagged (m : Message) : bool :=
  match message_cls m with
  | OtherMessage _ => false
  | _ => true
  end.

(** The stored message has one of the three types that [_load_memory]
    reads. *)
Definition is_known_type (s : StoredMessage) : bool :=
  String.eqb (stored_type s) "human" || String.eqb (stored_type s) "ai"
  || String.eqb (stored_type s) "system".

(** The message that comes back for a stored one: its class and content,
    and no [additional_kwargs]. *)
Definition reloaded (m : Message) : Message :=
  mkMessage (message_cls m) (content m) ∅.

(** The message for a stored message of a known type. *)
Definition message_of (s : StoredMessage) : Message :=
  mkMessage
    (if String.eqb (stored_type s) "human" then HumanMessage
     else if String.eqb (stored_type s) "ai" then AIMessage
     else SystemMessage)
    (stored_content s) ∅.

(** The message carries no [additional_kwargs]. *)
Definition bare (m : Message) : Prop := additional_kwargs m = ∅.

(** The records logged at level [ERROR] between two worlds, in order. *)
Definition errors_since (w w' : World) : list log_record :=
  List.filter is_error_record (drop (length (log w)) (log w')).

(** A memory object whose conversation and customer contexts are empty. *)
Definition empty_memory : Memory := mkMemory [] ∅.

(** The computation leaves the memory file as it is. *)
Definition keeps_memory_file {A} (m : M A) : Prop :=
  ∀ w, agent_memory_json (snd (m w)) = agent_memory_json w.

(** The computation neither invokes the chat model nor calls a service. *)
Definition calls_nothing {A} (m : M A) : Prop :=
  ∀ w, trace (snd (m w)) = trace w ∧ llm_calls (snd (m w)) = llm_calls w.

(** An invocation of the chat model, among the outgoing calls. *)
Definition is_llm_call (a : action) : bool :=
  match a with
  | LLMInvoke _ => true
  | _ => false
  end.

(** The steps of the batch loop that invoke the chat model. *)
Definition llm_step (s : Spec.step) : bool :=
  match s with
  | Spec.Summarize | Spec.DetectSupport | Spec.Categorize
  | Spec.GenerateCRMEntry => true
  | _ => false
  end.




(** The number of chat-model invocations made between two worlds. *)
Definition llm_calls_since (w w' : World) : nat :=
  length (List.filter is_llm_call (Spec.actions_since w w')).

(** A filter of the ticket mock accepts a value: it is absent, empty, or
    equal to the value when case is ignored. *)
Definition accepts (wanted : option string) (actual : string) : Prop :=
  wanted = None ∨ wanted = Some EmptyString
  ∨ ∃ s, wanted = Some s ∧ PyStr.lower s = PyStr.lower actual.

(** What identifies a ticket of [search_tickets]: status, title,
    description, category, priority. *)
Definition card (t : TicketQueries.FoundTicket)
    : string * string * string * string * string :=
  (TicketQueries.ft_status t, TicketQueries.ft_title t,
   TicketQueries.ft_description t, TicketQueries.ft_category t,
   TicketQueries.ft_priority t).

(** The five tickets that [search_tickets] can return, in order. *)
Definition canned_tickets : list (string * string * string * string * string) :=
  map TicketQueries.found_ticket_fields (seq 0 5).

(** The ticket answers the search: each filter accepts its field, and the
    query occurs in the title or in the description, case ignored. *)
Definition wanted (query : string) (status category priority : option string)
    (c : string * string * string * string * string) : Prop :=
  let '(ticket_status, ticket_title, ticket_description, ticket_category,
        ticket_priority) := c in
  accepts status ticket_status
  ∧ accepts category ticket_category
  ∧ accepts priority ticket_priority
  ∧ (Spec.occurs (PyStr.lower query) (PyStr.lower ticket_title)
     ∨ Spec.occurs (PyStr.lower query) (PyStr.lower ticket_description)).

(** The same, as the loop of [search_tickets] decides it. *)
Definition passes (query : string) (status category priority : option string)
    (c : string * string * string * string * string) : bool :=
  let '(ticket_status, ticket_title, ticket_description, ticket_category,
        ticket_priority) := c in
  negb (TicketQueries.filtered_out status ticket_status)
  && negb (TicketQueries.filtered_out category ticket_category)
  && negb (TicketQueries.filtered_out priority ticket_priority)
  && negb (TicketQueries.query_misses query ticket_title ticket_description).

(** The three statuses of the tickets of [get_tickets_by_customer], in
    order. *)
Definition customer_ticket_statuses : list string :=
  map (fun i => (TicketQueries.customer_ticket_fields i).1.1.1) (seq 0 3).

(** The chat model is unreachable: every invocation raises. *)
Definition model_down `{Externals} : Prop :=
  ∀ n p, ∃ e, llm_outcome n p = inl e.

End Notions.

(** ** Further concrete externals, for running the further parts *)

Module Samples.

(** A calendar that stays on one day. *)
Definition calendar : Calendar := {| strftime_date_now := fun n => "20231015" |}.

(** The model answers every prompt with an empty JSON list. *)
Definition E_list : Externals := Demo.externals (Demo.llm_constant "[]").

(** The model answers every prompt with a no that goes on to say yes. *)
Definition E_no_but_yes : Externals :=
  Demo.externals (Demo.llm_constant " No. Yes, in a way.").

(** The statuses, and the cards, of the tickets in the answer of a mock. *)
Definition statuses_of (r : exn + list TicketQueries.CustomerTicket)
    : list string :=
  match r with
  | inr tickets => map TicketQueries.ct_status tickets
  | inl _ => []
  end.

Definition cards_of (r : exn + list TicketQueries.FoundTicket)
    : list (string * string * string * string * string) :=
  match r with
  | inr tickets => map Notions.card tickets
  | inl _ => []
  end.

End Samples.

(* ===================================================================== *)
(** * Part II: properties                                                 *)
(* ===================================================================== *)

(** ** Strings *)

Module PyStrFacts.

Import PyStr Spec.

Implicit Types s p t sub pre post : string.

Lemma app_nil_r s : s +:+ EmptyString = s.
Proof. induction s as [|c s IH]; simpl; congruence. Qed.

Lemma app_assoc s t p : (s +:+ t) +:+ p = s +:+ t +:+ p.
Proof. induction s as [|c s IH]; simpl; congruence. Qed.

Lemma length_app s t :
  String.length (s +:+ t) = (String.length s + String.length t)%nat.
Proof. induction s as [|c s IH]; simpl; congruence. Qed.

(** Two ways of cutting one string: the shorter left part is a prefix of
    the longer one. *)
Lemma app_eq_split s t p q :
  s +:+ t = p +:+ q →
  (String.length s <= String.length p)%nat →
  ∃ m, p = s +:+ m ∧ t = m +:+ q.
Proof.
  revert p. induction s as [|c s IH]; intros p Heq Hlen.
  - exists p. split; [reflexivity | exact Heq].
  - destruct p as [|c' p]; simpl in *; [lia|].
    injection Heq as -> Heq.
    destruct (IH p Heq) as (m & -> & ->); [lia|].
    exists m. split; reflexivity.
Qed.

Lemma occurs_app_r sub s t : occurs sub t → occurs sub (s +:+ t).
Proof.
  intros (pre & post & ->). exists (s +:+ pre), post.
  by rewrite app_assoc.
Qed.

Lemma occurs_cons sub c s : occurs sub s → occurs sub (String c s).
Proof. apply (occurs_app_r sub (String c EmptyString)). Qed.

Lemma startswith_spec p s : startswith p s = true ↔ ∃ t, s = p +:+ t.
Proof.
  revert s. induction p as [|a p IH]; intros s; simpl.
  - split; eauto.
  - destruct s as [|b s].
    + split; [discriminate | intros [t Ht]; discriminate].
    + destruct (Ascii.eqb_spec a b) as [->|Hne].
      * rewrite IH. split; intros [t Ht]; exists t; simpl in *; congruence.
      * split; [discriminate | intros [t Ht]; simpl in Ht; congruence].
Qed.

Lemma drop_prefix_spec p s t : drop_prefix p s = Some t ↔ s = p +:+ t.
Proof.
  revert s. induction p as [|a p IH]; intros s; simpl.
  - split; congruence.
  - destruct s as [|b s]; [split; discriminate|].
    destruct (Ascii.eqb_spec a b) as [->|Hne].
    + rewrite IH. split; simpl; congruence.
    + split; [discriminate | simpl; congruence].
Qed.

Lemma lazy_until_unfold sub s :
  lazy_until sub s =
  if startswith sub s then Some EmptyString
  else match s with
       | EmptyString => None
       | String c s' => option_map (String c) (lazy_until sub s')
       end.
Proof. destruct s; reflexivity. Qed.

Lemma find_nat_unfold sub s :
  find_nat sub s =
  if startswith sub s then Some 0%nat
  else match s with
       | EmptyString => None
       | String _ s' => option_map S (find_nat sub s')
       end.
Proof. destruct s; reflexivity. Qed.

(** A lazy group followed by a literal stops at the first occurrence of the
    literal. *)
Lemma lazy_until_Some sub s g :
  lazy_until sub s = Some g →
  ∃ post, s = g +:+ sub +:+ post
    ∧ ∀ g' post', s = g' +:+ sub +:+ post' →
        (String.length g <= String.length g')%nat.
Proof.
  revert g. induction s as [|c s IH]; intros g; rewrite lazy_until_unfold.
  - destruct (startswith sub EmptyString) eqn:Hs; [|discriminate].
    intros [= <-]. apply startswith_spec in Hs as [t Ht].
    exists t. split; [exact Ht | simpl; lia].
  - destruct (startswith sub (String c s)) eqn:Hs.
    + intros [= <-]. apply startswith_spec in Hs as [t Ht].
      exists t. split; [exact Ht | simpl; lia].
    + destruct (lazy_until sub s) as [g0|] eqn:Hl; [|discriminate].
      intros [= <-]. destruct (IH g0 eq_refl) as (post & -> & Hmin).
      exists post. split; [reflexivity|].
      intros g' post' Heq. destruct g' as [|c' g'].
      * simpl in Heq. assert (startswith sub (String c (g0 +:+ sub +:+ post)) = true)
          by (apply startswith_spec; eauto). congruence.
      * simpl in Heq. injection Heq as _ Heq. simpl.
        specialize (Hmin _ _ Heq). lia.
Qed.

Lemma lazy_until_None sub s : lazy_until sub s = None → ¬ occurs sub s.
Proof.
  induction s as [|c s IH]; rewrite lazy_until_unfold.
  - destruct (startswith sub EmptyString) eqn:Hs; [discriminate|].
    intros _ (pre & post & Heq). destruct pre; [|discriminate].
    assert (startswith sub EmptyString = true)
      by (apply startswith_spec; eauto). congruence.
  - destruct (startswith sub (String c s)) eqn:Hs; [discriminate|].
    destruct (lazy_until sub s) eqn:Hl; [discriminate|].
    intros _ (pre & post & Heq). destruct pre as [|c' pre].
    + assert (startswith sub (String c s) = true)
        by (apply startswith_spec; eauto). congruence.
    + simpl in Heq. injection Heq as _ ->. apply IH; [reflexivity|].
      by exists pre, post.
Qed.

Lemma find_nat_lazy_until sub s :
  find_nat sub s = option_map String.length (lazy_until sub s).
Proof.
  induction s as [|c s IH]; rewrite find_nat_unfold, lazy_until_unfold.
  - by destruct (startswith sub EmptyString).
  - destruct (startswith sub (String c s)); [reflexivity|].
    rewrite IH. by destruct (lazy_until sub s).
Qed.

(** [sub in s] holds exactly when [sub] occurs in [s]. *)
Lemma contains_spec sub s : contains sub s = true ↔ occurs sub s.
Proof.
  unfold contains. rewrite find_nat_lazy_until.
  destruct (lazy_until sub s) as [g|] eqn:Hl; simpl.
  - apply lazy_until_Some in Hl as (post & -> & _).
    split; [intros _; by exists g, post | reflexivity].
  - apply lazy_until_None in Hl. split; [discriminate | tauto].
Qed.

Lemma contains_false sub s : contains sub s = false ↔ ¬ occurs sub s.
Proof.
  rewrite <- contains_spec. destruct (contains sub s); split; congruence.
Qed.

End PyStrFacts.

(** ** The fenced-block search and the brace slice *)

Module SearchFacts.

Import PyStr Spec PyStrFacts.

Implicit Types s p t sub pre post opener closer : string.

Lemma re_search_group_unfold opener closer s :
  re_search_group opener closer s =
  match match_here opener closer s with
  | Some g => Some g
  | None =>
      match s with
      | EmptyString => None
      | String _ s' => re_search_group opener closer s'
      end
  end.
Proof. destruct s; reflexivity. Qed.

Lemma match_here_Some opener closer s g :
  match_here opener closer s = Some g →
  ∃ post, s = opener +:+ g +:+ closer +:+ post
    ∧ ∀ g' post', g +:+ closer +:+ post = g' +:+ closer +:+ post' →
        (String.length g <= String.length g')%nat.
Proof.
  unfold match_here. destruct (drop_prefix opener s) as [rest|] eqn:Hd; [|discriminate].
  apply drop_prefix_spec in Hd as ->. intros Hl.
  apply lazy_until_Some in Hl as (post & -> & Hmin). eauto.
Qed.

(** When the attempt at the start of [s] fails although [s] starts with the
    opener, no closer follows the opener. *)
Lemma match_here_None opener closer rest :
  match_here opener closer (opener +:+ rest) = None → ¬ occurs closer rest.
Proof.
  unfold match_here.
  destruct (drop_prefix opener (opener +:+ rest)) as [r|] eqn:Hd.
  - apply drop_prefix_spec, String.app_inj in Hd as <-. apply lazy_until_None.
  - intros _. assert (drop_prefix opener (opener +:+ rest) = Some rest)
      by by apply drop_prefix_spec. congruence.
Qed.

(** The search returns the contents of the first block: the leftmost opener,
    then the nearest closer. *)
Lemma re_search_group_Some opener closer s g :
  re_search_group opener closer s = Some g →
  ∃ pre post,
    s = pre +:+ opener +:+ g +:+ closer +:+ post
    ∧ (∀ pre' rest', s = pre' +:+ opener +:+ rest' →
         (String.length pre <= String.length pre')%nat)
    ∧ (∀ g' post', g +:+ closer +:+ post = g' +:+ closer +:+ post' →
         (String.length g <= String.length g')%nat).
Proof.
  induction s as [|c s IH]; rewrite re_search_group_unfold.
  - destruct (match_here opener closer EmptyString) as [g0|] eqn:Hm; [|discriminate].
    intros [= ->]. apply match_here_Some in Hm as (post & Heq & Hmin).
    exists EmptyString, post. split; [exact Heq|]. split; [simpl; lia | exact Hmin].
  - destruct (match_here opener closer (String c s)) as [g0|] eqn:Hm.
    + intros [= ->]. apply match_here_Some in Hm as (post & Heq & Hmin).
      exists EmptyString, post. split; [exact Heq|]. split; [simpl; lia | exact Hmin].
    + intros Hs. destruct (IH Hs) as (pre & post & -> & Hfirst & Hmin).
      exists (String c pre), post. split; [reflexivity|]. split; [|exact Hmin].
      intros pre' rest' Heq. destruct pre' as [|c' pre']; simpl in *.
      * exfalso. rewrite Heq in Hm. apply match_here_None in Hm. apply Hm.
        assert (Hsplit : opener +:+ rest'
                         = String c (pre +:+ opener +:+ g) +:+ closer +:+ post).
        { rewrite <- Heq. simpl. by rewrite !app_assoc. }
        apply app_eq_split in Hsplit as (m & _ & ->).
        -- by exists m, post.
        -- simpl. rewrite !length_app. lia.
      * injection Heq as _ Heq. specialize (Hfirst _ _ Heq). lia.
Qed.

Lemma re_search_group_None opener closer s :
  re_search_group opener closer s = None →
  ¬ ∃ pre g post, s = pre +:+ opener +:+ g +:+ closer +:+ post.
Proof.
  induction s as [|c s IH]; rewrite re_search_group_unfold.
  - destruct (match_here opener closer EmptyString) eqn:Hm; [discriminate|].
    intros _ (pre & g & post & Heq). destruct pre; [|discriminate].
    simpl in Heq. rewrite Heq in Hm. apply match_here_None in Hm.
    apply Hm. by exists g, post.
  - destruct (match_here opener closer (String c s)) eqn:Hm; [discriminate|].
    intros Hs (pre & g & post & Heq). destruct pre as [|c' pre]; simpl in Heq.
    + rewrite Heq in Hm. apply match_here_None in Hm.
      apply Hm. by exists g, post.
    + injection Heq as _ ->. apply (IH Hs). by exists pre, g, post.
Qed.

(** [re.search] finds a block exactly when the text has one, and then it is
    the first. *)
Lemma re_search_json_fence content :
  match re_search_group json_fence_open json_fence_close content with
  | Some block => first_json_fence content block
  | None => ¬ has_json_fence content
  end.
Proof.
  destruct (re_search_group _ _ content) as [block|] eqn:Hs.
  - apply re_search_group_Some in Hs as (pre & post & Heq & Hfirst & Hmin).
    by exists pre, post.
  - by apply re_search_group_None in Hs.
Qed.

(** A first block is unique. *)
Lemma first_json_fence_unique content block block' :
  first_json_fence content block → first_json_fence content block' →
  block = block'.
Proof.
  intros (pre & post & Heq & Hfirst & Hmin) (pre' & post' & Heq' & Hfirst' & Hmin').
  assert (Hlen : String.length pre = String.length pre').
  { apply Nat.le_antisymm; [eapply Hfirst | eapply Hfirst']; eauto. }
  assert (Hpre : pre = pre' ∧ json_fence_open +:+ block +:+ json_fence_close +:+ post
                 = json_fence_open +:+ block' +:+ json_fence_close +:+ post').
  { rewrite Heq in Heq'. apply app_eq_split in Heq' as (m & -> & Hm); [|lia].
    rewrite length_app in Hlen. destruct m; [|simpl in Hlen; lia].
    by rewrite app_nil_r. }
  destruct Hpre as [-> Hrest]. apply String.app_inj in Hrest.
  assert (Hl : String.length block = String.length block').
  { apply Nat.le_antisymm; [eapply Hmin | eapply Hmin']; eauto. }
  apply app_eq_split in Hrest as (m & -> & Hm); [|lia].
  rewrite length_app in Hl. destruct m; [|simpl in Hl; lia].
  by rewrite app_nil_r.
Qed.

End SearchFacts.

Module SliceFacts.

Import PyStr Spec PyStrFacts.

Implicit Types s p t sub pre post mid : string.

Lemma substring_n_0 n s : String.substring n 0 s = EmptyString.
Proof.
  revert n. induction s as [|c s IH]; intros [|n]; simpl; auto.
Qed.

Lemma substring_0_app mid post :
  String.substring 0 (String.length mid) (mid +:+ post) = mid.
Proof.
  induction mid as [|c mid IH]; simpl.
  - by destruct post.
  - by rewrite IH.
Qed.

Lemma substring_skip pre s m :
  String.substring (String.length pre) m (pre +:+ s) = String.substring 0 m s.
Proof. induction pre as [|c pre IH]; simpl; auto. Qed.

(** Slicing out the middle of a string by the positions of its ends. *)
Lemma slice_mid pre mid post :
  slice (pre +:+ mid +:+ post) (Z.of_nat (String.length pre))
    (Z.of_nat (String.length pre + String.length mid)) = mid.
Proof.
  unfold slice, slice_bound. rewrite !length_app.
  destruct (Z.ltb_spec (Z.of_nat (String.length pre)) 0); [lia|].
  destruct (Z.ltb_spec (Z.of_nat (String.length pre + String.length mid)) 0); [lia|].
  rewrite !Z.min_l by lia.
  replace (Z.to_nat (Z.of_nat (String.length pre + String.length mid)
                     - Z.of_nat (String.length pre)))
    with (String.length mid) by lia.
  rewrite Nat2Z.id, substring_skip. apply substring_0_app.
Qed.

(** A slice whose end is not after its start is empty. *)
Lemma slice_empty s i j : 0 <= i → 0 <= j → j <= i → slice s i j = EmptyString.
Proof.
  intros Hi Hj Hji. unfold slice, slice_bound.
  destruct (Z.ltb_spec i 0); [lia|]. destruct (Z.ltb_spec j 0); [lia|].
  replace (Z.to_nat (Z.min j (Z.of_nat (String.length s))
                     - Z.min i (Z.of_nat (String.length s)))) with 0%nat by lia.
  apply substring_n_0.
Qed.

Lemma find_nat_Some sub s i :
  find_nat sub s = Some i →
  ∃ pre post, s = pre +:+ sub +:+ post ∧ String.length pre = i
    ∧ ∀ pre' post', s = pre' +:+ sub +:+ post' →
        (i <= String.length pre')%nat.
Proof.
  rewrite find_nat_lazy_until.
  destruct (lazy_until sub s) as [g|] eqn:Hl; [|discriminate].
  intros [= <-]. apply lazy_until_Some in Hl as (post & -> & Hmin).
  by exists g, post.
Qed.

Lemma find_nat_None sub s : find_nat sub s = None → ¬ occurs sub s.
Proof.
  rewrite find_nat_lazy_until.
  destruct (lazy_until sub s) eqn:Hl; [discriminate|].
  intros _. by apply lazy_until_None.
Qed.

(** [rfind] of a single character: the position after which the character
    does not occur any more. *)
Lemma rfind_nat_char a s :
  match rfind_nat (String a EmptyString) s with
  | Some j => ∃ pre post, s = pre +:+ String a post ∧ String.length pre = j
                ∧ ¬ occurs (String a EmptyString) post
  | None => ¬ occurs (String a EmptyString) s
  end.
Proof.
  induction s as [|c s IH]; simpl.
  - intros (pre & post & Heq). by destruct pre.
  - destruct (rfind_nat (String a EmptyString) s) as [j|].
    + destruct IH as (pre & post & -> & <- & Hno).
      by exists (String c pre), post.
    + destruct (Ascii.eqb_spec a c) as [->|Hne].
      * by exists EmptyString, s.
      * intros (pre & post & Heq). destruct pre as [|c' pre]; simpl in Heq.
        -- congruence.
        -- injection Heq as _ ->. apply IH. by exists pre, post.
Qed.

(** The slice taken by the third stage is the span from the first opening
    brace to the last closing brace when there is one, and is empty when
    the only closing braces come before the first opening brace. *)
Lemma brace_slice content :
  match find_nat "{" content, rfind_nat "}" content with
  | Some i, Some j =>
      if (i <? j)%nat
      then brace_span content (slice content (Z.of_nat i) (Z.of_nat j + 1))
      else ¬ has_braces content
           ∧ slice content (Z.of_nat i) (Z.of_nat j + 1) = EmptyString
  | _, _ => ¬ has_braces content
  end.
Proof.
  destruct (find_nat "{" content) as [i|] eqn:Hf.
  2:{ apply find_nat_None in Hf.
      assert (¬ has_braces content).
      { intros (pre & mid & post & ->). apply Hf. by eexists _, _. }
      by destruct (rfind_nat "}" content). }
  pose proof (rfind_nat_char "}" content) as Hr.
  destruct (rfind_nat "}" content) as [j|].
  2:{ intros (pre & mid & post & ->). apply Hr.
      exists (pre +:+ "{" +:+ mid), post. by rewrite !app_assoc. }
  apply find_nat_Some in Hf as (pre & rest & Heq & Hi & Hmin).
  destruct Hr as (pre2 & post & Heq2 & Hj & Hno).
  assert (Hij : i ≠ j).
  { intros <-. pose proof Heq as Heq'. rewrite Heq2 in Heq'.
    apply app_eq_split in Heq' as (m & Hm & Hm'); [|lia].
    destruct m as [|c m]; [discriminate|].
    rewrite Hm, length_app in Hi. simpl in Hi. lia. }
  destruct (Nat.ltb_spec i j) as [Hlt|Hge].
  - (* the last closing brace is after the first opening brace *)
    pose proof Heq as Heq'. rewrite Heq2 in Heq'. symmetry in Heq'.
    apply app_eq_split in Heq' as (m & -> & Hm); [|lia].
    rewrite length_app in Hj. destruct m as [|c m]; [simpl in Hj; lia|].
    simpl in Hm. injection Hm as <- ->.
    exists pre, m, post. split; [|split; [|split]].
    + rewrite Heq2. by rewrite !app_assoc.
    + intros (p1 & p2 & ->).
      specialize (Hmin p1 (p2 +:+ "{" +:+ m +:+ "}" +:+ post)).
      rewrite Heq2, !app_assoc, !length_app in *. simpl in *.
      specialize (Hmin eq_refl). lia.
    + exact Hno.
    + rewrite Heq2, <- Hi, <- Hj, app_assoc.
      replace (Z.of_nat (String.length pre + String.length (String "{" m)) + 1)
        with (Z.of_nat (String.length pre
                        + String.length ("{" +:+ m +:+ "}"))).
      * change (String "{" m +:+ String "}" post)
          with (("{" +:+ m) +:+ "}" +:+ post).
        rewrite <- (app_assoc ("{" +:+ m) "}" post).
        rewrite (app_assoc "{" m "}"). apply slice_mid.
      * simpl. rewrite !length_app. simpl. lia.
  - split.
    + intros (p & mid & q & Hc).
      assert (Hip : (i <= String.length p)%nat) by (eapply Hmin; exact Hc).
      assert (Hc2 : pre2 +:+ "}" +:+ post = (p +:+ "{" +:+ mid) +:+ "}" +:+ q).
      { rewrite !app_assoc, <- Hc, Heq2. reflexivity. }
      apply app_eq_split in Hc2 as (m & Hm1 & Hm2).
      2:{ rewrite !length_app. simpl. lia. }
      destruct m as [|c m].
      * rewrite app_nil_r in Hm1. subst pre2.
        rewrite !length_app in Hj. simpl in Hj. lia.
      * simpl in Hm2. injection Hm2 as <- ->. apply Hno. by exists m, q.
    + apply slice_empty; lia.
Qed.


(** The span from the first opening brace to the last closing brace is
    unique. *)
Lemma brace_span_unique content span span' :
  brace_span content span → brace_span content span' → span = span'.
Proof.
  intros (pre & mid & post & Heq & Hpre & Hpost & ->)
         (pre' & mid' & post' & Heq' & Hpre' & Hpost' & ->).
  assert (Hcut : ∀ p m q p' m' q',
            p +:+ "{" +:+ m +:+ "}" +:+ q = p' +:+ "{" +:+ m' +:+ "}" +:+ q' →
            ¬ occurs "{" p → ¬ occurs "}" q' →
            (String.length p <= String.length p')%nat
            ∧ (String.length q' <= String.length q)%nat).
  { clear. intros p m q p' m' q' Heq Hp Hq'. split.
    - destruct (Nat.le_gt_cases (String.length p) (String.length p'))
        as [Hle|Hgt]; [exact Hle|].
      exfalso. symmetry in Heq.
      apply app_eq_split in Heq as (k & Hk & Hk'); [|lia].
      destruct k as [|c k]; [rewrite app_nil_r in Hk; subst p; lia|].
      simpl in Hk'. injection Hk' as <- _. apply Hp.
      exists p', k. exact Hk.
    - destruct (Nat.le_gt_cases (String.length q') (String.length q))
        as [Hle|Hgt]; [exact Hle|].
      exfalso.
      assert (Heq2 : (p' +:+ "{" +:+ m') +:+ "}" +:+ q'
                     = (p +:+ "{" +:+ m) +:+ "}" +:+ q)
        by (by rewrite !app_assoc).
      assert (Hlen : String.length ((p' +:+ "{" +:+ m') +:+ "}" +:+ q')
                     = String.length ((p +:+ "{" +:+ m) +:+ "}" +:+ q))
        by (by rewrite Heq2).
      rewrite (length_app (p' +:+ "{" +:+ m')),
        (length_app (p +:+ "{" +:+ m)) in Hlen. simpl in Hlen.
      apply app_eq_split in Heq2 as (k & Hk1 & Hk2); [|simpl; lia].
      destruct k as [|c k].
      { simpl in Hk2. injection Hk2 as Hq. subst q'. lia. }
      simpl in Hk2. injection Hk2 as <- Hk2. apply Hq'.
      exists k, q. exact Hk2. }
  rewrite Heq in Heq'.
  destruct (Hcut _ _ _ _ _ _ Heq' Hpre Hpost') as [Hp1 Hq1].
  destruct (Hcut _ _ _ _ _ _ (eq_sym Heq') Hpre' Hpost) as [Hp2 Hq2].
  apply app_eq_split in Heq' as (k & Hk & Hrest); [|lia].
  destruct k as [|c k].
  2:{ rewrite Hk, length_app in Hp2. simpl in Hp2. lia. }
  simpl in Hrest. injection Hrest as Hrest.
  pose proof (f_equal String.length Hrest) as Hlen.
  rewrite !length_app in Hlen. simpl in Hlen.
  apply app_eq_split in Hrest as (k' & Hk' & _); [|lia].
  destruct k' as [|c' k']; [by rewrite Hk', app_nil_r|].
  rewrite Hk', length_app in Hlen. simpl in Hlen. lia.
Qed.

End SliceFacts.

(** ** The monad *)

Module MonadFacts.

Lemma bind_run {A B} (m : M A) (f : A → M B) w :
  (m ≫= f) w
  = match m w with
    | (inl e, w') => (inl e, w')
    | (inr a, w') => f a w'
    end.
Proof. reflexivity. Qed.

Lemma bind_inr {A B} (m : M A) (f : A → M B) w a w' :
  m w = (inr a, w') → (m ≫= f) w = f a w'.
Proof. intros Hm. by rewrite bind_run, Hm. Qed.

Lemma bind_inl {A B} (m : M A) (f : A → M B) w e w' :
  m w = (inl e, w') → (m ≫= f) w = (inl e, w').
Proof. intros Hm. by rewrite bind_run, Hm. Qed.

Lemma try_except_run {A} (body : M A) (handler : exn → M A) w :
  try_except body handler w
  = match body w with
    | (inl e, w') => handler e w'
    | (inr a, w') => (inr a, w')
    end.
Proof. reflexivity. Qed.

End MonadFacts.

(** ** The tools: extraction of JSON and the handling of failures *)

Module ToolFacts.
Section ToolFacts.
Context `{Externals}.

Import PyStr Spec PyStrFacts SearchFacts SliceFacts.

(** The extraction neither logs nor calls out, and its outcome does not
    depend on the world. *)
Lemma extract_json_pure content w w0 :
  extract_json content w = (fst (extract_json content w0), w).
Proof.
  unfold extract_json, try_except_class, loads.
  destruct (json_loads content) as [e|v]; [|reflexivity]. cbn [raise].
  destruct (is_JSONDecodeError e); [|reflexivity].
  destruct (re_search_group json_fence_open json_fence_close content) as [block|].
  - destruct (json_loads block); reflexivity.
  - cbv zeta.
    destruct (negb (find content "{" =? -1) && negb (rfind content "}" =? -1)).
    + destruct (json_loads (slice content _ _)); reflexivity.
    + reflexivity.
Qed.

(** When [json.loads] breaks on the whole text, its exception leaves the
    extraction at once. *)
Lemma extract_json_broken content e w :
  json_loads content = inl e → is_JSONDecodeError e = false →
  extract_json content w = (inl e, w).
Proof.
  intros He Hcls. unfold extract_json, try_except_class, loads.
  rewrite He. cbn [raise]. by rewrite Hcls.
Qed.

(** The code follows the three stages of the specification. *)
Lemma extract_json_extracts content w :
  (∀ v, json_loads EmptyString ≠ inr v) →
  ∃ o, extracts content o
    ∧ match o with
      | Some v => fst (extract_json content w) = inr v
      | None => ∃ e, fst (extract_json content w) = inl e
      end.
Proof.
  intros Hempty.
  destruct (json_loads content) as [e0|v] eqn:Hwhole.
  2:{ exists (Some v). split.
      - apply extracts_whole. unfold parsed. by rewrite Hwhole.
      - unfold extract_json, try_except_class, loads. by rewrite Hwhole. }
  destruct (is_JSONDecodeError e0) eqn:Hcls.
  2:{ exists None. split; [apply extracts_broken; by exists e0|].
      exists e0. by rewrite (extract_json_broken content e0 w Hwhole Hcls). }
  assert (Hnone : rejected content) by (by exists e0).
  unfold extract_json, try_except_class, loads. rewrite Hwhole.
  cbn [raise]. rewrite Hcls.
  pose proof (re_search_json_fence content) as Hfence.
  destruct (re_search_group json_fence_open json_fence_close content) as [block|].
  - exists (parsed block). split; [by apply extracts_fence|].
    unfold parsed. destruct (json_loads block); [eexists|]; reflexivity.
  - pose proof (brace_slice content) as Hbraces. unfold find, rfind.
    destruct (find_nat "{" content) as [i|].
    2:{ exists None. split; [by apply extracts_nothing | eexists; reflexivity]. }
    destruct (rfind_nat "}" content) as [j|].
    2:{ exists None. split; [by apply extracts_nothing|].
        rewrite andb_false_r. eexists; reflexivity. }
    replace (negb (Z.of_nat i =? -1) && negb (Z.of_nat j =? -1)) with true.
    2:{ symmetry. apply andb_true_iff.
        split; apply negb_true_iff, Z.eqb_neq; lia. }
    destruct (i <? j)%nat.
    + exists (parsed (slice content (Z.of_nat i) (Z.of_nat j + 1))).
      split; [by apply extracts_braces|].
      unfold parsed.
      destruct (json_loads (slice content (Z.of_nat i) (Z.of_nat j + 1)));
        [eexists|]; reflexivity.
    + destruct Hbraces as [Hno ->]. exists None.
      split; [by apply extracts_nothing|].
      destruct (json_loads EmptyString) as [e'|v] eqn:He.
      * eexists; reflexivity.
      * by destruct (Hempty v).
Qed.

(** The stages leave no choice: what is extracted from a text is
    determined. *)
Lemma extracts_functional content o o' :
  extracts content o → extracts content o' → o = o'.
Proof.
  assert (Hfence : ∀ block, first_json_fence content block →
                            has_json_fence content).
  { intros block (pre & post & Heq & _). by exists pre, block, post. }
  assert (Hbraces : ∀ span, brace_span content span → has_braces content).
  { intros span (pre & mid & post & Heq & _). by exists pre, mid, post. }
  assert (Hwhole : ∀ v, parsed content = Some v → rejected content → False).
  { unfold parsed. intros v Hv (e & He & _). rewrite He in Hv. discriminate. }
  assert (Hwhole' : ∀ v, parsed content = Some v → breaks_on content → False).
  { unfold parsed. intros v Hv (e & He & _). rewrite He in Hv. discriminate. }
  assert (Hboth : rejected content → breaks_on content → False).
  { intros (e & He & Hcls) (e' & He' & Hcls'). congruence. }
  intros [v Hv|block Hn Hb|span Hn Hf Hs|Hn Hf Hs|Hn]
         [v' Hv'|block' Hn' Hb'|span' Hn' Hf' Hs'|Hn' Hf' Hs'|Hn'];
    try reflexivity;
    try congruence;
    try (exfalso; by eauto).
  - by rewrite (first_json_fence_unique content block block').
  - by rewrite (brace_span_unique content span span').
Qed.

(** The shape shared by [_run_categorization], [_run_routing] and
    [CRMEntryGenerator._run]: invoke the model, extract, and fall back on
    either failure. *)
Lemma invoke_and_extract (p : prompt) (done : string)
    (parse_error : exn → string) (parse_failure : string → value)
    (error_msg : exn → string) (failure : exn → value) w :
  let w1 := mkWorld (S (llm_calls w)) (clock w) (log w)
              (trace w ++ [LLMInvoke p]) (agent_memory_json w) in
  let logged lvl msg := mkWorld (llm_calls w1) (clock w1)
              (log w ++ [LogRecord lvl msg]) (trace w1) (agent_memory_json w) in
  try_except
    (content ← llm_invoke p;
     try_except
       (result ← extract_json content; logger_info done;; mret result)
       (fun json_error =>
          logger_error (parse_error json_error);;
          mret (parse_failure content)))
    (fun e => logger_error (error_msg e);; mret (failure e)) w
  = match llm_outcome (llm_calls w) p with
    | inl e => (inr (failure e), logged ERROR (error_msg e))
    | inr content =>
        match fst (extract_json content w) with
        | inr result => (inr result, logged INFO done)
        | inl json_error =>
            (inr (parse_failure content), logged ERROR (parse_error json_error))
        end
    end.
Proof.
  unfold try_except at 1. unfold mbind at 1, M_bind at 1. unfold llm_invoke at 1.
  destruct (llm_outcome (llm_calls w) p) as [e|content]; [reflexivity|].
  unfold try_except, mbind, M_bind.
  rewrite (extract_json_pure content _ w).
  destruct (fst (extract_json content w)); reflexivity.
Qed.

End ToolFacts.
End ToolFacts.

Module ToolRuns.
Section ToolRuns.
Context `{Externals}.

Import Spec ToolFacts.

(** The world after one invocation of the model and one log record. *)
Local Abbreviation invoked w p lvl msg :=
  (mkWorld (S (llm_calls w)) (clock w) (log w ++ [LogRecord lvl msg])
     (trace w ++ [LLMInvoke p]) (agent_memory_json w)).

Lemma summarizer_run subject body sender date attachments w :
  let p := EmailSummarizer.formatted_prompt subject body sender date attachments in
  EmailSummarizer._run subject body sender date attachments w
  = match llm_outcome (llm_calls w) p with
    | inl e =>
        (inr ("Failed to summarize email: Error summarizing email: " +:+ exn_str e),
         invoked w p ERROR ("Error summarizing email: " +:+ exn_str e))
    | inr summary =>
        (inr summary,
         invoked w p INFO ("Successfully summarized email from " +:+ sender))
    end.
Proof.
  unfold EmailSummarizer._run, try_except, mbind, M_bind, llm_invoke. simpl.
  by destruct (llm_outcome _ _).
Qed.

Lemma categorization_run title description customer_id priority category w :
  let p := TicketRouter.categorization_formatted_prompt title description
             customer_id priority category in
  TicketRouter._run_categorization title description customer_id priority
    category w
  = match llm_outcome (llm_calls w) p with
    | inl e =>
        (inr (TicketRouter.categorization_failure title priority category
                ("Error categorizing ticket: " +:+ exn_str e)),
         invoked w p ERROR ("Error categorizing ticket: " +:+ exn_str e))
    | inr content =>
        match fst (extract_json content w) with
        | inr result =>
            (inr result,
             invoked w p INFO ("Successfully categorized ticket: " +:+ title))
        | inl json_error =>
            (inr (TicketRouter.categorization_parse_failure title priority
                    category content),
             invoked w p ERROR ("Error parsing ticket categorization JSON: "
                                +:+ exn_str json_error))
        end
    end.
Proof.
  exact (invoke_and_extract _ _
           (fun json_error => "Error parsing ticket categorization JSON: "
                              +:+ exn_str json_error)
           (TicketRouter.categorization_parse_failure title priority category)
           (fun e => "Error categorizing ticket: " +:+ exn_str e)
           (fun e => TicketRouter.categorization_failure title priority category
                       ("Error categorizing ticket: " +:+ exn_str e)) w).
Qed.

Lemma routing_run query customer_id context w :
  let p := TicketRouter.routing_formatted_prompt query customer_id context in
  TicketRouter._run_routing query customer_id context w
  = match llm_outcome (llm_calls w) p with
    | inl e =>
        (inr (TicketRouter.routing_failure ("Error routing query: " +:+ exn_str e)),
         invoked w p ERROR ("Error routing query: " +:+ exn_str e))
    | inr content =>
        match fst (extract_json content w) with
        | inr result =>
            (inr result, invoked w p INFO "Successfully routed customer query")
        | inl json_error =>
            (inr (TicketRouter.routing_parse_failure content),
             invoked w p ERROR ("Error parsing query routing JSON: "
                                +:+ exn_str json_error))
        end
    end.
Proof.
  exact (invoke_and_extract _ _
           (fun json_error => "Error parsing query routing JSON: "
                              +:+ exn_str json_error)
           TicketRouter.routing_parse_failure
           (fun e => "Error routing query: " +:+ exn_str e)
           (fun e => TicketRouter.routing_failure
                       ("Error routing query: " +:+ exn_str e)) w).
Qed.

Lemma crm_entry_run customer_name interaction_details additional_info w :
  let p := CRMEntryGenerator.formatted_prompt customer_name interaction_details
             additional_info in
  CRMEntryGenerator._run customer_name interaction_details additional_info w
  = match llm_outcome (llm_calls w) p with
    | inl e =>
        (inr (CRMEntryGenerator.failure_entry customer_name
                ("Error generating CRM entry: " +:+ exn_str e)),
         invoked w p ERROR ("Error generating CRM entry: " +:+ exn_str e))
    | inr content =>
        match fst (extract_json content w) with
        | inr result =>
            (inr result,
             invoked w p INFO ("Successfully generated CRM entry for "
                               +:+ customer_name))
        | inl json_error =>
            (inr (CRMEntryGenerator.parse_failure_entry customer_name content),
             invoked w p ERROR ("Error parsing CRM entry JSON: "
                                +:+ exn_str json_error))
        end
    end.
Proof.
  exact (invoke_and_extract _ _
           (fun json_error => "Error parsing CRM entry JSON: "
                              +:+ exn_str json_error)
           (CRMEntryGenerator.parse_failure_entry customer_name)
           (fun e => "Error generating CRM entry: " +:+ exn_str e)
           (fun e => CRMEntryGenerator.failure_entry customer_name
                       ("Error generating CRM entry: " +:+ exn_str e)) w).
Qed.

Lemma is_support_request_run subject message w :
  let p := TicketRouter.support_detection_formatted_prompt subject message in
  ∃ msg lvl,
    TicketRouter.is_support_request subject message w
    = (inr match llm_outcome (llm_calls w) p with
           | inl _ => true
           | inr response =>
               let content := PyStr.lower (PyStr.strip response) in
               PyStr.contains "yes" content
               && negb (PyStr.contains "no" (PyStr.slice_to content 3))
           end,
       invoked w p lvl msg)
    ∧ (lvl = ERROR ↔ ∃ e, llm_outcome (llm_calls w) p = inl e).
Proof.
  unfold TicketRouter.is_support_request, try_except, mbind, M_bind, llm_invoke.
  simpl. destruct (llm_outcome _ _) as [e|response]; simpl.
  - eexists _, ERROR. split; [reflexivity|]. split; eauto.
  - eexists _, INFO. split; [reflexivity|].
    split; [discriminate | intros [e He]; discriminate].
Qed.

(** The fallback payloads carry an [error] key. *)
Lemma failure_payloads_have_error title priority category raw msg customer_name :
  has_key "error" (TicketRouter.categorization_parse_failure title priority category raw)
  ∧ has_key "error" (TicketRouter.categorization_failure title priority category msg)
  ∧ has_key "error" (TicketRouter.routing_parse_failure raw)
  ∧ has_key "error" (TicketRouter.routing_failure msg)
  ∧ has_key "error" (CRMEntryGenerator.parse_failure_entry customer_name raw)
  ∧ has_key "error" (CRMEntryGenerator.failure_entry customer_name msg).
Proof.
  repeat split; (eexists; split; [reflexivity|]); vm_compute; eauto.
Qed.

End ToolRuns.
End ToolRuns.

(** ** Claims about the tools *)

Module ToolClaims.
Section ToolClaims.
Context `{Externals}.

Import Spec ToolFacts ToolRuns.

(** C1, as amended. For every response text, the JSON extraction of
    ticket categorization, query routing and CRM entry generation goes
    through the stages of [extracts] in order: the whole text if it parses;
    otherwise, if [json.loads] rejected the whole text with a
    [JSONDecodeError], the contents of the first fenced [json] block if
    there is one, and otherwise the substring from the first opening brace
    to the last closing brace if there is one. Each function returns what
    was extracted, and when nothing was, which includes the case that
    [json.loads] raised another exception on the whole text, it returns its
    fallback payload, which carries an [error] key; no exception escapes.
    ([json.loads] does not parse the empty text.) *)
Theorem json_extraction_stages content :
  (∀ v, json_loads EmptyString ≠ inr v) →
  ∃ o, extracts content o
    ∧ (∀ title description customer_id priority category w,
         llm_outcome (llm_calls w)
           (TicketRouter.categorization_formatted_prompt title description
              customer_id priority category) = inr content →
         let fallback := TicketRouter.categorization_parse_failure title
                           priority category content in
         fst (TicketRouter._run_categorization title description customer_id
                priority category w) = inr (default fallback o)
         ∧ has_key "error" fallback)
    ∧ (∀ query customer_id context w,
         llm_outcome (llm_calls w)
           (TicketRouter.routing_formatted_prompt query customer_id context)
         = inr content →
         let fallback := TicketRouter.routing_parse_failure content in
         fst (TicketRouter._run_routing query customer_id context w)
         = inr (default fallback o)
         ∧ has_key "error" fallback)
    ∧ (∀ customer_name interaction_details additional_info w,
         llm_outcome (llm_calls w)
           (CRMEntryGenerator.formatted_prompt customer_name
              interaction_details additional_info) = inr content →
         let fallback := CRMEntryGenerator.parse_failure_entry customer_name
                           content in
         fst (CRMEntryGenerator._run customer_name interaction_details
                additional_info w) = inr (default fallback o)
         ∧ has_key "error" fallback).
Proof.
  intros Hempty.
  destruct (extract_json_extracts content (mkWorld 0 0 [] [] None) Hempty)
    as (o & Hstages & Hrun).
  exists o. split; [exact Hstages|].
  assert (Hpure : ∀ w, fst (extract_json content w)
                       = fst (extract_json content (mkWorld 0 0 [] [] None))).
  { intros w. by rewrite (extract_json_pure content w (mkWorld 0 0 [] [] None)). }
  split; [|split].
  - intros title description customer_id priority category w Hllm fallback.
    split; [|apply (failure_payloads_have_error title priority category content
                      EmptyString EmptyString)].
    rewrite categorization_run. cbv zeta. rewrite Hllm, Hpure.
    destruct o as [v|]; [by rewrite Hrun | destruct Hrun as [e ->]; reflexivity].
  - intros query customer_id context w Hllm fallback.
    split; [|apply (failure_payloads_have_error EmptyString None None content
                      EmptyString EmptyString)].
    rewrite routing_run. cbv zeta. rewrite Hllm, Hpure.
    destruct o as [v|]; [by rewrite Hrun | destruct Hrun as [e ->]; reflexivity].
  - intros customer_name interaction_details additional_info w Hllm fallback.
    split; [|apply (failure_payloads_have_error EmptyString None None content
                      EmptyString customer_name)].
    rewrite crm_entry_run. cbv zeta. rewrite Hllm, Hpure.
    destruct o as [v|]; [by rewrite Hrun | destruct Hrun as [e ->]; reflexivity].
Qed.

(** C3, as amended. At the boundaries of the tools that return text or
    JSON the error policy is: catch the exception, log it at level [ERROR]
    and return an error payload, never raising. Whatever the chat model and
    the parser do, [summarize_email] returns a string, which is the
    [Failed to summarize email] message when the invocation raised, and
    [_run_categorization], [_run_routing] and the CRM entry generator return
    an object, which is a dictionary with an [error] key when the invocation
    raised or nothing could be extracted from the response. Support-request
    detection also catches and logs, but what it returns then is [True] and
    no error payload. *)
Theorem error_policy w :
  (∀ subject body sender date attachments,
     ∃ summary w',
       CustomerServiceAgent.summarize_email subject body sender date attachments w
       = (inr summary, w')
       ∧ ∀ e,
           llm_outcome (llm_calls w)
             (EmailSummarizer.formatted_prompt subject body sender date
                (Some (default [] attachments))) = inl e →
           summary = "Failed to summarize email: Error summarizing email: "
                     +:+ exn_str e
           ∧ logged_error w w')
  ∧ (∀ title description customer_id priority category,
       ∃ result w',
         TicketRouter._run_categorization title description customer_id
           priority category w = (inr result, w')
         ∧ match llm_outcome (llm_calls w)
                   (TicketRouter.categorization_formatted_prompt title
                      description customer_id priority category) with
           | inl _ => has_key "error" result ∧ logged_error w w'
           | inr content =>
               ∀ e, fst (extract_json content w) = inl e →
                    has_key "error" result ∧ logged_error w w'
           end)
  ∧ (∀ query customer_id context,
       ∃ result w',
         TicketRouter._run_routing query customer_id context w = (inr result, w')
         ∧ match llm_outcome (llm_calls w)
                   (TicketRouter.routing_formatted_prompt query customer_id
                      context) with
           | inl _ => has_key "error" result ∧ logged_error w w'
           | inr content =>
               ∀ e, fst (extract_json content w) = inl e →
                    has_key "error" result ∧ logged_error w w'
           end)
  ∧ (∀ customer_name interaction_details additional_info,
       ∃ result w',
         CRMEntryGenerator._run customer_name interaction_details
           additional_info w = (inr result, w')
         ∧ match llm_outcome (llm_calls w)
                   (CRMEntryGenerator.formatted_prompt customer_name
                      interaction_details additional_info) with
           | inl _ => has_key "error" result ∧ logged_error w w'
           | inr content =>
               ∀ e, fst (extract_json content w) = inl e →
                    has_key "error" result ∧ logged_error w w'
           end)
  ∧ (∀ subject message,
       ∃ (is_support : bool) w',
         TicketRouter.is_support_request subject message w
         = (inr is_support, w')
         ∧ ∀ e,
             llm_outcome (llm_calls w)
               (TicketRouter.support_detection_formatted_prompt subject message)
             = inl e →
             is_support = true ∧ logged_error w w').
Proof.
  assert (Hlogged : ∀ w0 p msg,
            logged_error w0
              (mkWorld (S (llm_calls w0)) (clock w0)
                 (log w0 ++ [LogRecord ERROR msg]) (trace w0 ++ [LLMInvoke p])
                 (agent_memory_json w0))).
  { intros w0 p msg. exists msg. simpl.
    rewrite drop_app_length. apply list_elem_of_here. }
  split; [|split; [|split; [|split]]].
  - intros subject body sender date attachments.
    unfold CustomerServiceAgent.summarize_email, EmailSummarizer.summarize_email,
      mbind, M_bind, logger_info, logger. simpl.
    rewrite summarizer_run. simpl.
    destruct (llm_outcome _ _) as [e|summary]; simpl.
    + eexists _, _. split; [reflexivity|]. intros e' [= <-].
      split; [reflexivity|].
      exists ("Error summarizing email: " +:+ exn_str e). cbn [log].
      rewrite <- !List.app_assoc, drop_app_length.
      apply list_elem_of_further, list_elem_of_here.
    + eexists _, _. split; [reflexivity|]. intros e'. discriminate.
  - intros title description customer_id priority category.
    rewrite categorization_run. cbv zeta.
    destruct (llm_outcome _ _) as [e|content].
    + eexists _, _. split; [reflexivity|].
      split; [apply (failure_payloads_have_error title priority category
                       EmptyString _ EmptyString) | apply Hlogged].
    + destruct (fst (extract_json content w)) as [e|result].
      * eexists _, _. split; [reflexivity|]. intros _ _.
        split; [apply (failure_payloads_have_error title priority category
                         content EmptyString EmptyString) | apply Hlogged].
      * eexists _, _. split; [reflexivity|]. intros e. discriminate.
  - intros query customer_id context.
    rewrite routing_run. cbv zeta.
    destruct (llm_outcome _ _) as [e|content].
    + eexists _, _. split; [reflexivity|].
      split; [apply (failure_payloads_have_error EmptyString None None
                       EmptyString _ EmptyString) | apply Hlogged].
    + destruct (fst (extract_json content w)) as [e|result].
      * eexists _, _. split; [reflexivity|]. intros _ _.
        split; [apply (failure_payloads_have_error EmptyString None None
                         content EmptyString EmptyString) | apply Hlogged].
      * eexists _, _. split; [reflexivity|]. intros e. discriminate.
  - intros customer_name interaction_details additional_info.
    rewrite crm_entry_run. cbv zeta.
    destruct (llm_outcome _ _) as [e|content].
    + eexists _, _. split; [reflexivity|].
      split; [apply (failure_payloads_have_error EmptyString None None
                       EmptyString _ customer_name) | apply Hlogged].
    + destruct (fst (extract_json content w)) as [e|result].
      * eexists _, _. split; [reflexivity|]. intros _ _.
        split; [apply (failure_payloads_have_error EmptyString None None
                         content EmptyString customer_name) | apply Hlogged].
      * eexists _, _. split; [reflexivity|]. intros e. discriminate.
  - intros subject message.
    destruct (is_support_request_run subject message w)
      as (msg & lvl & -> & Hlvl).
    eexists _, _. split; [reflexivity|]. intros e He.
    cbv zeta in Hlvl. rewrite He. split; [reflexivity|].
    replace lvl with ERROR by (symmetry; apply Hlvl; by exists e).
    apply Hlogged.
Qed.

(** C9. If the chat model raises on the support-detection prompt,
    [is_support_request] returns [True]: the failure is caught and logged,
    and the message is treated as a support request. The other tools differ:
    when the model raises on their prompt they return an error payload, a
    dictionary with an [error] key. *)
Theorem is_support_request_defaults_to_true subject message w e :
  llm_outcome (llm_calls w)
    (TicketRouter.support_detection_formatted_prompt subject message) = inl e →
  (∃ w', TicketRouter.is_support_request subject message w = (inr true, w')
         ∧ logged_error w w')
  ∧ (∀ title description customer_id priority category,
       llm_outcome (llm_calls w)
         (TicketRouter.categorization_formatted_prompt title description
            customer_id priority category) = inl e →
       ∃ result, fst (TicketRouter._run_categorization title description
                        customer_id priority category w) = inr result
                 ∧ has_key "error" result)
  ∧ (∀ query customer_id context,
       llm_outcome (llm_calls w)
         (TicketRouter.routing_formatted_prompt query customer_id context)
       = inl e →
       ∃ result, fst (TicketRouter._run_routing query customer_id context w)
                 = inr result
                 ∧ has_key "error" result)
  ∧ (∀ customer_name interaction_details additional_info,
       llm_outcome (llm_calls w)
         (CRMEntryGenerator.formatted_prompt customer_name interaction_details
            additional_info) = inl e →
       ∃ result, fst (CRMEntryGenerator._run customer_name interaction_details
                        additional_info w) = inr result
                 ∧ has_key "error" result).
Proof.
  intros Hllm. split; [|split; [|split]].
  - unfold TicketRouter.is_support_request, try_except, mbind, M_bind, llm_invoke.
    simpl. rewrite Hllm. simpl. eexists. split; [reflexivity|].
    eexists. simpl. rewrite drop_app_length. apply list_elem_of_here.
  - intros title description customer_id priority category Hfail.
    rewrite categorization_run. cbv zeta. rewrite Hfail.
    eexists. split; [reflexivity|].
    apply (failure_payloads_have_error title priority category EmptyString _
             EmptyString).
  - intros query customer_id context Hfail.
    rewrite routing_run. cbv zeta. rewrite Hfail.
    eexists. split; [reflexivity|].
    apply (failure_payloads_have_error EmptyString None None EmptyString _
             EmptyString).
  - intros customer_name interaction_details additional_info Hfail.
    rewrite crm_entry_run. cbv zeta. rewrite Hfail.
    eexists. split; [reflexivity|].
    apply (failure_payloads_have_error EmptyString None None EmptyString _
             customer_name).
Qed.

End ToolClaims.
End ToolClaims.

(** ** The steps of the batch loop, one by one *)

Module StepFacts.
Section StepFacts.
Context `{Externals}.

Import Spec MonadFacts ToolFacts ToolRuns EmailService.

(** Each step makes exactly one outgoing call, and only adds to the log. *)

Lemma summarize_email_step subject body sender date attachments w :
  ∃ summary w',
    CustomerServiceAgent.summarize_email subject body sender date attachments w
    = (inr summary, w')
    ∧ trace w' = trace w
                 ++ [LLMInvoke (EmailSummarizer.formatted_prompt subject body
                                  sender date (Some (default [] attachments)))]
    ∧ log w `prefix_of` log w'.
Proof.
  unfold CustomerServiceAgent.summarize_email, EmailSummarizer.summarize_email,
    mbind, M_bind, logger_info, logger. cbn [fst snd].
  rewrite summarizer_run. cbv zeta.
  destruct (llm_outcome _ _) as [e|summary]; cbn [llm_calls clock log trace agent_memory_json];
    eexists _, _; (split; [reflexivity|]); cbn [log trace];
    (split; [reflexivity|]); rewrite <- !List.app_assoc; by eexists.
Qed.

Lemma is_support_request_step subject message w :
  ∃ is_support w',
    TicketRouter.is_support_request subject message w = (inr is_support, w')
    ∧ trace w' = trace w
                 ++ [LLMInvoke (TicketRouter.support_detection_formatted_prompt
                                  subject message)]
    ∧ log w `prefix_of` log w'.
Proof.
  destruct (is_support_request_run subject message w) as (msg & lvl & -> & _).
  eexists _, _. split; [reflexivity|]. cbn [log trace].
  split; [reflexivity | by eexists].
Qed.

(** After the categorization, the agent logs two fields of the result, read
    with [result.get]: this raises unless the result is a dictionary. *)
Lemma categorization_logged (result : value) w :
  ∃ r w',
    (result_category ← get result "category";
     result_priority ← get result "priority";
     logger_info ("Ticket categorized as " +:+ format_value result_category
                  +:+ " with " +:+ format_value result_priority
                  +:+ " priority");;
     mret result) w = (r, w')
    ∧ trace w' = trace w
    ∧ log w `prefix_of` log w'
    ∧ (∀ ticket_data, r = inr ticket_data →
         ticket_data = result ∧ ∃ d, result = VDict d)
    ∧ ((∃ d, result = VDict d) → r = inr result).
Proof.
  destruct result;
    (eexists _, _; split; [reflexivity|]); cbn [log trace];
    (split; [reflexivity|]); (split; [first [reflexivity | by eexists]|]);
    (split; [intros ticket_data Hr;
             first [discriminate Hr | injection Hr as <-; eauto] |]);
    first [intros _; reflexivity | intros [d' [=]]].
Qed.

Lemma categorize_ticket_step title description customer_id priority category w :
  ∃ r w',
    CustomerServiceAgent.categorize_ticket title description customer_id
      priority category w = (r, w')
    ∧ trace w' = trace w
                 ++ [LLMInvoke (TicketRouter.categorization_formatted_prompt
                                  title description customer_id priority
                                  category)]
    ∧ log w `prefix_of` log w'
    ∧ ∀ ticket_data, r = inr ticket_data → ∃ d, ticket_data = VDict d.
Proof.
  unfold CustomerServiceAgent.categorize_ticket, TicketRouter.categorize_ticket.
  rewrite bind_run. cbn [logger_info logger]. rewrite bind_run.
  rewrite categorization_run. cbv zeta.
  cbn [llm_calls clock log trace agent_memory_json].
  destruct (llm_outcome _ _) as [e|content];
    [|destruct (fst (extract_json content _)) as [e|result]];
    edestruct categorization_logged as (r & w' & Hrun & Ht & Hl & Hd & _);
    exists r, w'; (split; [exact Hrun|]); rewrite Ht; cbn [log trace] in *;
    (split; [reflexivity|]);
    (split; [|intros ticket_data Hr; destruct (Hd _ Hr) as [-> Hdict]; exact Hdict]);
    destruct Hl as [k ->]; rewrite <- !List.app_assoc; by eexists.
Qed.

Lemma getitem_run (d : value) key w :
  ∃ r, getitem d key w = (r, w)
       ∧ (∀ m, d = VDict m →
            match m !! key with
            | Some v => r = inr v
            | None => ∃ e, r = inl e
            end).
Proof.
  destruct d; cbn; try (eexists; split; [reflexivity|]; intros m [=]).
  destruct (d !! key) as [v|] eqn:Hk; eexists; (split; [reflexivity|]);
    intros m [= <-]; rewrite Hk; eauto.
Qed.

Lemma create_ticket_step title description category priority customer_id w :
  ∃ ticket_id w',
    TicketService.create_ticket title description category priority
      customer_id w = (inr ticket_id, w')
    ∧ trace w' = trace w
                 ++ [TicketCreate title description category priority customer_id]
    ∧ log w `prefix_of` log w'.
Proof.
  eexists _, _. split; [reflexivity|]. cbn [log trace].
  split; [reflexivity | by eexists].
Qed.

Lemma create_crm_entry_step customer_name interaction_details additional_info w :
  ∃ crm_entry w',
    CustomerServiceAgent.create_crm_entry customer_name interaction_details
      additional_info w = (inr crm_entry, w')
    ∧ trace w' = trace w
                 ++ [LLMInvoke (CRMEntryGenerator.formatted_prompt customer_name
                                  interaction_details
                                  (Some (default ∅ additional_info)))]
    ∧ log w `prefix_of` log w'.
Proof.
  unfold CustomerServiceAgent.create_crm_entry, CRMEntryGenerator.create_crm_entry,
    mbind, M_bind, logger_info, logger. cbn [fst snd].
  rewrite crm_entry_run. cbv zeta.
  destruct (llm_outcome _ _) as [e|content];
    [|destruct (fst (extract_json content _)) as [e|result]];
    cbn [llm_calls clock log trace agent_memory_json];
    eexists _, _; (split; [reflexivity|]); cbn [log trace];
    (split; [reflexivity|]); rewrite <- !List.app_assoc; by eexists.
Qed.

Lemma create_entry_step entry_data w :
  ∃ entry_id w',
    CRMService.create_entry entry_data w = (inr entry_id, w')
    ∧ trace w' = trace w ++ [CRMCreateEntry entry_data]
    ∧ log w `prefix_of` log w'.
Proof.
  eexists _, _. split; [reflexivity|]. cbn [log trace].
  split; [reflexivity | by eexists].
Qed.

Lemma mark_as_processed_step email_id w :
  ∃ w',
    mark_as_processed email_id w = (inr true, w')
    ∧ trace w' = trace w ++ [EmailMarkProcessed email_id]
    ∧ log w `prefix_of` log w'.
Proof.
  eexists. split; [reflexivity|]. cbn [log trace].
  split; [reflexivity | by eexists].
Qed.

End StepFacts.
End StepFacts.

(** ** The batch loop *)

Module BatchFacts.
Section BatchFacts.
Context `{Externals}.

Import Spec MonadFacts StepFacts EmailService.

(** The last three steps for an email always run to the end. *)
Lemma crm_phase email summary w :
  ∃ w' acts,
    (crm_entry ← CustomerServiceAgent.create_crm_entry (email_sender email)
                   ("Email: " +:+ email_subject email +:+ PyStr.nl +:+ PyStr.nl
                    +:+ "Summary: " +:+ summary)
                   (Some {[ "email_id" := VStr (email_id email) ]});
     _ ← CRMService.create_entry crm_entry;
     _ ← mark_as_processed (email_id email);
     mret tt) w = (inr tt, w')
    ∧ trace w' = trace w ++ acts
    ∧ map step_of acts = [GenerateCRMEntry; SubmitCRMEntry; MarkProcessed]
    ∧ Forall (concerns email) acts
    ∧ log w `prefix_of` log w'.
Proof.
  edestruct create_crm_entry_step as (crm_entry & w1 & H1 & T1 & L1).
  destruct (create_entry_step crm_entry w1) as (entry_id & w2 & H2 & T2 & L2).
  destruct (mark_as_processed_step (email_id email) w2) as (w3 & H3 & T3 & L3).
  exists w3. eexists [_; _; _]. split.
  { rewrite (bind_inr _ _ _ _ _ H1), (bind_inr _ _ _ _ _ H2),
      (bind_inr _ _ _ _ _ H3). reflexivity. }
  split. { rewrite T3, T2, T1, <- !List.app_assoc. reflexivity. }
  split; [reflexivity|]. split.
  - repeat constructor.
  - by etrans; [|etrans].
Qed.

(** The ticket branch: the categorization is always requested; the ticket
    is submitted exactly when the categorization can be. *)
Lemma ticket_phase email w :
  ∃ r w3 r' w' acts,
    CustomerServiceAgent.categorize_ticket (email_subject email)
      (email_body email) (email_customer_id email) None None w = (r, w3)
    ∧ (ticket_data ← CustomerServiceAgent.categorize_ticket
                       (email_subject email) (email_body email)
                       (email_customer_id email) None None;
       category ← getitem ticket_data "category";
       priority ← getitem ticket_data "priority";
       _ ← TicketService.create_ticket (email_subject email) (email_body email)
             category priority (email_customer_id email);
       mret tt) w = (r', w')
    ∧ trace w' = trace w ++ acts
    ∧ Forall (concerns email) acts
    ∧ log w `prefix_of` log w'
    ∧ ((submittable r ∧ r' = inr tt ∧ map step_of acts = [Categorize; SubmitTicket])
       ∨ (¬ submittable r ∧ (∃ e, r' = inl e) ∧ map step_of acts = [Categorize])).
Proof.
  edestruct categorize_ticket_step as (r & w3 & Hcat & T3 & L3 & Hdict).
  exists r, w3.
  assert (Hconcerns : Forall (concerns email)
            [LLMInvoke (TicketRouter.categorization_formatted_prompt
                          (email_subject email) (email_body email)
                          (email_customer_id email) None None)])
    by repeat constructor.
  destruct r as [e|ticket_data].
  { (* the agent's own logging of the result raised *)
    exists (inl e), w3. eexists. split; [exact Hcat|].
    split; [by rewrite (bind_inl _ _ _ _ _ Hcat)|].
    split; [exact T3|]. split; [exact Hconcerns|]. split; [exact L3|].
    right. split; [|split; [eauto | reflexivity]].
    intros (d & [=] & _). }
  destruct (Hdict ticket_data eq_refl) as [d ->].
  destruct (getitem_run (VDict d) "category" w3) as (rc & Hc & Hcv).
  specialize (Hcv d eq_refl).
  destruct (d !! "category") as [category|] eqn:Hkc.
  2:{ destruct Hcv as [e ->].
      exists (inl e), w3. eexists. split; [exact Hcat|].
      split; [by rewrite (bind_inr _ _ _ _ _ Hcat), (bind_inl _ _ _ _ _ Hc)|].
      split; [exact T3|]. split; [exact Hconcerns|]. split; [exact L3|].
      right. split; [|split; [eauto | reflexivity]].
      intros (d' & [= <-] & [c Hsome] & _). congruence. }
  subst rc.
  destruct (getitem_run (VDict d) "priority" w3) as (rp & Hp & Hpv).
  specialize (Hpv d eq_refl).
  destruct (d !! "priority") as [priority|] eqn:Hkp.
  2:{ destruct Hpv as [e ->].
      exists (inl e), w3. eexists. split; [exact Hcat|].
      split; [by rewrite (bind_inr _ _ _ _ _ Hcat), (bind_inr _ _ _ _ _ Hc),
                (bind_inl _ _ _ _ _ Hp)|].
      split; [exact T3|]. split; [exact Hconcerns|]. split; [exact L3|].
      right. split; [|split; [eauto | reflexivity]].
      intros (d' & [= <-] & _ & [c Hsome]). congruence. }
  subst rp.
  destruct (create_ticket_step (email_subject email) (email_body email)
              category priority (email_customer_id email) w3)
    as (ticket_id & w4 & Hticket & T4 & L4).
  exists (inr tt), w4. eexists [_; _]. split; [exact Hcat|].
  split. { rewrite (bind_inr _ _ _ _ _ Hcat), (bind_inr _ _ _ _ _ Hc),
             (bind_inr _ _ _ _ _ Hp), (bind_inr _ _ _ _ _ Hticket).
           reflexivity. }
  split. { rewrite T4, T3, <- !List.app_assoc. reflexivity. }
  split; [repeat constructor|]. split; [by etrans|].
  left. split; [|split; reflexivity].
  exists d. rewrite Hkc, Hkp. eauto.
Qed.

(** One email, from summarization to the mark. *)
Lemma process_email_run email w :
  ∃ r w' summary w1 is_support w2 acts,
    CustomerServiceAgent.process_email email w = (r, w')
    ∧ CustomerServiceAgent.summarize_email (email_subject email)
        (email_body email) (email_sender email) (email_date email)
        (Some (email_attachments email)) w = (inr summary, w1)
    ∧ TicketRouter.is_support_request (email_subject email) (email_body email)
        w1 = (inr is_support, w2)
    ∧ trace w' = trace w ++ summarization_call email :: acts
    ∧ Forall (concerns email) (summarization_call email :: acts)
    ∧ log w `prefix_of` log w'
    ∧ if is_support then
        ∃ r3 w3,
          CustomerServiceAgent.categorize_ticket (email_subject email)
            (email_body email) (email_customer_id email) None None w2 = (r3, w3)
          ∧ ((submittable r3 ∧ r = inr tt
              ∧ map step_of (summarization_call email :: acts) = steps_for true)
             ∨ (¬ submittable r3 ∧ (∃ e, r = inl e)
                ∧ map step_of (summarization_call email :: acts)
                  = steps_interrupted))
      else r = inr tt
           ∧ map step_of (summarization_call email :: acts) = steps_for false.
Proof.
  edestruct summarize_email_step as (summary & w1 & Hsum & T1 & L1).
  edestruct is_support_request_step as (is_support & w2 & Hdet & T2 & L2).
  unfold CustomerServiceAgent.process_email.
  rewrite (bind_inr _ _ _ _ _ Hsum), (bind_inr _ _ _ _ _ Hdet).
  assert (Hc1 : concerns email (summarization_call email)) by repeat constructor.
  assert (Hc2 : concerns email
                  (LLMInvoke (TicketRouter.support_detection_formatted_prompt
                                (email_subject email) (email_body email))))
    by repeat constructor.
  destruct is_support.
  - destruct (ticket_phase email w2)
      as (r3 & w3 & r' & w4 & acts & Hcat & Hphase & T4 & C4 & L4 & Hcases).
    destruct Hcases as [(Hsub & -> & Hsteps) | (Hsub & [e ->] & Hsteps)].
    + destruct (crm_phase email summary w4)
        as (w5 & acts' & Hcrm & T5 & Hsteps' & C5 & L5).
      exists (inr tt), w5, summary, w1, true, w2. eexists.
      split. { rewrite (bind_inr _ _ _ _ _ Hphase). exact Hcrm. }
      split; [exact Hsum|]. split; [exact Hdet|].
      split. { rewrite T5, T4, T2, T1, <- !List.app_assoc. reflexivity. }
      split. { constructor; [exact Hc1|]. constructor; [exact Hc2|].
               by apply Forall_app. }
      split. { by etrans; [|etrans; [|etrans]]. }
      exists r3, w3. split; [exact Hcat|]. left.
      split; [exact Hsub|]. split; [reflexivity|].
      cbn [map]. rewrite !map_app, Hsteps, Hsteps'. reflexivity.
    + exists (inl e), w4, summary, w1, true, w2. eexists.
      split. { by rewrite (bind_inl _ _ _ _ _ Hphase). }
      split; [exact Hsum|]. split; [exact Hdet|].
      split. { rewrite T4, T2, T1, <- !List.app_assoc. reflexivity. }
      split. { constructor; [exact Hc1|]. by constructor. }
      split. { by etrans; [|etrans]. }
      exists r3, w3. split; [exact Hcat|]. right.
      split; [exact Hsub|]. split; [eauto|].
      cbn [map]. rewrite ?map_app, Hsteps. reflexivity.
  - destruct (crm_phase email summary w2)
      as (w5 & acts' & Hcrm & T5 & Hsteps' & C5 & L5).
    exists (inr tt), w5, summary, w1, false, w2. eexists.
    split. { rewrite (bind_inr _ _ _ tt w2 eq_refl). exact Hcrm. }
    split; [exact Hsum|]. split; [exact Hdet|].
    split. { rewrite T5, T2, T1, <- !List.app_assoc. reflexivity. }
    split. { constructor; [exact Hc1|]. by constructor. }
    split. { by etrans; [|etrans]. }
    split; [reflexivity|]. cbn [map]. rewrite ?map_app, Hsteps'. reflexivity.
Qed.

End BatchFacts.
End BatchFacts.

(** ** Claims about the batch loop *)

Module BatchClaims.
Section BatchClaims.
Context `{Externals}.

Import Spec MonadFacts StepFacts BatchFacts EmailService.

(** The world after the handler of the loop has logged the exception. *)
Local Abbreviation failure_logged email e w :=
  (mkWorld (llm_calls w) (clock w)
     (log w ++ [LogRecord ERROR ("Error processing email " +:+ email_id email
                                 +:+ ": " +:+ exn_str e)])
     (trace w) (agent_memory_json w)).

(** The guarded loop body never raises: it ends where the [try] block ends,
    with the exception logged if there was one. *)
Lemma process_email_guarded_run email w :
  CustomerServiceAgent.process_email_guarded email w
  = match CustomerServiceAgent.process_email email w with
    | (inl e, w') => (inr tt, failure_logged email e w')
    | (inr _, w') => (inr tt, w')
    end.
Proof.
  unfold CustomerServiceAgent.process_email_guarded. rewrite try_except_run.
  destruct (CustomerServiceAgent.process_email email w) as [[e|[]] w'];
    reflexivity.
Qed.

Lemma process_email_guarded_ok email w :
  fst (CustomerServiceAgent.process_email_guarded email w) = inr tt.
Proof.
  rewrite process_email_guarded_run.
  by destruct (CustomerServiceAgent.process_email email w) as [[e|[]] w'].
Qed.

Lemma process_emails_ok emails w :
  fst (CustomerServiceAgent.process_emails emails w) = inr tt.
Proof.
  revert w. induction emails as [|email emails IH]; intros w; [reflexivity|].
  unfold CustomerServiceAgent.process_emails. cbn [for_each].
  rewrite bind_run.
  pose proof (process_email_guarded_ok email w) as Hok.
  destruct (CustomerServiceAgent.process_email_guarded email w) as [r w1].
  cbn [fst] in Hok. subst r. apply IH.
Qed.

Lemma process_emails_cons email emails w :
  CustomerServiceAgent.process_emails (email :: emails) w
  = CustomerServiceAgent.process_emails emails
      (snd (CustomerServiceAgent.process_email_guarded email w)).
Proof.
  unfold CustomerServiceAgent.process_emails. cbn [for_each].
  rewrite bind_run.
  pose proof (process_email_guarded_ok email w) as Hok.
  destruct (CustomerServiceAgent.process_email_guarded email w) as [r w1].
  cbn [fst] in Hok. by subst r.
Qed.

Lemma process_emails_app before after w :
  CustomerServiceAgent.process_emails (before ++ after) w
  = CustomerServiceAgent.process_emails after
      (snd (CustomerServiceAgent.process_emails before w)).
Proof.
  revert w. induction before as [|email before IH]; intros w; [reflexivity|].
  cbn [app]. rewrite !process_emails_cons. apply IH.
Qed.

(** The guarded body handles its email, in the sense of the
    specification. *)
Lemma process_email_guarded_handles email w :
  handles email w (snd (CustomerServiceAgent.process_email_guarded email w)).
Proof.
  rewrite process_email_guarded_run.
  destruct (process_email_run email w)
    as (r & w' & summary & w1 & is_support & w2 & acts
        & Hrun & Hsum & Hdet & Ht & Hc & Hl & Hcases).
  rewrite Hrun. exists summary, w1, is_support, w2.
  split; [exact Hsum|]. split; [exact Hdet|].
  assert (Hsince : ∀ w'', trace w'' = trace w' →
            actions_since w w'' = summarization_call email :: acts).
  { intros w'' Htr. unfold actions_since. by rewrite Htr, Ht, drop_app_length. }
  destruct is_support.
  - destruct Hcases as (r3 & w3 & Hcat & [(Hsub & -> & Hsteps)|(Hsub & [e ->] & Hsteps)]).
    + cbn [snd]. rewrite Hsince by reflexivity. split; [exact Hc|].
      exists r3, w3. split; [exact Hcat|]. left. split; [exact Hsub|].
      unfold steps_since. by rewrite Hsince.
    + cbn [snd]. rewrite Hsince by reflexivity. split; [exact Hc|].
      exists r3, w3. split; [exact Hcat|]. right. split; [exact Hsub|].
      split; [unfold steps_since; by rewrite Hsince|].
      eexists. cbn [log]. destruct Hl as [k ->].
      rewrite <- List.app_assoc, drop_app_length.
      apply elem_of_app. right. apply list_elem_of_here.
  - destruct Hcases as [-> Hsteps]. cbn [snd].
    rewrite Hsince by reflexivity. split; [exact Hc|].
    unfold steps_since. by rewrite Hsince.
Qed.

(** Every email of the list is started. *)
Lemma process_emails_starts_all emails w email :
  email ∈ emails →
  summarization_call email
  ∈ actions_since w (snd (CustomerServiceAgent.process_emails emails w)).
Proof.
  assert (Hext : ∀ emails w,
    ∃ k, trace (snd (CustomerServiceAgent.process_emails emails w))
         = trace w ++ k
         ∧ ∀ email, email ∈ emails → summarization_call email ∈ k).
  { clear. intros emails. induction emails as [|email0 emails IH]; intros w.
    - exists []. split; [by rewrite List.app_nil_r | intros email Hin; inversion Hin].
    - rewrite process_emails_cons.
      set (w1 := snd (CustomerServiceAgent.process_email_guarded email0 w)).
      destruct (IH w1) as (k & Hk & Hall).
      assert (Hw1 : ∃ acts, trace w1 = trace w ++ summarization_call email0 :: acts).
      { subst w1. rewrite process_email_guarded_run.
        destruct (process_email_run email0 w)
          as (r & w' & summary & w1' & is_support & w2 & acts
              & Hrun & _ & _ & Ht & _).
        rewrite Hrun. exists acts. by destruct r as [e|[]]. }
      destruct Hw1 as [acts Hw1].
      exists ((summarization_call email0 :: acts) ++ k).
      split; [by rewrite Hk, Hw1, <- List.app_assoc|].
      intros email Hin. apply elem_of_app.
      apply elem_of_cons in Hin as [->|Hin].
      + left. apply list_elem_of_here.
      + right. by apply Hall. }
  intros Hin. destruct (Hext emails w) as (k & Hk & Hall).
  unfold actions_since. rewrite Hk, drop_app_length. by apply Hall.
Qed.

(** The mock email service always returns a list. *)
Lemma mock_emails_ok range emails w :
  ∃ emails' w', mock_emails range emails w = (inr emails', w')
                ∧ trace w' = trace w.
Proof.
  revert emails w. induction range as [|i range IH]; intros emails w.
  - by exists emails, w.
  - cbn [mock_emails]. rewrite bind_run. unfold datetime_now at 1.
    cbn beta iota. rewrite bind_run. unfold datetime_now at 1. cbn beta iota zeta.
    edestruct IH as (emails' & w' & -> & Ht). by exists emails', w'.
Qed.

Lemma get_unprocessed_emails_ok w :
  ∃ emails w', get_unprocessed_emails w = (inr emails, w')
               ∧ trace w' = trace w ++ [EmailFetch].
Proof.
  unfold get_unprocessed_emails. rewrite try_except_run, bind_run.
  cbn [request]. rewrite bind_run.
  edestruct mock_emails_ok as (emails & w' & -> & Ht).
  rewrite bind_run. exists emails. eexists. split; [reflexivity|].
  cbn [trace]. exact Ht.
Qed.

(** The batch: fetch, then the loop over what was fetched. *)
Lemma process_email_batch_run w :
  ∃ emails w0 w1 w',
    get_unprocessed_emails
      (snd (logger_info "Starting batch email processing" w)) = (inr emails, w0)
    ∧ CustomerServiceAgent.process_emails emails w0 = (inr tt, w1)
    ∧ CustomerServiceAgent.process_email_batch w = (inr tt, w')
    ∧ trace w' = trace w1.
Proof.
  edestruct get_unprocessed_emails_ok as (emails & w0 & Hfetch & _).
  pose proof (process_emails_ok emails w0) as Hok.
  destruct (CustomerServiceAgent.process_emails emails w0) as [r w1] eqn:Hloop.
  cbn [fst] in Hok. subst r.
  exists emails, w0, w1. eexists. split; [exact Hfetch|].
  split; [exact Hloop|].
  unfold CustomerServiceAgent.process_email_batch.
  rewrite bind_run. cbn [logger_info logger].
  cbn [logger_info logger snd] in Hfetch. rewrite (bind_inr _ _ _ _ _ Hfetch).
  rewrite (bind_inr _ _ _ _ _ Hloop). split; reflexivity.
Qed.

(** The loop handles its emails one at a time, in the order of the list. *)
Lemma process_emails_handled emails w :
  ∃ w', CustomerServiceAgent.process_emails emails w = (inr tt, w')
        ∧ handled_in_order emails w w'.
Proof.
  revert w. induction emails as [|email emails IH]; intros w.
  - exists w. split; [reflexivity | constructor].
  - rewrite process_emails_cons.
    destruct (IH (snd (CustomerServiceAgent.process_email_guarded email w)))
      as (w' & Hrun & Hrest).
    exists w'. split; [exact Hrun|].
    econstructor; [apply process_email_guarded_handles | exact Hrest].
Qed.

(** C2. [process_email_batch] fetches the emails, runs the loop over what
    it fetched from the world that the fetch left, and ends by logging its
    report from the world that the loop left; it never raises. In the loop,
    on any list of emails and at any email of the list: the loop reaches
    the email; an exception raised while the email is processed is caught
    and logged, with the id of the email, and nothing else changes; the
    loop then goes on from there with the emails after it, each of which
    is handled in turn, and returns normally. *)
Theorem batch_survives_failures :
  (∀ w,
     ∃ emails w0 w3,
       get_unprocessed_emails
         (snd (logger_info "Starting batch email processing" w))
       = (inr emails, w0)
       ∧ CustomerServiceAgent.process_emails emails w0 = (inr tt, w3)
       ∧ CustomerServiceAgent.process_email_batch w
         = logger_info ("Batch email processing completed. Processed "
                        +:+ pretty (length emails) +:+ " emails") w3)
  ∧ (∀ before email after w,
       ∃ w1 w2 w3,
         CustomerServiceAgent.process_emails before w = (inr tt, w1)
         ∧ CustomerServiceAgent.process_email_guarded email w1 = (inr tt, w2)
         ∧ (∀ e w', CustomerServiceAgent.process_email email w1 = (inl e, w') →
              w2 = failure_logged email e w' ∧ logged_error w1 w2)
         ∧ CustomerServiceAgent.process_emails after w2 = (inr tt, w3)
         ∧ handled_in_order after w2 w3
         ∧ CustomerServiceAgent.process_emails (before ++ email :: after) w
           = (inr tt, w3)).
Proof.
  split.
  - intros w.
    destruct (process_email_batch_run w)
      as (emails & w0 & w3 & w' & Hfetch & Hloop & _).
    exists emails, w0, w3. split; [exact Hfetch|]. split; [exact Hloop|].
    unfold CustomerServiceAgent.process_email_batch.
    rewrite bind_run. cbn [logger_info logger].
    cbn [logger_info logger snd] in Hfetch. rewrite (bind_inr _ _ _ _ _ Hfetch).
    by rewrite (bind_inr _ _ _ _ _ Hloop).
  - intros before email after w.
    destruct (process_emails_handled before w) as (w1 & Hbefore & _).
    pose proof (process_email_guarded_ok email w1) as Hok.
    destruct (CustomerServiceAgent.process_email_guarded email w1)
      as [r w2] eqn:Hguarded.
    cbn [fst] in Hok. subst r.
    destruct (process_emails_handled after w2) as (w3 & Hafter & Hhandled).
    exists w1, w2, w3. split; [exact Hbefore|]. split; [exact Hguarded|].
    split; [|split; [exact Hafter|split; [exact Hhandled|]]].
    + intros e w' Hfail.
      rewrite process_email_guarded_run, Hfail in Hguarded.
      injection Hguarded as <-. split; [reflexivity|].
      destruct (process_email_run email w1)
        as (r & w'' & ? & ? & ? & ? & ? & Hrun & _ & _ & _ & _ & [k Hk] & _).
      rewrite Hfail in Hrun. injection Hrun as <- <-.
      eexists. cbn [log]. rewrite Hk, <- List.app_assoc, drop_app_length.
      apply elem_of_app. right. apply list_elem_of_here.
    + rewrite process_emails_app, Hbefore. cbn [snd].
      rewrite process_emails_cons, Hguarded. exact Hafter.
Qed.

(** C6, as amended. The emails are handled one at a time, in the order of
    the list, and for each of them the steps are taken in program order:
    summarize, detect; if and only if detection says yes, categorize and
    then, provided the categorization is a dictionary with a category and a
    priority, submit the ticket; then generate and submit the CRM entry and
    mark the email as processed. The one interruption is a categorization
    that cannot be submitted: the handling of that email stops after the
    categorization, with the error logged. *)
Theorem emails_handled_in_order :
  (∀ emails w,
     ∃ w', CustomerServiceAgent.process_emails emails w = (inr tt, w')
           ∧ handled_in_order emails w w')
  ∧ (∀ w,
       ∃ emails w0 w1 w',
         get_unprocessed_emails
           (snd (logger_info "Starting batch email processing" w))
         = (inr emails, w0)
         ∧ CustomerServiceAgent.process_email_batch w = (inr tt, w')
         ∧ handled_in_order emails w0 w1
         ∧ trace w' = trace w1).
Proof.
  pose proof process_emails_handled as Hloop.
  split; [exact Hloop|]. intros w.
  destruct (process_email_batch_run w)
    as (emails & w0 & w1 & w' & Hfetch & Hrun & Hbatch & Ht).
  exists emails, w0, w1, w'. split; [exact Hfetch|]. split; [exact Hbatch|].
  split; [|exact Ht].
  destruct (Hloop emails w0) as (w1' & Hrun' & Hin). congruence.
Qed.

End BatchClaims.
End BatchClaims.

(** ** Claims about the mocked CRM service *)

Module CRMClaims.

Import Spec PyStrFacts CRMService.

(** C7. For every customer id, [get_customer] returns the canned record
    with that id when the id is one of [CUST12345], [CUST67890],
    [CUST24680], [CUST13579], and [None] for every other id; it never
    raises. *)
Theorem get_customer_canned customer_id w :
  ∃ r w',
    get_customer customer_id w = (inr r, w')
    ∧ (∀ c, r = Some c ↔ c ∈ canned_customers ∧ cust_id c = customer_id)
    ∧ (r = None ↔ customer_id ∉ canned_ids).
Proof.
  unfold get_customer. rewrite MonadFacts.try_except_run, MonadFacts.bind_run.
  cbn [request].
  assert (Hin : ∀ c, c ∈ canned_customers ↔
            c = john_smith ∨ c = sarah_johnson ∨ c = michael_chen
            ∨ c = david_wilson).
  { intros c. unfold canned_customers. rewrite !elem_of_cons, elem_of_nil. tauto. }
  assert (Hids : customer_id ∈ canned_ids ↔
            customer_id = "CUST12345" ∨ customer_id = "CUST67890"
            ∨ customer_id = "CUST24680" ∨ customer_id = "CUST13579").
  { unfold canned_ids. rewrite !elem_of_cons, elem_of_nil. tauto. }
  destruct (String.eqb_spec customer_id "CUST12345") as [->|H1];
    [|destruct (String.eqb_spec customer_id "CUST67890") as [->|H2];
      [|destruct (String.eqb_spec customer_id "CUST24680") as [->|H3];
        [|destruct (String.eqb_spec customer_id "CUST13579") as [->|H4]]]];
    eexists _, _; (split; [reflexivity|]); split.
  all: try (intros c; split;
            [ intros [= <-]; split; [apply Hin; tauto | reflexivity]
            | intros [Hc Hid]; apply Hin in Hc;
              destruct Hc as [-> | [-> | [-> | ->]]];
              first [reflexivity | discriminate Hid] ]).
  all: try (split; [discriminate | intros Hno; destruct Hno; apply Hids; tauto]).
  - intros c. split; [discriminate|].
    intros [Hc Hid]. apply Hin in Hc.
    destruct Hc as [-> | [-> | [-> | ->]]]; cbn in Hid; congruence.
  - split; [intros _; rewrite Hids; tauto | reflexivity].
Qed.

Lemma entry_matches_spec query c :
  entry_matches (PyStr.lower query) c = true ↔ matches query c.
Proof.
  unfold entry_matches, matches.
  rewrite !orb_true_iff, !contains_spec. tauto.
Qed.

Lemma search_loop_filter query customers results :
  search_loop query customers results
  = results ++ List.filter (entry_matches query) customers.
Proof.
  revert results. induction customers as [|c customers IH]; intros results.
  - by rewrite List.app_nil_r.
  - cbn [search_loop List.filter]. rewrite IH.
    destruct (entry_matches query c); [by rewrite <- List.app_assoc | reflexivity].
Qed.

Lemma filter_sublist {A} (f : A → bool) (l : list A) :
  List.filter f l `sublist_of` l.
Proof.
  induction l as [|x l IH]; cbn; [constructor|].
  destruct (f x); by constructor.
Qed.

Lemma lower_idempotent s : PyStr.lower (PyStr.lower s) = PyStr.lower s.
Proof.
  induction s as [|c s IH]; cbn; [reflexivity|]. rewrite IH. f_equal.
  unfold PyStr.lower_char at 1.
  destruct (PyStr.is_upper (PyStr.lower_char c)) eqn:Hup; [|reflexivity].
  exfalso. revert Hup. unfold PyStr.lower_char.
  destruct c as [[] [] [] [] [] [] [] []]; vm_compute; discriminate.
Qed.

(** C10. For every query, [search_customers] returns entries of its
    four-entry catalog only, in catalog order, and exactly those whose
    name, email or company contains the query when case is ignored; queries
    that differ in case only get the same answer, and the empty query gets
    all four entries. *)
Theorem search_customers_filters_catalog query w :
  ∃ results w',
    search_customers query w = (inr results, w')
    ∧ results `sublist_of` mock_customers
    ∧ (∀ c, c ∈ results ↔ c ∈ mock_customers ∧ matches query c)
    ∧ (∀ query' w0, PyStr.lower query' = PyStr.lower query →
         fst (search_customers query' w0) = inr results)
    ∧ (query = EmptyString → results = mock_customers)
    ∧ length mock_customers = 4%nat.
Proof.
  exists (List.filter (entry_matches (PyStr.lower query)) mock_customers).
  eexists. split.
  { unfold search_customers.
    rewrite MonadFacts.try_except_run, MonadFacts.bind_run. cbn [request].
    cbv zeta. rewrite MonadFacts.bind_run. cbn [logger_info logger].
    rewrite search_loop_filter. reflexivity. }
  split; [apply filter_sublist|]. split; [|split; [|split]].
  - intros c. rewrite list_elem_of_In, List.filter_In, <- list_elem_of_In.
    by rewrite entry_matches_spec.
  - intros query' w0 Hlower. unfold search_customers.
    rewrite MonadFacts.try_except_run, MonadFacts.bind_run. cbn [request].
    cbv zeta. rewrite MonadFacts.bind_run. cbn [logger_info logger].
    rewrite search_loop_filter, Hlower. reflexivity.
  - intros ->. reflexivity.
  - reflexivity.
Qed.

End CRMClaims.

(** ** Claims about the conversation memory *)

Module MemoryFacts.
Section MemoryFacts.
Context `{Externals}.

Import Spec MonadFacts AgentMemory.

Lemma dump_messages_acc msgs out :
  dump_messages msgs out = out ++ dump_messages msgs [].
Proof.
  revert out. induction msgs as [|m msgs IH]; intros out; cbn [dump_messages].
  - by rewrite List.app_nil_r.
  - rewrite IH, (IH (match message_cls m with
                     | OtherMessage _ => [] | _ => _ end)).
    destruct (message_cls m); cbn [app]; by rewrite <- ?List.app_assoc.
Qed.

(** Role-tagged messages are all written, one stored message each. *)
Lemma dump_messages_tagged msgs :
  Forall role_tagged msgs → dump_messages msgs [] = map stored_of msgs.
Proof.
  induction 1 as [|m msgs Hm _ IH]; [reflexivity|].
  cbn [dump_messages map]. rewrite dump_messages_acc, IH.
  unfold role_tagged, stored_of in *. by destruct (message_cls m).
Qed.

Lemma load_messages_spec stored self :
  customer_contexts (load_messages stored self) = customer_contexts self
  ∧ (Forall role_tagged (messages self) →
     Forall role_tagged (messages (load_messages stored self)))
  ∧ (Forall known_type stored →
     map stored_of (messages (load_messages stored self))
     = map stored_of (messages self) ++ stored).
Proof.
  revert self. induction stored as [|[ty c] stored IH]; intros self.
  - cbn. by rewrite List.app_nil_r.
  - cbn [load_messages stored_type stored_content].
    destruct (String.eqb_spec ty "human") as [->|Hh];
      [|destruct (String.eqb_spec ty "ai") as [->|Ha];
        [|destruct (String.eqb_spec ty "system") as [->|Hs]]];
      match goal with
      | |- context [load_messages stored ?self'] =>
          destruct (IH self') as (Hc & Ht & Hk)
      end;
      (split; [by rewrite Hc|]); split.
    all: try (intros Htagged; apply Ht; cbn [messages add_message];
              apply Forall_app; split; [exact Htagged | by repeat constructor]).
    all: try (intros Hknown; apply Forall_cons in Hknown as [_ Hknown];
              rewrite (Hk Hknown); cbn [messages add_message];
              rewrite map_app, <- List.app_assoc; reflexivity).
    + exact Ht.
    + intros Hknown. apply Forall_cons in Hknown as [Hty _].
      unfold known_type in Hty. cbn in Hty. tauto.
Qed.

(** The world after [_save_memory]: the clock was read once, and the file
    is the document built from the memory object, or is cut short when
    [json.dump] raised, which is logged. *)
Lemma save_memory_run self w :
  _save_memory self w
  = (inr tt,
     match json_dump_contexts (customer_contexts self) with
     | inr written =>
         mkWorld (llm_calls w) (S (clock w))
           (log w ++ [LogRecord INFO ("Saved memory to " +:+ memory_file_path)])
           (trace w)
           (Some (Document (mkFileData written
                              (dump_messages (messages self) [])
                              (isoformat_now (clock w) 0))))
     | inl e =>
         mkWorld (llm_calls w) (S (clock w))
           (log w ++ [LogRecord ERROR ("Error saving memory: " +:+ exn_str e)])
           (trace w)
           (Some (Truncated (customer_contexts self)))
     end).
Proof.
  unfold _save_memory, try_except, mbind, M_bind, datetime_now,
    write_memory_file. cbn [fst snd llm_calls clock log trace].
  by destruct (json_dump_contexts (customer_contexts self)).
Qed.

Lemma save_context_run self inputs outputs w :
  save_context self inputs outputs w
  = match get_input_output inputs outputs with
    | inl e => (inl e, w)
    | inr (input_str, output_str) =>
        let self' := add_message (add_message self HumanMessage input_str)
                       AIMessage output_str in
        (inr self', snd (_save_memory self' w))
    end.
Proof.
  unfold save_context, super_save_context. rewrite bind_run.
  destruct (get_input_output inputs outputs) as [e|[input_str output_str]];
    [reflexivity|].
  cbv zeta. cbn [mret M_ret]. rewrite bind_run, save_memory_run. reflexivity.
Qed.

Lemma clear_run self w :
  clear self w
  = (inr (mkMemory [] (customer_contexts self)),
     snd (_save_memory (mkMemory [] (customer_contexts self)) w)).
Proof.
  unfold clear. cbv zeta. rewrite bind_run, save_memory_run. reflexivity.
Qed.

Lemma update_customer_context_run self customer_id context_data w :
  let self' :=
    mkMemory (messages self)
      (updated_contexts self customer_id context_data
         (isoformat_now (clock w) 0)) in
  update_customer_context self customer_id context_data w
  = (inr self',
     snd (logger_info ("Updated context for customer " +:+ customer_id)
            (snd (_save_memory self' (snd (datetime_now w)))))).
Proof.
  cbv zeta. unfold update_customer_context. cbv zeta.
  rewrite bind_run. unfold datetime_now at 1. cbn beta iota.
  assert (Hc : <[customer_id :=
                   <["last_updated" := Plain (VStr (isoformat_now (clock w) 0))]>
                     (context_data
                      ∪ default ∅
                          (match customer_contexts self !! customer_id with
                           | Some _ => customer_contexts self
                           | None => <[customer_id:=∅]> (customer_contexts self)
                           end !! customer_id))]>
                (match customer_contexts self !! customer_id with
                 | Some _ => customer_contexts self
                 | None => <[customer_id:=∅]> (customer_contexts self)
                 end)
              = updated_contexts self customer_id context_data
                  (isoformat_now (clock w) 0)).
  { unfold updated_contexts.
    destruct (customer_contexts self !! customer_id) as [old|] eqn:Hold.
    - by rewrite Hold.
    - rewrite (lookup_insert_eq (M:=gmap string)).
      by rewrite (insert_insert_eq (M:=gmap string)). }
  rewrite Hc. cbn [datetime_now snd]. rewrite bind_run, !save_memory_run.
  reflexivity.
Qed.

(** [_load_memory] in one equation: nothing to read, a document, or a file
    cut short, on which [json.load] raises. *)
Lemma load_memory_run self w :
  _load_memory self w
  = match agent_memory_json w with
    | None => (inr self, w)
    | Some (Document data) =>
        (inr (load_messages (file_messages data)
                (mkMemory (messages self)
                   (loaded_contexts (file_customer_contexts data)))),
         snd (logger_info ("Loaded memory from " +:+ memory_file_path) w))
    | Some (Truncated contexts) =>
        (inr self,
         snd (logger_error ("Error loading memory: "
                            +:+ json_load_truncated contexts) w))
    end.
Proof.
  unfold _load_memory, try_except, mbind, M_bind, read_memory_file.
  destruct (agent_memory_json w) as [[data|contexts]|]; reflexivity.
Qed.

(** The constructor raises at its first assignment. *)
Lemma init_run w :
  ∃ msg, __init__ w = (inl (Exn ValueError msg), w).
Proof. eexists. reflexivity. Qed.

Lemma start_run w : start w = (mkMemory [] ∅, w).
Proof. reflexivity. Qed.

(** The messages in memory stay role-tagged. *)
Lemma start_tagged w0 : Forall role_tagged (messages (start w0).1).
Proof. rewrite start_run. constructor. Qed.

Lemma loaded_tagged w0 : Forall role_tagged (messages (loaded w0).1).
Proof.
  unfold loaded. rewrite load_memory_run.
  destruct (agent_memory_json w0) as [[data|contexts]|]; cbn [fst];
    try constructor.
  apply load_messages_spec. constructor.
Qed.

Lemma run_operation_tagged op self w :
  Forall role_tagged (messages self) →
  ∀ self' w', run_operation op self w = (inr self', w') →
              Forall role_tagged (messages self').
Proof.
  intros Htagged self' w'. destruct op as [inputs outputs|customer_id data|];
    cbn [run_operation].
  - rewrite save_context_run.
    destruct (get_input_output inputs outputs) as [e|[i o]]; [discriminate|].
    intros [= <- _]. cbn [messages add_message].
    rewrite !Forall_app. repeat split; [exact Htagged | |]; by repeat constructor.
  - rewrite update_customer_context_run. by intros [= <- _].
  - rewrite clear_run. intros [= <- _]. constructor.
Qed.

Lemma run_operations_tagged ops self w :
  Forall role_tagged (messages self) →
  Forall role_tagged (messages (run_operations ops self w).1).
Proof.
  revert self w. induction ops as [|op ops IH]; intros self w Htagged;
    [exact Htagged|].
  cbn [run_operations].
  destruct (run_operation op self w) as [[e|self'] w'] eqn:Hop.
  - by apply IH.
  - apply IH. by eapply run_operation_tagged.
Qed.

End MemoryFacts.
End MemoryFacts.

Module MemoryClaims.
Section MemoryClaims.
Context `{Externals}.

Import Spec MonadFacts AgentMemory MemoryFacts.

(** The record that [_save_memory] logs when [json.dump] raised. *)
Local Abbreviation save_failed e :=
  (LogRecord ERROR ("Error saving memory: " +:+ exn_str e)).

(** The file after [_save_memory]: the whole state, or a document cut
    short, with the failure logged. *)
Lemma save_memory_file self w :
  Forall role_tagged (messages self) →
  match json_dump_contexts (customer_contexts self) with
  | inr written =>
      agent_memory_json (snd (_save_memory self w))
      = Some (Document (whole_state self written (isoformat_now (clock w) 0)))
  | inl e =>
      agent_memory_json (snd (_save_memory self w))
      = Some (Truncated (customer_contexts self))
      ∧ save_failed e ∈ drop (length (log w)) (log (snd (_save_memory self w)))
  end.
Proof.
  intros Htagged. rewrite save_memory_run.
  destruct (json_dump_contexts (customer_contexts self)) as [e|written];
    cbn [snd agent_memory_json log].
  - split; [reflexivity|]. rewrite drop_app_length. apply list_elem_of_here.
  - unfold whole_state. by rewrite dump_messages_tagged.
Qed.

(** What an operation that returns does to the memory object and to the
    file. *)
Lemma run_operation_file op self w self' w' :
  Forall role_tagged (messages self) →
  run_operation op self w = (inr self', w') →
  Forall role_tagged (messages self')
  ∧ match op with
    | Clear => messages self' = []
    | _ => messages self `prefix_of` messages self'
    end
  ∧ match json_dump_contexts (customer_contexts self') with
    | inr written =>
        ∃ stamp,
          agent_memory_json w' = Some (Document (whole_state self' written stamp))
    | inl e =>
        agent_memory_json w' = Some (Truncated (customer_contexts self'))
        ∧ save_failed e ∈ drop (length (log w)) (log w')
    end.
Proof.
  intros Htagged Hop.
  pose proof (run_operation_tagged op self w Htagged self' w' Hop) as Htagged'.
  split; [exact Htagged'|].
  destruct op as [inputs outputs|customer_id data|]; cbn [run_operation] in Hop.
  - rewrite save_context_run in Hop.
    destruct (get_input_output inputs outputs) as [e'|[i o]]; [discriminate|].
    cbv zeta in Hop. injection Hop as <- <-.
    split.
    { cbn [messages add_message]. rewrite <- List.app_assoc. by eexists. }
    pose proof (save_memory_file _ w Htagged') as Hfile.
    destruct (json_dump_contexts _) as [e|written]; [exact Hfile | eauto].
  - rewrite update_customer_context_run in Hop. cbv zeta in Hop.
    injection Hop as <- <-. split; [reflexivity|].
    rewrite save_memory_run. cbn [messages customer_contexts] in *.
    destruct (json_dump_contexts _) as [e|written];
      cbn [logger_info logger snd agent_memory_json log datetime_now clock].
    + split; [reflexivity|].
      rewrite <- List.app_assoc, drop_app_length. apply list_elem_of_here.
    + eexists. unfold whole_state. cbn [messages].
      by rewrite dump_messages_tagged.
  - rewrite clear_run in Hop. injection Hop as <- <-.
    split; [reflexivity|].
    pose proof (save_memory_file _ w Htagged') as Hfile.
    destruct (json_dump_contexts _) as [e|written]; [exact Hfile | eauto].
Qed.

(** An operation that raises changes nothing. *)
Lemma run_operation_raises op self w e w' :
  run_operation op self w = (inl e, w') → w' = w.
Proof.
  destruct op as [inputs outputs|customer_id data|]; cbn [run_operation].
  - rewrite save_context_run.
    destruct (get_input_output inputs outputs) as [e'|[i o]];
      [by intros [= _ <-] | discriminate].
  - rewrite update_customer_context_run. discriminate.
  - rewrite clear_run. discriminate.
Qed.

(** What is written does not depend on what the file held. *)
Lemma run_operation_overwrites op self w file :
  match run_operation op self w with
  | (inr _, w') =>
      agent_memory_json (snd (run_operation op self (with_memory_file file w)))
      = agent_memory_json w'
  | (inl _, _) => True
  end.
Proof.
  destruct op as [inputs outputs|customer_id data|]; cbn [run_operation].
  - rewrite !save_context_run.
    destruct (get_input_output inputs outputs) as [e'|[i o]]; [done|].
    cbv zeta. rewrite !save_memory_run. cbn [snd].
    by destruct (json_dump_contexts _).
  - rewrite !update_customer_context_run. cbv zeta.
    rewrite !save_memory_run.
    cbn [snd logger_info logger agent_memory_json datetime_now clock
         with_memory_file].
    by destruct (json_dump_contexts _).
  - rewrite !clear_run, !save_memory_run. cbn [snd].
    by destruct (json_dump_contexts _).
Qed.

(** C4, as amended. On every mutation of the persisted state, by
    [save_context], [update_customer_context] or [clear], on a memory object
    that has read the file and has been operated on in any way, the file
    [agent_memory.json] is written anew, and what is written does not
    depend on what the file held before. When [json.dump] can serialise the
    customer contexts, the file then holds the whole state: every message
    of the conversation with its role, and every customer context. When it
    cannot, the exception is caught and logged, and the file is left cut
    short, inside the customer contexts. A [save_context] that raises
    changes nothing. *)
Theorem mutations_rewrite_whole_file w0 ops op :
  let self := (run_operations ops (loaded w0).1 (loaded w0).2).1 in
  let w := (run_operations ops (loaded w0).1 (loaded w0).2).2 in
  match run_operation op self w with
  | (inr self', w') =>
      match json_dump_contexts (customer_contexts self') with
      | inr written =>
          ∃ stamp,
            agent_memory_json w'
            = Some (Document (whole_state self' written stamp))
      | inl e =>
          agent_memory_json w' = Some (Truncated (customer_contexts self'))
          ∧ save_failed e ∈ drop (length (log w)) (log w')
      end
      ∧ ∀ file,
          agent_memory_json
            (snd (run_operation op self (with_memory_file file w)))
          = agent_memory_json w'
  | (inl _, w') => w' = w
  end.
Proof.
  intros self w.
  assert (Htagged : Forall role_tagged (messages self))
    by apply run_operations_tagged, loaded_tagged.
  destruct (run_operation op self w) as [[e|self'] w'] eqn:Hop.
  - by eapply run_operation_raises.
  - destruct (run_operation_file op self w self' w' Htagged Hop)
      as (_ & _ & Hfile).
    split; [exact Hfile|]. intros file.
    pose proof (run_operation_overwrites op self w file) as Hover.
    by rewrite Hop in Hover.
Qed.

(** A memory object that has read a file that the program wrote is in sync
    with it. *)
Lemma loaded_in_sync w0 :
  Forall known_type (persisted_messages w0) →
  in_sync (loaded w0).1 (loaded w0).2.
Proof.
  intros Hknown. split; [apply loaded_tagged|]. left. revert Hknown.
  unfold loaded, persisted_messages. rewrite load_memory_run.
  destruct (agent_memory_json w0) as [[data|contexts]|] eqn:Hfile;
    cbn [fst snd logger_info logger_error logger agent_memory_json messages];
    rewrite ?Hfile; try reflexivity.
  intros Hknown. symmetry.
  by destruct (load_messages_spec (file_messages data)
                 (mkMemory [] (loaded_contexts (file_customer_contexts data))))
       as (_ & _ & ->).
Qed.

(** An operation keeps the memory and the file in sync. *)
Lemma run_operation_in_sync op self w :
  in_sync self w →
  in_sync (match run_operation op self w with
           | (inr self', _) => self'
           | (inl _, _) => self
           end) (snd (run_operation op self w)).
Proof.
  intros [Htagged Hsync].
  destruct (run_operation op self w) as [[e|self'] w'] eqn:Hop; cbn [snd].
  - apply run_operation_raises in Hop as ->. by split.
  - destruct (run_operation_file op self w self' w' Htagged Hop)
      as (Htagged' & _ & Hfile).
    split; [exact Htagged'|]. unfold persisted_messages, writable.
    destruct (json_dump_contexts (customer_contexts self')) as [e|written].
    + destruct Hfile as [-> _]. right. split; [reflexivity|].
      intros [written' [=]].
    + destruct Hfile as [stamp ->]. by left.
Qed.

Lemma run_operations_in_sync ops self w :
  in_sync self w →
  in_sync (run_operations ops self w).1 (run_operations ops self w).2.
Proof.
  revert self w. induction ops as [|op ops IH]; intros self w Hsync;
    [exact Hsync|].
  cbn [run_operations].
  pose proof (run_operation_in_sync op self w Hsync) as Hsync'.
  destruct (run_operation op self w) as [[e|self'] w']; by apply IH.
Qed.

(** C5, as amended. One memory object reads the file, which is one that
    the program wrote or none, and is then the only writer of it. After any
    sequence of operations of this object, a write by [save_context] or
    [update_customer_context] that [json.dump] completes keeps every
    message persisted before it, in order, at the head of the persisted
    conversation; [clear] rewrites the file with an empty conversation; and
    a write that [json.dump] cannot complete, because a customer context
    holds an object that it cannot serialise, leaves the file cut short,
    with no message in it. A [save_context] that raises changes nothing. *)
Theorem writes_keep_messages_until_clear w0 ops op :
  Forall known_type (persisted_messages w0) →
  let self := (run_operations ops (loaded w0).1 (loaded w0).2).1 in
  let w := (run_operations ops (loaded w0).1 (loaded w0).2).2 in
  match run_operation op self w with
  | (inr self', w') =>
      match json_dump_contexts (customer_contexts self') with
      | inr _ =>
          match op with
          | Clear => persisted_messages w' = []
          | _ => persisted_messages w `prefix_of` persisted_messages w'
          end
      | inl _ =>
          agent_memory_json w' = Some (Truncated (customer_contexts self'))
          ∧ persisted_messages w' = []
      end
  | (inl _, w') => w' = w
  end.
Proof.
  intros Hknown self w.
  assert (Hsync : in_sync self w)
    by by apply run_operations_in_sync, loaded_in_sync.
  destruct Hsync as [Htagged Hsync].
  destruct (run_operation op self w) as [[e|self'] w'] eqn:Hop.
  - by eapply run_operation_raises.
  - destruct (run_operation_file op self w self' w' Htagged Hop)
      as (_ & Hmsgs & Hfile).
    destruct (json_dump_contexts (customer_contexts self')) as [e|written].
    + destruct Hfile as [Hfile _]. split; [exact Hfile|].
      unfold persisted_messages. by rewrite Hfile.
    + destruct Hfile as [stamp Hfile].
      assert (Hafter : persisted_messages w' = map stored_of (messages self')).
      { unfold persisted_messages. by rewrite Hfile. }
      rewrite Hafter.
      assert (Hbefore : persisted_messages w `prefix_of`
                        map stored_of (messages self) ).
      { destruct Hsync as [->|[-> _]]; [done | apply prefix_nil]. }
      destruct op as [inputs outputs|customer_id data|];
        try (etrans; [exact Hbefore|]; destruct Hmsgs as [k ->];
             rewrite map_app; by eexists).
      by rewrite Hmsgs.
Qed.

(** The slice [l[-n:]] for a positive [n]. *)
Lemma slice_from_last {A} (l : list A) (n : Z) :
  0 < n → PyList.slice_from l (- n) = most_recent (Z.to_nat n) l.
Proof.
  intros Hn. unfold PyList.slice_from, PyStr.slice_bound, most_recent.
  destruct (Z.ltb_spec (- n) 0); [|lia]. f_equal. lia.
Qed.

Lemma most_recent_length {A} (n : nat) (l : list A) :
  (length (most_recent n l) <= n)%nat.
Proof. unfold most_recent. rewrite length_drop. lia. Qed.

Lemma filter_by_customer_spec customer_id all_messages relevant_messages :
  Forall (carries_customer_id customer_id) relevant_messages →
  Forall (carries_customer_id customer_id)
    (filter_by_customer customer_id all_messages relevant_messages)
  ∧ ∃ kept, filter_by_customer customer_id all_messages relevant_messages
            = relevant_messages ++ kept
            ∧ kept `sublist_of` all_messages.
Proof.
  revert relevant_messages.
  induction all_messages as [|m all_messages IH]; intros relevant Hrel.
  - split; [exact Hrel|]. exists []. by rewrite List.app_nil_r.
  - cbn [filter_by_customer].
    destruct (value_eq_str _ customer_id) eqn:Heq.
    + assert (Hm : carries_customer_id customer_id m).
      { unfold carries_customer_id.
        destruct (additional_kwargs m !! "customer_id") as [[]|];
          cbn in Heq; try discriminate.
        by apply String.eqb_eq in Heq as ->. }
      destruct (IH (relevant ++ [m])) as (Hall & kept & Hkept & Hsub).
      { apply Forall_app. split; [exact Hrel | by constructor]. }
      split; [exact Hall|]. exists (m :: kept).
      split; [by rewrite Hkept, <- List.app_assoc | by constructor].
    + destruct (IH relevant Hrel) as (Hall & kept & Hkept & Hsub).
      split; [exact Hall|]. exists kept. split; [exact Hkept | by constructor].
Qed.

(** C8, as amended. For every stored message list and every positive
    [max_messages], [get_relevant_history] returns at most [max_messages]
    messages; when no customer id is given, that is [None] or the empty
    string, they are exactly the most recent [max_messages] messages in
    order; when a non-empty customer id is given, they are messages of the
    list, in order, and each of them carries that customer id in its
    [additional_kwargs]. *)
Theorem relevant_history_bounded_and_filtered self customer_id max_messages :
  0 < max_messages →
  let history := get_relevant_history self customer_id max_messages in
  Z.of_nat (length history) <= max_messages
  ∧ (no_customer_id customer_id = true →
     history = most_recent (Z.to_nat max_messages) (messages self))
  ∧ (∀ cid, customer_id = Some cid → cid ≠ EmptyString →
       Forall (carries_customer_id cid) history
       ∧ history `sublist_of` messages self).
Proof.
  intros Hmax history. subst history. unfold get_relevant_history.
  rewrite !slice_from_last by exact Hmax.
  split; [|split].
  - destruct (no_customer_id customer_id);
      match goal with
      | |- context [most_recent ?n ?l] => pose proof (most_recent_length n l)
      end; lia.
  - by intros ->.
  - intros cid -> Hne. cbn [no_customer_id default].
    destruct (String.eqb_spec cid EmptyString) as [->|_]; [done|].
    destruct (filter_by_customer_spec cid (messages self) [])
      as (Hall & kept & Heq & Hsub); [constructor|].
    split.
    + unfold most_recent. by apply Forall_drop.
    + change (id cid) with cid. rewrite Heq. cbn [app]. unfold most_recent.
      etrans; [apply sublist_drop | exact Hsub].
Qed.

End MemoryClaims.
End MemoryClaims.

(** ** The model at work: concrete runs *)

Module Runs.

Import Spec Demo.

(** The three stages on concrete replies. *)
Example extraction_of_whole_text :
  fst (@extract_json E_fenced "{}" world0) = inr (VDict ∅).
Proof. reflexivity. Qed.

Example extraction_of_fenced_block :
  fst (@extract_json E_fenced fenced_reply world0) = inr (VDict ∅).
Proof. vm_compute. reflexivity. Qed.

Example extraction_of_brace_span :
  fst (@extract_json E_fenced "Result: {} (done)" world0) = inr (VDict ∅).
Proof. vm_compute. reflexivity. Qed.

Example extraction_fails_without_json :
  fst (@TicketRouter._run_routing E_fenced "Where is my invoice?" None None
         (mkWorld 0 0 [] [] None))
  = inr (VDict ∅)
  ∧ fst (@TicketRouter._run_routing (externals (llm_constant "no json here"))
           "Where is my invoice?" None None world0)
    = inr (TicketRouter.routing_parse_failure "no json here").
Proof. split; vm_compute; reflexivity. Qed.

(** Counterexample to C1 as stated: the reply opens [too_deep] arrays, on
    which [json.loads] raises [RecursionError], and then gives an empty
    object in a fenced block. The whole text does not parse, it holds a
    fenced block, and the contents of the block parse; yet what ticket
    categorization and the CRM entry generator return is their fallback
    payload and not the parse of the block: the exception is no
    [JSONDecodeError], so it passes the inner [except] clause. *)
Lemma broken_parse_skips_the_fenced_block :
  @parsed E_deep deep_reply = None
  ∧ first_json_fence deep_reply "{}"
  ∧ @parsed E_deep "{}" = Some (VDict ∅)
  ∧ fst (@TicketRouter._run_categorization E_deep "Login" "Cannot log in" None
           None None world0)
    = inr (TicketRouter.categorization_parse_failure "Login" None None
             deep_reply)
  ∧ fst (@TicketRouter._run_categorization E_deep "Login" "Cannot log in" None
           None None world0)
    ≠ inr (VDict ∅)
  ∧ fst (@CRMEntryGenerator._run E_deep "John Smith" "Called about login" None
           world0)
    = inr (CRMEntryGenerator.parse_failure_entry "John Smith" deep_reply).
Proof.
  assert (Hloads : @json_loads E_deep deep_reply
                   = inl (Exn (OtherException "RecursionError")
                            "maximum recursion depth exceeded while decoding a JSON array from a unicode string"))
    by (vm_compute; reflexivity).
  assert (Hbroken : ∀ w, fst (@extract_json E_deep deep_reply w)
                         = inl (Exn (OtherException "RecursionError")
                                  "maximum recursion depth exceeded while decoding a JSON array from a unicode string")).
  { intros w. by rewrite (@ToolFacts.extract_json_broken E_deep _ _ w Hloads). }
  assert (Hcat : fst (@TicketRouter._run_categorization E_deep "Login"
                        "Cannot log in" None None None world0)
                 = inr (TicketRouter.categorization_parse_failure "Login" None
                          None deep_reply)).
  { rewrite (@ToolRuns.categorization_run E_deep). cbv zeta.
    change (@llm_outcome E_deep (llm_calls world0)
              (@TicketRouter.categorization_formatted_prompt "Login"
                 "Cannot log in" None None None)) with (@inr exn _ deep_reply).
    cbv beta iota. by rewrite Hbroken. }
  split; [unfold parsed; by rewrite Hloads|].
  split.
  { pose proof (SearchFacts.re_search_json_fence deep_reply) as Hfence.
    replace (PyStr.re_search_group json_fence_open json_fence_close deep_reply)
      with (Some "{}") in Hfence by (vm_compute; reflexivity).
    exact Hfence. }
  split; [reflexivity|]. split; [exact Hcat|]. split.
  - rewrite Hcat. intros Heq.
    apply (f_equal (fun r : exn + value =>
                      match r with
                      | inr (VDict d) => d !! "error"
                      | _ => None
                      end)) in Heq.
    vm_compute in Heq. discriminate.
  - rewrite (@ToolRuns.crm_entry_run E_deep). cbv zeta.
    change (@llm_outcome E_deep (llm_calls world0)
              (@CRMEntryGenerator.formatted_prompt E_deep "John Smith"
                 "Called about login" None)) with (@inr exn _ deep_reply).
    cbv beta iota. by rewrite Hbroken.
Qed.

(** Witness of C1 as amended: the hypothesis holds of the demo parser, and
    the theorem applies to a fenced reply. *)
Lemma json_extraction_stages_witness :
  (∀ v, @json_loads E_fenced EmptyString ≠ inr v)
  ∧ ∃ o, @extracts E_fenced fenced_reply o
         ∧ fst (@TicketRouter._run_routing E_fenced "Where is my invoice?" None
                  None world0)
           = inr (default (TicketRouter.routing_parse_failure fenced_reply) o).
Proof.
  assert (Hempty : ∀ v, @json_loads E_fenced EmptyString ≠ inr v)
    by (intros v; discriminate).
  split; [exact Hempty|].
  destruct (@ToolClaims.json_extraction_stages E_fenced fenced_reply Hempty)
    as (o & Ho & _ & Hroute & _).
  exists o. split; [exact Ho|].
  apply (Hroute "Where is my invoice?" None None world0). reflexivity.
Defined.

(** Witness of C9: the model is unreachable. *)
Lemma is_support_request_defaults_to_true_witness :
  @llm_outcome E_down (llm_calls world0)
    (TicketRouter.support_detection_formatted_prompt "Hello" "Please help")
  = inl (Exn (OtherException "APIConnectionError") "Connection error.")
  ∧ ∃ w', @TicketRouter.is_support_request E_down "Hello" "Please help" world0
          = (inr true, w')
          ∧ logged_error world0 w'.
Proof.
  split; [reflexivity|].
  apply (@ToolClaims.is_support_request_defaults_to_true E_down "Hello"
           "Please help" world0
           (Exn (OtherException "APIConnectionError") "Connection error.")).
  reflexivity.
Defined.

(** Counterexample to C3 as stated: at the boundary of support-request
    detection a failure of the model is answered with [True], which is what
    a positive answer of the model yields too: no error payload is
    returned there, whereas query routing, on the same failure, returns a
    dictionary with an [error] key. *)
Lemma detection_failure_returns_no_error_payload :
  fst (@TicketRouter.is_support_request E_down "Hello" "Please help" world0)
  = inr true
  ∧ fst (@TicketRouter.is_support_request (externals (llm_constant "Yes"))
           "Hello" "Please help" world0)
    = inr true
  ∧ has_key "error"
      (TicketRouter.routing_failure "Error routing query: Connection error.")
  ∧ fst (@TicketRouter._run_routing E_down "Hello" None None world0)
    = inr (TicketRouter.routing_failure "Error routing query: Connection error.").
Proof.
  split; [reflexivity|]. split; [vm_compute; reflexivity|].
  split; [|reflexivity].
  eexists. split; [reflexivity|]. vm_compute. eauto.
Qed.

(** The tools under a failing model, and under one that answers without
    JSON. *)
Example tools_report_failures :
  fst (@CustomerServiceAgent.summarize_email E_down "Hello" "Please help"
         "a@example.com" "2023-10-15" None world0)
  = inr "Failed to summarize email: Error summarizing email: Connection error."
  ∧ fst (@CRMEntryGenerator._run (externals (llm_constant "I cannot do that."))
           "John Smith" "Called about login" None world0)
    = inr (CRMEntryGenerator.parse_failure_entry "John Smith" "I cannot do that.").
Proof. split; vm_compute; reflexivity. Qed.

(** Two emails whose categorization cannot be submitted: both are started,
    both failures are logged, and the loop returns normally. *)
Example batch_goes_on_after_a_failure :
  fst (@CustomerServiceAgent.process_emails E_empty_object [an_email; an_email]
         world0) = inr tt
  ∧ steps_since world0
      (snd (@CustomerServiceAgent.process_emails E_empty_object
              [an_email; an_email] world0))
    = [Summarize; DetectSupport; Categorize; Summarize; DetectSupport; Categorize]
  ∧ length (List.filter is_error_record
              (log (snd (@CustomerServiceAgent.process_emails E_empty_object
                           [an_email; an_email] world0)))) = 2%nat.
Proof. repeat split; vm_compute; reflexivity. Qed.

(** A reply that is JSON but not an object: the tool returns the list, and
    the agent's logging of [result.get('category')] raises. *)
Example categorize_ticket_on_a_list :
  fst (@TicketRouter._run_categorization (externals (llm_constant "[]"))
         "Login" "Cannot log in" None None None world0) = inr (VList [])
  ∧ fst (@CustomerServiceAgent.categorize_ticket (externals (llm_constant "[]"))
           "Login" "Cannot log in" None None None world0)
    = inl (Exn AttributeError "'list' object has no attribute 'get'").
Proof. split; vm_compute; reflexivity. Qed.

(** The canned lookups. *)
Example crm_lookups :
  fst (CRMService.get_customer "CUST24680" world0)
  = inr (Some CRMService.michael_chen)
  ∧ fst (CRMService.get_customer "cust24680" world0) = inr None
  ∧ fst (CRMService.search_customers "JOHN" world0)
    = inr [CRMService.mkEntry "CUST12345" "John Smith" "john.smith@example.com"
             "ABC Corp";
           CRMService.mkEntry "CUST67890" "Sarah Johnson"
             "sarah.johnson@example.com" "XYZ Inc"]
  ∧ fst (CRMService.search_customers "zebra" world0) = inr [].
Proof. repeat split; vm_compute; reflexivity. Qed.

(** Counterexample to C6 as stated: detection says yes, the categorization
    is [{}], and the email is neither submitted as a ticket, nor entered in
    the CRM, nor marked as processed. *)
Lemma unsubmittable_categorization_ends_email :
  fst (@TicketRouter.is_support_request E_empty_object
         (EmailService.email_subject an_email) (EmailService.email_body an_email)
         (snd (@CustomerServiceAgent.summarize_email E_empty_object
                 (EmailService.email_subject an_email)
                 (EmailService.email_body an_email)
                 (EmailService.email_sender an_email)
                 (EmailService.email_date an_email)
                 (Some (EmailService.email_attachments an_email)) world0)))
  = inr true
  ∧ steps_since world0
      (snd (@CustomerServiceAgent.process_emails E_empty_object [an_email] world0))
    = [Summarize; DetectSupport; Categorize]
  ∧ steps_since world0
      (snd (@CustomerServiceAgent.process_emails E_empty_object [an_email] world0))
    ≠ steps_for true.
Proof.
  assert (Hsteps : steps_since world0
            (snd (@CustomerServiceAgent.process_emails E_empty_object
                    [an_email] world0))
          = [Summarize; DetectSupport; Categorize])
    by (vm_compute; reflexivity).
  split; [vm_compute; reflexivity|]. split; [exact Hsteps|].
  rewrite Hsteps. discriminate.
Qed.

(** With a categorization that has both fields, all seven steps are taken. *)
Example submittable_categorization_completes_email :
  steps_since world0
    (snd (@CustomerServiceAgent.process_emails (externals (llm_replying ticket_json))
            [an_email] world0))
  = steps_for true.
Proof. vm_compute. reflexivity. Qed.

(** With the model down, every tool falls back and the batch still takes
    all the steps for all five mock emails. *)
Example batch_with_model_down :
  fst (@CustomerServiceAgent.process_email_batch E_down world0) = inr tt
  ∧ length (trace (snd (@CustomerServiceAgent.process_email_batch E_down world0)))
    = 36%nat.
Proof. split; vm_compute; reflexivity. Qed.

(** Counterexample to C4 as stated: after one saved turn, an update puts a
    set into the context of a customer. [json.dump] raises on the set, the
    exception is caught and logged, and the file is left cut short: it
    holds no document, and so neither the two messages of the conversation
    nor the customer contexts, while the memory object holds them. *)
Lemma set_in_a_context_cuts_the_file_short :
  AgentMemory.persisted_messages after_a_turn.2
  = [mkStored "human" "hi"; mkStored "ai" "hello"]
  ∧ (∃ self' w',
       @AgentMemory.run_operation E_down a_set_update after_a_turn.1
         after_a_turn.2 = (inr self', w')
       ∧ length (AgentMemory.messages self') = 2%nat
       ∧ agent_memory_json w'
         = Some (Truncated (AgentMemory.customer_contexts self'))
       ∧ AgentMemory.persisted_messages w' = []
       ∧ last (List.filter is_error_record (log w'))
         = Some (LogRecord ERROR
                   "Error saving memory: Object of type set is not JSON serializable"))
  ∧ ¬ ∃ data,
        agent_memory_json
          (snd (@AgentMemory.run_operation E_down a_set_update after_a_turn.1
                  after_a_turn.2))
        = Some (Document data).
Proof.
  split; [vm_compute; reflexivity|]. split.
  - eexists _, _. split; [vm_compute; reflexivity|].
    repeat split; vm_compute; reflexivity.
  - intros [data Hdata]. vm_compute in Hdata. discriminate.
Qed.

(** Counterexample to C5 as stated: [clear] after one saved turn leaves an
    empty conversation in the file, where two messages were persisted. *)
Lemma clear_drops_persisted_messages :
  AgentMemory.persisted_messages after_a_turn.2
  = [mkStored "human" "hi"; mkStored "ai" "hello"]
  ∧ AgentMemory.persisted_messages
      (snd (@AgentMemory.run_operation E_down AgentMemory.Clear
              after_a_turn.1 after_a_turn.2)) = []
  ∧ ¬ AgentMemory.persisted_messages after_a_turn.2
      `prefix_of`
      AgentMemory.persisted_messages
        (snd (@AgentMemory.run_operation E_down AgentMemory.Clear
                after_a_turn.1 after_a_turn.2)).
Proof.
  assert (Hb : AgentMemory.persisted_messages after_a_turn.2
               = [mkStored "human" "hi"; mkStored "ai" "hello"])
    by (vm_compute; reflexivity).
  assert (Ha : AgentMemory.persisted_messages
                 (snd (@AgentMemory.run_operation E_down AgentMemory.Clear
                         after_a_turn.1 after_a_turn.2)) = [])
    by (vm_compute; reflexivity).
  split; [exact Hb|]. split; [exact Ha|].
  rewrite Hb, Ha. intros [k Hk]. discriminate.
Qed.

(** Why C5 as amended speaks of one memory object: two objects read the
    file while there is none; the first saves a turn, then the second saves
    another, and the file holds the second turn only. *)
Example second_writer_drops_messages :
  let first := @AgentMemory.loaded E_down world0 in
  let second := @AgentMemory.loaded E_down first.2 in
  let w1 := snd (@AgentMemory.run_operation E_down a_turn first.1 second.2) in
  let w2 := snd (@AgentMemory.run_operation E_down
                   (AgentMemory.SaveContext {[ "input" := Plain (VStr "bye") ]}
                      {[ "output" := "goodbye" ]}) second.1 w1) in
  AgentMemory.persisted_messages w1
  = [mkStored "human" "hi"; mkStored "ai" "hello"]
  ∧ AgentMemory.persisted_messages w2
    = [mkStored "human" "bye"; mkStored "ai" "goodbye"].
Proof. split; vm_compute; reflexivity. Qed.

(** Witness of C5 as amended: a context update after a saved turn. *)
Lemma writes_keep_messages_until_clear_witness :
  Forall known_type (AgentMemory.persisted_messages world0)
  ∧ AgentMemory.persisted_messages after_a_turn.2
    `prefix_of`
    AgentMemory.persisted_messages
      (snd (@AgentMemory.run_operation E_down an_update
              after_a_turn.1 after_a_turn.2)).
Proof.
  assert (Hknown : Forall known_type (AgentMemory.persisted_messages world0))
    by constructor.
  split; [exact Hknown|].
  exact (@MemoryClaims.writes_keep_messages_until_clear E_down world0 [a_turn]
           an_update Hknown).
Defined.

(** Counterexample to C8 as stated: the empty string is a customer id of
    type [str], yet the history returned for it is not filtered: its
    messages do not carry it. *)
Lemma empty_customer_id_is_not_a_filter :
  AgentMemory.get_relevant_history a_memory (Some EmptyString) 10
  = AgentMemory.messages a_memory
  ∧ ¬ Forall (carries_customer_id EmptyString)
        (AgentMemory.get_relevant_history a_memory (Some EmptyString) 10).
Proof.
  split; [reflexivity|].
  intros Hall. apply Forall_cons in Hall as [Hfirst _].
  unfold carries_customer_id in Hfirst. cbn in Hfirst. discriminate.
Qed.

(** Witness of C8 as amended: the two most recent of three messages. *)
Lemma relevant_history_bounded_and_filtered_witness :
  0 < 2
  ∧ Z.of_nat (length (AgentMemory.get_relevant_history a_memory None 2)) <= 2
  ∧ AgentMemory.get_relevant_history a_memory None 2
    = most_recent 2 (AgentMemory.messages a_memory).
Proof.
  assert (Hpos : 0 < 2) by lia.
  split; [exact Hpos|].
  destruct (MemoryClaims.relevant_history_bounded_and_filtered a_memory None 2 Hpos)
    as (Hlen & Hrecent & _).
  split; [exact Hlen | exact (Hrecent eq_refl)].
Defined.

End Runs.

(* ===================================================================== *)
(** * Part III: further properties of the code                            *)
(* ===================================================================== *)

(** ** Further properties of the conversation memory *)

Module MemoryRoundTrip.
Section MemoryRoundTrip.
Context `{Externals}.

Import Spec Notions MonadFacts AgentMemory MemoryFacts.

(** The loop of [_load_memory] keeps the stored messages of a known type,
    in order, and appends a message for each. *)
Lemma load_messages_eq stored self :
  load_messages stored self
  = mkMemory (messages self ++ map message_of (List.filter is_known_type stored))
      (customer_contexts self).
Proof.
  revert self. induction stored as [|[ty c] stored IH]; intros self.
  - cbn. rewrite List.app_nil_r. by destruct self.
  - cbn [load_messages stored_type stored_content List.filter].
    replace (is_known_type (mkStored ty c))
      with (String.eqb ty "human" || String.eqb ty "ai"
            || String.eqb ty "system") by reflexivity.
    rewrite IH.
    destruct (String.eqb ty "human") eqn:Hh;
      [|destruct (String.eqb ty "ai") eqn:Ha;
        [|destruct (String.eqb ty "system") eqn:Hs]];
      cbn [orb map messages customer_contexts add_message];
      try (change (message_of (mkStored ty c))
             with (mkMessage
                     (if String.eqb ty "human" then HumanMessage
                      else if String.eqb ty "ai" then AIMessage
                      else SystemMessage) c ∅);
           rewrite ?Hh, ?Ha);
      rewrite <- ?List.app_assoc; reflexivity.
Qed.

(** The loop of [_save_memory] writes the messages of the three classes, in
    order, and skips the others. *)
Lemma dump_messages_eq msgs :
  dump_messages msgs [] = map stored_of (List.filter is_role_tagged msgs).
Proof.
  induction msgs as [|m msgs IH]; [reflexivity|].
  cbn [dump_messages List.filter]. rewrite dump_messages_acc, IH.
  unfold is_role_tagged at 1.
  destruct m as [cls c kw]. cbn [message_cls content].
  by destruct cls.
Qed.

(** What was written comes back. *)
Lemma stored_messages_reload msgs :
  map message_of (List.filter is_known_type
                    (map stored_of (List.filter is_role_tagged msgs)))
  = map reloaded (List.filter is_role_tagged msgs).
Proof.
  induction msgs as [|m msgs IH]; [reflexivity|].
  cbn [List.filter]. destruct m as [cls c kw].
  destruct cls; cbn [is_role_tagged message_cls map List.filter]; try exact IH;
    (change (is_known_type (stored_of (mkMessage _ c kw))) with true
     || idtac);
    cbn [map]; rewrite IH; reflexivity.
Qed.

(** X1. What [_save_memory] writes, [_load_memory] reads back. After a
    save of any memory object that [json.dump] completes, a memory object
    that reads the file holds the customer contexts as they were written and
    the messages of the three saved classes (human, AI, system) in the same
    order, each with its class and content; a message of another class is
    not saved, and [additional_kwargs] do not survive; no error is logged.
    After a save that [json.dump] does not complete, the file is cut short
    and a memory object that reads it stays empty: the conversation and the
    customer contexts are lost for it, and two errors are logged, one by the
    save and one by the load. Neither the save nor the load raises. *)
Theorem saved_memory_is_read_back self w :
  ∃ w1 reloaded_memory w2,
    _save_memory self w = (inr tt, w1)
    ∧ _load_memory empty_memory w1 = (inr reloaded_memory, w2)
    ∧ match json_dump_contexts (customer_contexts self) with
      | inr written =>
          reloaded_memory
          = mkMemory (map reloaded (List.filter is_role_tagged (messages self)))
              (loaded_contexts written)
          ∧ errors_since w w2 = []
      | inl e =>
          agent_memory_json w1 = Some (Truncated (customer_contexts self))
          ∧ reloaded_memory = empty_memory
          ∧ errors_since w w2
            = [LogRecord ERROR ("Error saving memory: " +:+ exn_str e);
               LogRecord ERROR
                 ("Error loading memory: "
                  +:+ json_load_truncated (customer_contexts self))]
      end.
Proof.
  exists (snd (_save_memory self w)).
  rewrite load_memory_run, !save_memory_run. cbn [snd].
  unfold errors_since, empty_memory.
  destruct (json_dump_contexts (customer_contexts self)) as [e|written];
    cbn [agent_memory_json]; eexists _, _;
    (split; [reflexivity|]); (split; [reflexivity|]).
  - split; [reflexivity|]. split; [reflexivity|].
    cbn [logger_error logger snd log].
    by rewrite <- List.app_assoc, drop_app_length.
  - split.
    + rewrite load_messages_eq. cbn [messages customer_contexts file_messages
        file_customer_contexts app].
      by rewrite dump_messages_eq, stored_messages_reload.
    + cbn [logger_info logger snd log].
      by rewrite <- List.app_assoc, drop_app_length.
Qed.

(** X2. [AgentMemory()] raises [ValueError] at its first assignment,
    before anything is read or logged. [_load_memory] itself never raises
    and never writes: the memory file is afterwards what it was. Without a
    file the object stays as it is; from a document it takes the customer
    contexts and appends, in order, one message for each stored message
    whose type is [human], [ai] or [system], passing over stored messages of
    any other type; on a file cut short it logs the error and leaves the
    object as it is. *)
Theorem load_memory_reads_known_messages w :
  (∃ e, __init__ w = (inl e, w) ∧ exn_cls e = ValueError)
  ∧ ∀ self,
      ∃ self' w',
        _load_memory self w = (inr self', w')
        ∧ agent_memory_json w' = agent_memory_json w
        ∧ match agent_memory_json w with
          | None => self' = self ∧ w' = w
          | Some (Document data) =>
              customer_contexts self'
              = loaded_contexts (file_customer_contexts data)
              ∧ messages self'
                = messages self
                  ++ map message_of
                       (List.filter is_known_type (file_messages data))
              ∧ errors_since w w' = []
          | Some (Truncated contexts) =>
              self' = self
              ∧ errors_since w w'
                = [LogRecord ERROR ("Error loading memory: "
                                    +:+ json_load_truncated contexts)]
          end.
Proof.
  split.
  - destruct (init_run w) as [msg ->]. by eexists.
  - intros self. rewrite load_memory_run. unfold errors_since.
    destruct (agent_memory_json w) as [[data|contexts]|] eqn:Hfile;
      eexists _, _; (split; [reflexivity|]);
      cbn [logger_info logger_error logger snd agent_memory_json log].
    + split; [exact Hfile|]. rewrite load_messages_eq.
      cbn [messages customer_contexts]. split; [reflexivity|].
      split; [reflexivity|]. by rewrite drop_app_length.
    + split; [exact Hfile|]. split; [reflexivity|]. by rewrite drop_app_length.
    + split; [exact Hfile|]. by split.
Qed.

(** The messages that the program itself puts in memory carry no
    [additional_kwargs]. *)
Lemma start_bare w0 : Forall bare (messages (start w0).1).
Proof. rewrite start_run. constructor. Qed.

Lemma loaded_bare w0 : Forall bare (messages (loaded w0).1).
Proof.
  unfold loaded. rewrite load_memory_run.
  destruct (agent_memory_json w0) as [[data|contexts]|]; cbn [fst];
    try constructor.
  rewrite load_messages_eq. cbn [messages app].
  apply Forall_forall. intros m Hm. apply list_elem_of_In in Hm.
  apply in_map_iff in Hm as (s & <- & _). reflexivity.
Qed.

Lemma run_operation_bare op self w :
  Forall bare (messages self) →
  ∀ self' w', run_operation op self w = (inr self', w') →
              Forall bare (messages self').
Proof.
  intros Hbare self' w'. destruct op as [inputs outputs|customer_id data|];
    cbn [run_operation].
  - rewrite save_context_run.
    destruct (get_input_output inputs outputs) as [e|[i o]]; [discriminate|].
    intros [= <- _]. cbn [messages add_message].
    rewrite !Forall_app. repeat split; [exact Hbare | |]; by repeat constructor.
  - rewrite update_customer_context_run. by intros [= <- _].
  - rewrite clear_run. intros [= <- _]. constructor.
Qed.

Lemma run_operations_bare ops self w :
  Forall bare (messages self) →
  Forall bare (messages (run_operations ops self w).1).
Proof.
  revert self w. induction ops as [|op ops IH]; intros self w Hbare;
    [exact Hbare|].
  cbn [run_operations].
  destruct (run_operation op self w) as [[e|self'] w'] eqn:Hop.
  - by apply IH.
  - apply IH. by eapply run_operation_bare.
Qed.

Lemma filter_by_customer_bare customer_id all_messages relevant_messages :
  Forall bare all_messages →
  filter_by_customer customer_id all_messages relevant_messages
  = relevant_messages.
Proof.
  intros Hbare. revert relevant_messages.
  induction Hbare as [|m msgs Hm _ IH]; intros relevant; [reflexivity|].
  cbn [filter_by_customer]. unfold bare in Hm. rewrite Hm, lookup_empty.
  cbn. apply IH.
Qed.

(** X3. No message that the program puts in memory carries a customer id:
    [_load_memory] and [save_context] build messages from their content
    alone. So on a memory object that the agent created and operated on in
    any way, the history asked for a (non-empty) customer id is empty,
    whatever was said in the conversation; and the same holds of a memory
    object that has read the memory file, whatever the file holds. *)
Theorem history_by_customer_is_empty w0 ops customer_id max_messages :
  customer_id ≠ EmptyString →
  get_relevant_history (run_operations ops (start w0).1 (start w0).2).1
    (Some customer_id) max_messages = []
  ∧ get_relevant_history (run_operations ops (loaded w0).1 (loaded w0).2).1
      (Some customer_id) max_messages = [].
Proof.
  intros Hne. unfold get_relevant_history. cbn [no_customer_id].
  destruct (String.eqb_spec customer_id EmptyString) as [->|_]; [done|].
  rewrite !filter_by_customer_bare
    by (apply run_operations_bare; first [apply start_bare | apply loaded_bare]).
  unfold PyList.slice_from. by rewrite !drop_nil.
Qed.

(** X4. [max_messages] bounds the history only when it is positive: the
    slice [all_messages[-max_messages:]] with [max_messages = 0] is the
    whole list, and with a negative [max_messages] it is the list without
    its first [-max_messages] messages. *)
Theorem history_limit_below_one self customer_id max_messages :
  max_messages <= 0 →
  no_customer_id customer_id = true →
  get_relevant_history self customer_id max_messages
  = drop (Z.to_nat (- max_messages)) (messages self)
  ∧ (max_messages = 0 →
     get_relevant_history self customer_id max_messages = messages self).
Proof.
  intros Hmax Hno. unfold get_relevant_history. rewrite Hno.
  assert (Heq : PyList.slice_from (messages self) (- max_messages)
                = drop (Z.to_nat (- max_messages)) (messages self)).
  { unfold PyList.slice_from, PyStr.slice_bound.
    destruct (Z.ltb_spec (- max_messages) 0); [lia|].
    destruct (Z.le_gt_cases (- max_messages) (Z.of_nat (length (messages self)))).
    - by rewrite Z.min_l.
    - rewrite Z.min_r by lia. rewrite Nat2Z.id.
      rewrite !drop_ge; [reflexivity | lia | lia]. }
  split; [exact Heq|]. intros ->. exact Heq.
Qed.

(** X5. [update_customer_context] followed by [get_customer_context]: the
    context of the customer holds every key of the update with its new
    value, keeps the keys it had that the update does not mention, and has
    [last_updated] set to the time of the update, also when the update
    itself gives a [last_updated]. The contexts of other customers and the
    conversation are untouched. The operation never raises, whatever the
    update holds: when [json.dump] can serialise the new contexts they are
    what the file holds afterwards, and when it cannot the file is left cut
    short and the error is logged, while the memory object is updated all
    the same. *)
Theorem customer_context_update_then_get self customer_id context_data w :
  ∃ self' w',
    update_customer_context self customer_id context_data w = (inr self', w')
    ∧ messages self' = messages self
    ∧ get_customer_context self' customer_id !! "last_updated"
      = Some (Plain (VStr (isoformat_now (clock w) 0)))
    ∧ (∀ key, key ≠ "last_updated" →
         get_customer_context self' customer_id !! key
         = match context_data !! key with
           | Some v => Some v
           | None => get_customer_context self customer_id !! key
           end)
    ∧ (∀ other, other ≠ customer_id →
         get_customer_context self' other = get_customer_context self other)
    ∧ match json_dump_contexts (customer_contexts self') with
      | inr written =>
          (∃ data, agent_memory_json w' = Some (Document data)
                   ∧ file_customer_contexts data = written)
          ∧ errors_since w w' = []
      | inl e =>
          agent_memory_json w' = Some (Truncated (customer_contexts self'))
          ∧ errors_since w w'
            = [LogRecord ERROR ("Error saving memory: " +:+ exn_str e)]
      end.
Proof.
  rewrite update_customer_context_run. cbv zeta. eexists _, _.
  split; [reflexivity|]. cbn [messages customer_contexts].
  split; [reflexivity|]. unfold get_customer_context, updated_contexts.
  cbn [customer_contexts]. split; [|split; [|split]].
  - rewrite (lookup_insert_eq (M:=gmap string)). cbn [from_option id].
    by rewrite (lookup_insert_eq (M:=gmap string)).
  - intros key Hkey. rewrite (lookup_insert_eq (M:=gmap string)).
    cbn [from_option id].
    rewrite (lookup_insert_ne (M:=gmap string)) by done.
    rewrite (lookup_union (M:=gmap string)).
    destruct (context_data !! key) as [v|];
      destruct (default ∅ (customer_contexts self !! customer_id) !! key);
      reflexivity.
  - intros other Hother. by rewrite (lookup_insert_ne (M:=gmap string)).
  - rewrite save_memory_run. cbn [customer_contexts]. unfold errors_since.
    destruct (json_dump_contexts _) as [e|written];
      cbn [logger_info logger snd agent_memory_json log datetime_now].
    + split; [reflexivity|].
      by rewrite <- List.app_assoc, drop_app_length.
    + split; [eexists; split; reflexivity|].
      by rewrite <- List.app_assoc, drop_app_length.
Qed.

(** X6. [clear] empties the conversation and nothing else: the customer
    contexts stay in the memory object. When [json.dump] can serialise
    them they stay in the file too, and a memory object that reads the file
    after the [clear] has an empty conversation and the contexts as they
    were written; when it cannot, the file is cut short and a memory object
    that reads it has neither conversation nor contexts. *)
Theorem clear_keeps_customer_contexts self w :
  ∃ self' w' reloaded_memory w'',
    clear self w = (inr self', w')
    ∧ messages self' = []
    ∧ customer_contexts self' = customer_contexts self
    ∧ (∀ customer_id,
         get_customer_context self' customer_id
         = get_customer_context self customer_id)
    ∧ _load_memory empty_memory w' = (inr reloaded_memory, w'')
    ∧ match json_dump_contexts (customer_contexts self) with
      | inr written => reloaded_memory = mkMemory [] (loaded_contexts written)
      | inl e =>
          agent_memory_json w' = Some (Truncated (customer_contexts self))
          ∧ reloaded_memory = empty_memory
      end.
Proof.
  exists (mkMemory [] (customer_contexts self)),
    (snd (_save_memory (mkMemory [] (customer_contexts self)) w)).
  rewrite clear_run, load_memory_run, !save_memory_run.
  cbn [customer_contexts messages snd]. unfold empty_memory.
  destruct (json_dump_contexts (customer_contexts self)) as [e|written];
    cbn [agent_memory_json]; eexists _, _;
    (split; [reflexivity|]); (split; [reflexivity|]);
    (split; [reflexivity|]); (split; [reflexivity|]);
    (split; [reflexivity|]).
  - by split.
  - reflexivity.
Qed.

(** X7. The memory keeps to itself: creating it and changing it, by
    [save_context], [update_customer_context] or [clear], never invokes the
    chat model and never calls a service, and neither does reading the
    memory file. *)
Theorem memory_operations_call_nothing :
  calls_nothing __init__
  ∧ (∀ op self, calls_nothing (run_operation op self))
  ∧ ∀ self, calls_nothing (_load_memory self).
Proof.
  split; [|split].
  - intros w. destruct (init_run w) as [msg ->]. split; reflexivity.
  - intros op self w. destruct op as [inputs outputs|customer_id data|];
      cbn [run_operation].
    + rewrite save_context_run.
      destruct (get_input_output inputs outputs) as [e|[i o]];
        [split; reflexivity|].
      cbv zeta. rewrite save_memory_run.
      destruct (json_dump_contexts _); split; reflexivity.
    + rewrite update_customer_context_run. cbv zeta. rewrite save_memory_run.
      destruct (json_dump_contexts _); split; reflexivity.
    + rewrite clear_run, save_memory_run.
      destruct (json_dump_contexts _); split; reflexivity.
  - intros self w. rewrite load_memory_run.
    destruct (agent_memory_json w) as [[data|contexts]|]; split; reflexivity.
Qed.

End MemoryRoundTrip.
End MemoryRoundTrip.

(** ** Further properties of the tools, the agent and the endpoints *)

Module ReplyFacts.
Section ReplyFacts.
Context `{Externals}.

Import PyStr Spec PyStrFacts MonadFacts ToolFacts ToolRuns.

(** The first three characters of a string. *)
Lemma slice_to_3 s :
  slice_to s 3
  = match s with
    | String a (String b (String c _)) => String a (String b (String c EmptyString))
    | _ => s
    end.
Proof.
  unfold slice_to, slice, slice_bound.
  destruct s as [|a [|b [|c t]]]; try reflexivity.
  cbn [String.length Z.ltb Z.compare].
  rewrite Z.min_l by lia. rewrite Z.min_l by lia.
  change (Z.to_nat (3 - 0)) with 3%nat. change (Z.to_nat 0) with 0%nat.
  cbn [String.substring]. by rewrite SliceFacts.substring_n_0.
Qed.

Lemma startswith_contains p s : startswith p s = true → contains p s = true.
Proof.
  intros Hp. unfold contains. rewrite find_nat_unfold, Hp. reflexivity.
Qed.

(** A reply that parses is extracted as it is. *)
Lemma extract_json_whole content v w :
  json_loads content = inr v → extract_json content w = (inr v, w).
Proof.
  intros Hv. unfold extract_json, try_except_class, loads. by rewrite Hv.
Qed.

(** [result.get(key)] on an object that is no dictionary. *)
Lemma get_raises (v : value) key w :
  (∀ d, v ≠ VDict d) →
  get v key w
  = (inl (Exn AttributeError ("'" +:+ type_name v
                              +:+ "' object has no attribute 'get'")), w).
Proof. intros Hv. destruct v; try reflexivity. by destruct (Hv d). Qed.

(** The agent's [categorize_ticket], from the result of the tool. *)
Lemma agent_categorize_ticket_run title description customer_id priority
    category w :
  let w0 := snd (logger_info ("Categorizing ticket: " +:+ title) w) in
  ∀ result w1,
    TicketRouter._run_categorization title description customer_id priority
      category w0 = (inr result, w1) →
    CustomerServiceAgent.categorize_ticket title description customer_id
      priority category w
    = match result with
      | VDict d =>
          (inr result,
           snd (logger_info
                  ("Ticket categorized as "
                   +:+ format_value (default VNone (d !! "category"))
                   +:+ " with "
                   +:+ format_value (default VNone (d !! "priority"))
                   +:+ " priority") w1))
      | _ =>
          (inl (Exn AttributeError ("'" +:+ type_name result
                                    +:+ "' object has no attribute 'get'")), w1)
      end.
Proof.
  intros w0 result w1 Hrun.
  unfold CustomerServiceAgent.categorize_ticket, TicketRouter.categorize_ticket.
  rewrite bind_run. cbn [logger_info logger].
  cbn [logger_info logger snd] in w0. subst w0.
  rewrite (bind_inr _ _ _ _ _ Hrun).
  destruct result; reflexivity.
Qed.

(** The agent's [route_query], from the result of the tool. *)
Lemma agent_route_query_run query customer_id context w :
  let w0 := snd (logger_info ("Routing customer query: "
                              +:+ slice_to query 50 +:+ "...") w) in
  ∀ routing w1,
    TicketRouter._run_routing query customer_id (Some (default ∅ context)) w0
    = (inr routing, w1) →
    CustomerServiceAgent.route_query query customer_id context w
    = match routing with
      | VDict d =>
          (inr routing,
           snd (logger_info
                  ("Query routed to "
                   +:+ format_value (default VNone (d !! "department"))) w1))
      | _ =>
          (inl (Exn AttributeError ("'" +:+ type_name routing
                                    +:+ "' object has no attribute 'get'")), w1)
      end.
Proof.
  intros w0 routing w1 Hrun.
  unfold CustomerServiceAgent.route_query, TicketRouter.route_query.
  rewrite bind_run. cbn [logger_info logger].
  cbn [logger_info logger snd] in w0. subst w0.
  rewrite (bind_inr _ _ _ _ _ Hrun).
  destruct routing; reflexivity.
Qed.

(** The tools always return. *)
Lemma categorization_returns title description customer_id priority category w :
  ∃ result w',
    TicketRouter._run_categorization title description customer_id priority
      category w = (inr result, w')
    ∧ llm_calls w' = S (llm_calls w)
    ∧ match llm_outcome (llm_calls w)
              (TicketRouter.categorization_formatted_prompt title description
                 customer_id priority category) with
      | inl e =>
          result = TicketRouter.categorization_failure title priority category
                     ("Error categorizing ticket: " +:+ exn_str e)
      | inr content =>
          match fst (extract_json content w) with
          | inr v => result = v
          | inl _ =>
              result = TicketRouter.categorization_parse_failure title priority
                         category content
          end
      end.
Proof.
  rewrite categorization_run. cbv zeta.
  destruct (llm_outcome _ _) as [e|content];
    [|destruct (fst (extract_json content w)) as [e|v]];
    eexists _, _; (split; [reflexivity|]); split; reflexivity.
Qed.

Lemma routing_returns query customer_id context w :
  ∃ result w',
    TicketRouter._run_routing query customer_id context w = (inr result, w')
    ∧ llm_calls w' = S (llm_calls w)
    ∧ match llm_outcome (llm_calls w)
              (TicketRouter.routing_formatted_prompt query customer_id context)
      with
      | inl e =>
          result = TicketRouter.routing_failure
                     ("Error routing query: " +:+ exn_str e)
      | inr content =>
          match fst (extract_json content w) with
          | inr v => result = v
          | inl _ => result = TicketRouter.routing_parse_failure content
          end
      end.
Proof.
  rewrite routing_run. cbv zeta.
  destruct (llm_outcome _ _) as [e|content];
    [|destruct (fst (extract_json content w)) as [e|v]];
    eexists _, _; (split; [reflexivity|]); split; reflexivity.
Qed.

(** The extraction does not read the world. *)
Lemma extract_json_any_world content w w0 :
  fst (extract_json content w) = fst (extract_json content w0).
Proof. by rewrite (extract_json_pure content w w0). Qed.

(** X8. Support-request detection reads a reply in ASCII as follows: the
    reply is trimmed and lowercased; the answer is yes exactly when [yes]
    occurs in it and [no] does not occur in its first three characters. So
    a reply that starts with [yes] is a support request, a reply that starts
    with [no] is not, even when [yes] occurs later in it, and a reply
    without [yes] is not. The reply is logged at level [INFO], never as an
    error. (On a reply that is not ASCII, Python trims and lowercases
    characters that the bytewise [strip] and [lower] leave alone.) *)
Theorem detection_reads_the_reply subject message response w :
  llm_outcome (llm_calls w)
    (TicketRouter.support_detection_formatted_prompt subject message)
  = inr response →
  is_ascii response = true →
  let content := lower (strip response) in
  ∃ is_support w',
    TicketRouter.is_support_request subject message w = (inr is_support, w')
    ∧ (is_support = true
       ↔ occurs "yes" content ∧ ¬ occurs "no" (slice_to content 3))
    ∧ (startswith "yes" content = true → is_support = true)
    ∧ (startswith "no" content = true → is_support = false)
    ∧ ¬ logged_error w w'.
Proof.
  intros Hllm _ content.
  unfold TicketRouter.is_support_request, try_except, mbind, M_bind, llm_invoke.
  cbn [fst snd]. rewrite Hllm. cbn [logger_info logger].
  fold content. eexists _, _. split; [reflexivity|].
  clearbody content. split; [|split; [|split]].
  - rewrite andb_true_iff, negb_true_iff, contains_spec, contains_false.
    reflexivity.
  - intros Hyes. rewrite (startswith_contains _ _ Hyes). cbn [andb].
    apply startswith_spec in Hyes as [t ->]. rewrite slice_to_3. reflexivity.
  - intros Hno. apply andb_false_iff. right. apply negb_false_iff.
    apply startswith_contains.
    apply startswith_spec in Hno as [t ->]. rewrite slice_to_3.
    by destruct t.
  - intros [msg Hin]. cbn [log] in Hin.
    rewrite drop_app_length in Hin.
    apply list_elem_of_singleton in Hin. discriminate.
Qed.

(** X9. A reply that is JSON but no JSON object (a list, a string, a
    number, [null]) passes the tools and breaks the agent: the router
    returns the parsed value, and [categorize_ticket] and [route_query] of
    the agent, which read [result.get(...)] for their log line outside any
    [try], raise [AttributeError]. *)
Theorem non_object_reply_raises_in_agent content v :
  json_loads content = inr v →
  (∀ d, v ≠ VDict d) →
  let e := Exn AttributeError ("'" +:+ type_name v
                               +:+ "' object has no attribute 'get'") in
  (∀ title description customer_id priority category w,
     llm_outcome (llm_calls w)
       (TicketRouter.categorization_formatted_prompt title description
          customer_id priority category) = inr content →
     fst (TicketRouter.categorize_ticket title description customer_id
            priority category w) = inr v
     ∧ fst (CustomerServiceAgent.categorize_ticket title description
              customer_id priority category w) = inl e)
  ∧ (∀ query customer_id context w,
       llm_outcome (llm_calls w)
         (TicketRouter.routing_formatted_prompt query customer_id
            (Some (default ∅ context))) = inr content →
       fst (TicketRouter.route_query query customer_id
              (Some (default ∅ context)) w) = inr v
       ∧ fst (CustomerServiceAgent.route_query query customer_id context w)
         = inl e).
Proof.
  intros Hv Hnd e. split.
  - intros title description customer_id priority category w Hllm.
    assert (Hrun : ∀ w0, llm_calls w0 = llm_calls w →
              ∃ w1, TicketRouter._run_categorization title description
                      customer_id priority category w0 = (inr v, w1)).
    { intros w0 Hcalls. rewrite categorization_run. cbv zeta.
      rewrite Hcalls, Hllm, (extract_json_whole content v w0 Hv).
      eexists. reflexivity. }
    split.
    + unfold TicketRouter.categorize_ticket.
      destruct (Hrun w eq_refl) as [w1 ->]. reflexivity.
    + destruct (Hrun (snd (logger_info ("Categorizing ticket: " +:+ title) w))
                  eq_refl) as [w1 Hw1].
      rewrite (agent_categorize_ticket_run _ _ _ _ _ _ _ _ Hw1).
      destruct v; try reflexivity. by destruct (Hnd d).
  - intros query customer_id context w Hllm.
    assert (Hrun : ∀ w0, llm_calls w0 = llm_calls w →
              ∃ w1, TicketRouter._run_routing query customer_id
                      (Some (default ∅ context)) w0 = (inr v, w1)).
    { intros w0 Hcalls. rewrite routing_run. cbv zeta.
      rewrite Hcalls, Hllm, (extract_json_whole content v w0 Hv).
      eexists. reflexivity. }
    split.
    + unfold TicketRouter.route_query.
      destruct (Hrun w eq_refl) as [w1 ->]. reflexivity.
    + destruct (Hrun (snd (logger_info ("Routing customer query: "
                                        +:+ slice_to query 50 +:+ "...") w))
                  eq_refl) as [w1 Hw1].
      rewrite (agent_route_query_run _ _ _ _ _ _ Hw1).
      destruct v; try reflexivity. by destruct (Hnd d).
Qed.

(** X10. The endpoints [/summarize-email] and [/create-crm-entry] never
    answer with an [HTTPException]: whatever the chat model and the parser
    do, they return a body. The summary in it is the reply of the model,
    unchanged, and a failure of the model is reported inside the body too,
    as the [Failed to summarize email] text or as a CRM entry with an
    [error] key. *)
Theorem summary_and_crm_endpoints_always_answer w :
  (∀ subject body sender date attachments,
     ∃ summary w',
       Main.summarize_email subject body sender date attachments w
       = (inr (VDict {[ "summary" := VStr summary ]}), w')
       ∧ (∀ e,
            llm_outcome (llm_calls w)
              (EmailSummarizer.formatted_prompt subject body sender date
                 (Some (default [] attachments))) = inl e →
            summary = "Failed to summarize email: Error summarizing email: "
                      +:+ exn_str e)
       ∧ ∀ reply,
           llm_outcome (llm_calls w)
             (EmailSummarizer.formatted_prompt subject body sender date
                (Some (default [] attachments))) = inr reply →
           summary = reply)
  ∧ (∀ customer_name interaction_details additional_info,
       ∃ crm_entry w',
         Main.create_crm_entry customer_name interaction_details
           additional_info w
         = (inr (VDict {[ "crm_entry" := crm_entry ]}), w')
         ∧ ∀ e,
             llm_outcome (llm_calls w)
               (CRMEntryGenerator.formatted_prompt customer_name
                  interaction_details (Some (default ∅ additional_info)))
             = inl e →
             has_key "error" crm_entry).
Proof.
  split.
  - intros subject body sender date attachments.
    unfold Main.summarize_email, Main.answer,
      CustomerServiceAgent.summarize_email, EmailSummarizer.summarize_email.
    rewrite bind_run. cbn [logger_info logger]. rewrite bind_run.
    rewrite summarizer_run. cbv zeta.
    cbn [llm_calls clock log trace agent_memory_json].
    destruct (llm_outcome _ _) as [e|summary]; rewrite bind_run;
      cbn [logger_info logger]; eexists _, _; (split; [reflexivity|]).
    + split; [by intros e' [= <-] | intros reply [=]].
    + split; [intros e' [=] | by intros reply [= <-]].
  - intros customer_name interaction_details additional_info.
    unfold Main.create_crm_entry, Main.answer,
      CustomerServiceAgent.create_crm_entry, CRMEntryGenerator.create_crm_entry.
    rewrite bind_run. cbn [logger_info logger]. rewrite bind_run.
    rewrite crm_entry_run. cbv zeta.
    cbn [llm_calls clock log trace agent_memory_json].
    destruct (llm_outcome _ _) as [e|content];
      [|destruct (fst (extract_json content _)) as [e|result]];
      rewrite bind_run; cbn [logger_info logger];
      eexists _, _; (split; [reflexivity|]); intros e' [=].
    apply (failure_payloads_have_error EmptyString None None EmptyString _
             customer_name).
Qed.

(** The detail of the [HTTPException] that an endpoint raises when the
    agent read [.get] on [v]. *)
Local Abbreviation no_get what v :=
  (Main.mkHTTPException 500
     (what +:+ ": '" +:+ type_name v +:+ "' object has no attribute 'get'")).

(** The endpoint [/categorize-ticket], case by case. *)
Lemma categorize_endpoint_run title description customer_id priority category w :
  fst (Main.categorize_ticket title description customer_id priority category w)
  = match llm_outcome (llm_calls w)
            (TicketRouter.categorization_formatted_prompt title description
               customer_id priority category) with
    | inl e =>
        inr (TicketRouter.categorization_failure title priority category
               ("Error categorizing ticket: " +:+ exn_str e))
    | inr content =>
        match fst (extract_json content w) with
        | inl _ =>
            inr (TicketRouter.categorization_parse_failure title priority
                   category content)
        | inr (VDict d) => inr (VDict d)
        | inr v => inl (no_get "Error categorizing ticket" v)
        end
    end.
Proof.
  unfold Main.categorize_ticket, Main.answer.
  set (w0 := snd (logger_info ("Categorizing ticket: " +:+ title) w)).
  destruct (categorization_returns title description customer_id priority
              category w0) as (result & w1 & Hrun & _ & Hresult).
  rewrite (agent_categorize_ticket_run _ _ _ _ _ _ _ _ Hrun).
  change (llm_calls w0) with (llm_calls w) in Hresult.
  destruct (llm_outcome (llm_calls w) _) as [e|content]; [by subst result|].
  rewrite (extract_json_any_world _ w0 w) in Hresult.
  destruct (fst (extract_json content w)) as [e|v]; [by subst result|].
  subst result. by destruct v.
Qed.

(** The endpoint [/route-query], case by case. *)
Lemma route_endpoint_run query customer_id context w :
  fst (Main.route_query query customer_id context w)
  = match llm_outcome (llm_calls w)
            (TicketRouter.routing_formatted_prompt query customer_id
               (Some (default ∅ context))) with
    | inl e =>
        inr (TicketRouter.routing_failure ("Error routing query: " +:+ exn_str e))
    | inr content =>
        match fst (extract_json content w) with
        | inl _ => inr (TicketRouter.routing_parse_failure content)
        | inr (VDict d) => inr (VDict d)
        | inr v => inl (no_get "Error routing query" v)
        end
    end.
Proof.
  unfold Main.route_query, Main.answer.
  set (w0 := snd (logger_info ("Routing customer query: "
                               +:+ slice_to query 50 +:+ "...") w)).
  destruct (routing_returns query customer_id (Some (default ∅ context)) w0)
    as (result & w1 & Hrun & _ & Hresult).
  rewrite (agent_route_query_run _ _ _ _ _ _ Hrun).
  change (llm_calls w0) with (llm_calls w) in Hresult.
  destruct (llm_outcome (llm_calls w) _) as [e|content]; [by subst result|].
  rewrite (extract_json_any_world _ w0 w) in Hresult.
  destruct (fst (extract_json content w)) as [e|v]; [by subst result|].
  subst result. by destruct v.
Qed.

(** X11. The endpoints [/categorize-ticket] and [/route-query] answer
    with an [HTTPException] exactly when the chat model replied and what
    was extracted from its reply is no JSON object; the exception then has
    status 500 and its detail names the type of the value. In every other
    case they answer with a body, which is a JSON object: the object that
    was extracted, or the fallback payload of the tool, with its [error]
    key, when the model raised or nothing could be extracted. So a failure
    of the model itself is no HTTP error. *)
Theorem router_endpoints_fail_on_non_objects w :
  (∀ title description customer_id priority category,
     let p := TicketRouter.categorization_formatted_prompt title description
                customer_id priority category in
     let answer := fst (Main.categorize_ticket title description customer_id
                          priority category w) in
     ((∃ error, answer = inl error)
      ↔ ∃ content v, llm_outcome (llm_calls w) p = inr content
                     ∧ fst (extract_json content w) = inr v
                     ∧ ∀ d, v ≠ VDict d)
     ∧ (∀ content v, llm_outcome (llm_calls w) p = inr content →
          fst (extract_json content w) = inr v →
          (∀ d, v ≠ VDict d) →
          answer = inl (no_get "Error categorizing ticket" v))
     ∧ (∀ content d, llm_outcome (llm_calls w) p = inr content →
          fst (extract_json content w) = inr (VDict d) →
          answer = inr (VDict d))
     ∧ (∀ content e, llm_outcome (llm_calls w) p = inr content →
          fst (extract_json content w) = inl e →
          answer = inr (TicketRouter.categorization_parse_failure title
                          priority category content))
     ∧ (∀ e, llm_outcome (llm_calls w) p = inl e →
          answer = inr (TicketRouter.categorization_failure title priority
                          category ("Error categorizing ticket: " +:+ exn_str e))))
  ∧ (∀ query customer_id context,
       let p := TicketRouter.routing_formatted_prompt query customer_id
                  (Some (default ∅ context)) in
       let answer := fst (Main.route_query query customer_id context w) in
       ((∃ error, answer = inl error)
        ↔ ∃ content v, llm_outcome (llm_calls w) p = inr content
                       ∧ fst (extract_json content w) = inr v
                       ∧ ∀ d, v ≠ VDict d)
       ∧ (∀ content v, llm_outcome (llm_calls w) p = inr content →
            fst (extract_json content w) = inr v →
            (∀ d, v ≠ VDict d) →
            answer = inl (no_get "Error routing query" v))
       ∧ (∀ content d, llm_outcome (llm_calls w) p = inr content →
            fst (extract_json content w) = inr (VDict d) →
            answer = inr (VDict d))
       ∧ (∀ content e, llm_outcome (llm_calls w) p = inr content →
            fst (extract_json content w) = inl e →
            answer = inr (TicketRouter.routing_parse_failure content))
       ∧ (∀ e, llm_outcome (llm_calls w) p = inl e →
            answer = inr (TicketRouter.routing_failure
                            ("Error routing query: " +:+ exn_str e)))).
Proof.
  split.
  - intros title description customer_id priority category p answer.
    subst answer. rewrite categorize_endpoint_run. fold p.
    split; [|split; [|split; [|split]]].
    + split.
      * intros [error Herr].
        destruct (llm_outcome (llm_calls w) p) as [e|content]; [discriminate|].
        destruct (fst (extract_json content w)) as [e|v] eqn:Hex;
          [discriminate|].
        exists content, v. split; [reflexivity|]. split; [exact Hex|].
        intros d ->. discriminate.
      * intros (content & v & -> & -> & Hnd).
        destruct v; try (eexists; reflexivity). by destruct (Hnd d).
    + intros content v -> -> Hnd.
      destruct v; try reflexivity. by destruct (Hnd d).
    + intros content d -> ->. reflexivity.
    + intros content e -> ->. reflexivity.
    + intros e ->. reflexivity.
  - intros query customer_id context p answer.
    subst answer. rewrite route_endpoint_run. fold p.
    split; [|split; [|split; [|split]]].
    + split.
      * intros [error Herr].
        destruct (llm_outcome (llm_calls w) p) as [e|content]; [discriminate|].
        destruct (fst (extract_json content w)) as [e|v] eqn:Hex;
          [discriminate|].
        exists content, v. split; [reflexivity|]. split; [exact Hex|].
        intros d ->. discriminate.
      * intros (content & v & -> & -> & Hnd).
        destruct v; try (eexists; reflexivity). by destruct (Hnd d).
    + intros content v -> -> Hnd.
      destruct v; try reflexivity. by destruct (Hnd d).
    + intros content d -> ->. reflexivity.
    + intros content e -> ->. reflexivity.
    + intros e ->. reflexivity.
Qed.

End ReplyFacts.
End ReplyFacts.

(** ** Further properties of the batch *)

Module FetchFacts.
Section FetchFacts.
Context `{Externals}.

Import Spec Notions MonadFacts EmailService.

(** The loop of the email mock appends one canned email per index, and
    touches nothing but the clock. *)
Lemma mock_emails_spec range emails w :
  ∃ new w',
    mock_emails range emails w = (inr (emails ++ new), w')
    ∧ length new = length range
    ∧ (∀ k email, new !! k = Some email →
         ∃ i stamp date,
           range !! k = Some i
           ∧ email = mock_email i ("email_" +:+ pretty i +:+ "_" +:+ stamp) date)
    ∧ llm_calls w' = llm_calls w ∧ log w' = log w ∧ trace w' = trace w
    ∧ agent_memory_json w' = agent_memory_json w.
Proof.
  revert emails w. induction range as [|i range IH]; intros emails w.
  - exists [], w. rewrite List.app_nil_r. repeat split; try reflexivity.
    intros k email Hk. by rewrite lookup_nil in Hk.
  - cbn [mock_emails]. rewrite bind_run. unfold datetime_now at 1.
    cbn beta iota. rewrite bind_run. unfold datetime_now at 1.
    cbn beta iota zeta.
    edestruct IH as (new & w' & -> & Hlen & Hnew & Hw').
    eexists (_ :: new), w'. split; [by rewrite <- List.app_assoc|].
    split; [cbn [length]; by rewrite Hlen|]. split; [|exact Hw'].
    intros [|k] email Hk.
    + injection Hk as <-. eexists i, _, _. split; reflexivity.
    + apply (Hnew k email Hk).
Qed.

(** The character after [email_] in the id of the email for index [i]. *)
Lemma email_id_index i stamp :
  (i < 5)%nat →
  String.get 6 ("email_" +:+ pretty i +:+ "_" +:+ stamp)
  = Some (ascii_of_nat (48 + i)).
Proof.
  intros Hi. destruct i as [|[|[|[|[|i]]]]]; try lia; vm_compute; reflexivity.
Qed.

(** The fetch, in one statement. *)
Lemma get_unprocessed_emails_spec w :
  ∃ emails w',
    get_unprocessed_emails w = (inr emails, w')
    ∧ length emails = Z.to_nat (Z.min 5 EMAIL_BATCH_SIZE)
    ∧ (∀ k email, emails !! k = Some email →
         ∃ stamp date,
           email = mock_email k ("email_" +:+ pretty k +:+ "_" +:+ stamp) date)
    ∧ llm_calls w' = llm_calls w
    ∧ trace w' = trace w ++ [EmailFetch]
    ∧ agent_memory_json w' = agent_memory_json w.
Proof.
  unfold get_unprocessed_emails. rewrite try_except_run, bind_run.
  cbn [request]. rewrite bind_run.
  edestruct mock_emails_spec
    as (new & w' & -> & Hlen & Hnew & Hc & Hl & Ht & Hf).
  rewrite bind_run. cbn [app logger_info logger].
  eexists new, _. split; [reflexivity|].
  split; [by rewrite Hlen, length_seq|].
  split; [|cbn [llm_calls trace agent_memory_json]; by rewrite Hc, Ht, Hf].
  intros k email Hk. destruct (Hnew k email Hk) as (i & stamp & date & Hi & ->).
  apply lookup_seq in Hi as [-> _]. by eexists _, _.
Qed.

(** X12. [get_unprocessed_emails] never raises and returns
    [min(5, EMAIL_BATCH_SIZE)] emails, none when the batch size is zero or
    negative and never more than five. The email at position [k] is the
    canned email number [k] (its subject, body, sender, attachments and
    customer id are fixed), and its id starts with [email_k_]: the ids of
    the fetched emails are pairwise different, whatever the clock gives. *)
Theorem fetched_emails_are_canned_and_distinct w :
  ∃ emails w',
    get_unprocessed_emails w = (inr emails, w')
    ∧ length emails = Z.to_nat (Z.min 5 EMAIL_BATCH_SIZE)
    ∧ (length emails <= 5)%nat
    ∧ (EMAIL_BATCH_SIZE <= 0 → emails = [])
    ∧ (∀ k email, emails !! k = Some email →
         ∃ stamp date,
           email = mock_email k ("email_" +:+ pretty k +:+ "_" +:+ stamp) date)
    ∧ NoDup (map email_id emails).
Proof.
  destruct (get_unprocessed_emails_spec w)
    as (emails & w' & Hrun & Hlen & Hnth & _).
  exists emails, w'. split; [exact Hrun|]. split; [exact Hlen|].
  assert (Hfive : (length emails <= 5)%nat) by lia.
  split; [exact Hfive|]. split.
  { intros Hsize. apply length_zero_iff_nil. lia. }
  split; [exact Hnth|].
  apply NoDup_alt. intros k k' id Hk Hk'.
  rewrite list_lookup_fmap in Hk, Hk'.
  destruct (emails !! k) as [email|] eqn:Hek; [|discriminate].
  destruct (emails !! k') as [email'|] eqn:Hek'; [|discriminate].
  pose proof (lookup_lt_Some _ _ _ Hek) as Hlt.
  pose proof (lookup_lt_Some _ _ _ Hek') as Hlt'.
  destruct (Hnth k email Hek) as (stamp & date & ->).
  destruct (Hnth k' email' Hek') as (stamp' & date' & ->).
  assert (Hmock : ∀ i id date, email_id (mock_email i id date) = id).
  { intros i id0 date0. by destruct i as [|[|[|[|i]]]]. }
  cbn [fmap option_fmap option_map] in Hk, Hk'. rewrite Hmock in Hk, Hk'.
  rewrite <- Hk in Hk'. apply (inj Some) in Hk'.
  assert (Hd : Some (ascii_of_nat (48 + k')) = Some (ascii_of_nat (48 + k))).
  { rewrite <- (email_id_index k' stamp'), <- (email_id_index k stamp) by lia.
    exact (f_equal (String.get 6) Hk'). }
  injection Hd as Hd.
  apply (f_equal nat_of_ascii) in Hd.
  rewrite !nat_ascii_embedding in Hd by lia. lia.
Qed.

End FetchFacts.
End FetchFacts.

Module BudgetFacts.
Section BudgetFacts.
Context `{Externals}.

Import Spec Notions MonadFacts StepFacts BatchFacts BatchClaims FetchFacts
  EmailService.

(** A call that is a step of the loop invokes the model exactly when the
    step is one of the four that do. *)
Lemma llm_call_step a :
  step_of a ≠ OtherStep → is_llm_call a = llm_step (step_of a).
Proof. destruct a as [[]| | | | | |]; cbn; congruence. Qed.

Lemma llm_calls_of_steps acts :
  OtherStep ∉ map step_of acts →
  length (List.filter is_llm_call acts)
  = length (List.filter llm_step (map step_of acts)).
Proof.
  induction acts as [|a acts IH]; [reflexivity|]. cbn [map List.filter].
  intros Hno. rewrite not_elem_of_cons in Hno. destruct Hno as [Ha Hno].
  rewrite llm_call_step by congruence.
  destruct (llm_step (step_of a)); cbn [length]; by rewrite IH.
Qed.

(** The calls of one email. *)
Lemma process_email_guarded_calls email w :
  ∃ acts,
    trace (snd (CustomerServiceAgent.process_email_guarded email w))
    = trace w ++ acts
    ∧ (length acts <= 7)%nat
    ∧ (3 <= length (List.filter is_llm_call acts) <= 4)%nat.
Proof.
  rewrite process_email_guarded_run.
  destruct (process_email_run email w)
    as (r & w' & summary & w1 & is_support & w2 & acts
        & Hrun & _ & _ & Ht & _ & _ & Hcases).
  rewrite Hrun. exists (summarization_call email :: acts).
  split; [by destruct r as [e|[]]|].
  assert (Hsteps : map step_of (summarization_call email :: acts) = steps_for true
                   ∨ map step_of (summarization_call email :: acts)
                     = steps_interrupted
                   ∨ map step_of (summarization_call email :: acts)
                     = steps_for false).
  { destruct is_support.
    - destruct Hcases as (r3 & w3 & _ & [(_ & _ & Hs)|(_ & _ & Hs)]); tauto.
    - destruct Hcases as [_ Hs]. tauto. }
  assert (Hlen : length (summarization_call email :: acts)
                 = length (map step_of (summarization_call email :: acts)))
    by by rewrite length_map.
  rewrite llm_calls_of_steps.
  - destruct Hsteps as [Hs|[Hs|Hs]]; rewrite Hlen, Hs; cbn; lia.
  - destruct Hsteps as [Hs|[Hs|Hs]]; rewrite Hs;
      unfold steps_for, steps_interrupted; cbn [app]; intros Hin;
      repeat (apply elem_of_cons in Hin as [Hin|Hin]; [discriminate Hin|]);
      by apply elem_of_nil in Hin.
Qed.

(** The calls of the loop. *)
Lemma process_emails_calls emails w :
  ∃ acts,
    trace (snd (CustomerServiceAgent.process_emails emails w)) = trace w ++ acts
    ∧ (length acts <= 7 * length emails)%nat
    ∧ (3 * length emails <= length (List.filter is_llm_call acts)
       <= 4 * length emails)%nat.
Proof.
  revert w. induction emails as [|email emails IH]; intros w.
  - exists []. cbn. rewrite List.app_nil_r. repeat split; lia.
  - rewrite process_emails_cons.
    destruct (process_email_guarded_calls email w) as (acts1 & Ht1 & Hl1 & Hc1).
    destruct (IH (snd (CustomerServiceAgent.process_email_guarded email w)))
      as (acts2 & Ht2 & Hl2 & Hc2).
    exists (acts1 ++ acts2). split; [by rewrite Ht2, Ht1, <- List.app_assoc|].
    rewrite List.filter_app, !length_app. cbn [length]. lia.
Qed.

(** X13. The batch has a bounded cost. Handling one email makes at most
    seven outgoing calls, three or four of which invoke the chat model
    (four when the email is taken for a support request), also when the
    handling ends in an exception. The whole of [process_email_batch] makes
    at most 36 outgoing calls, one to fetch and at most seven for each of
    at most five emails, and at most 20 invocations of the model. *)
Theorem batch_call_budget :
  (∀ email w,
     let w' := snd (CustomerServiceAgent.process_email_guarded email w) in
     (length (actions_since w w') <= 7)%nat
     ∧ (3 <= llm_calls_since w w' <= 4)%nat)
  ∧ (∀ w,
       let w' := snd (CustomerServiceAgent.process_email_batch w) in
       (length (actions_since w w') <= 36)%nat
       ∧ (llm_calls_since w w' <= 20)%nat).
Proof.
  split.
  - intros email w w'. subst w'.
    destruct (process_email_guarded_calls email w) as (acts & Ht & Hl & Hc).
    unfold llm_calls_since, actions_since. rewrite Ht, drop_app_length.
    split; [exact Hl | exact Hc].
  - intros w w'. subst w'.
    destruct (process_email_batch_run w)
      as (emails & w0 & w1 & w' & Hfetch & Hrun & -> & Ht).
    cbn [snd].
    destruct (get_unprocessed_emails_spec
                (snd (logger_info "Starting batch email processing" w)))
      as (emails' & w0' & Hfetch' & Hlen & _ & _ & Ht0 & _).
    rewrite Hfetch in Hfetch'. injection Hfetch' as <- <-.
    destruct (process_emails_calls emails w0) as (acts & Htr & Hl & Hc).
    rewrite Hrun in Htr. cbn [snd] in Htr.
    unfold llm_calls_since, actions_since.
    rewrite Ht, Htr, Ht0. cbn [logger_info logger snd trace].
    rewrite <- List.app_assoc, drop_app_length.
    cbn [app List.filter is_llm_call length]. lia.
Qed.

End BudgetFacts.
End BudgetFacts.

(** ** The batch when the chat model is unreachable *)

Module OutageFacts.
Section OutageFacts.
Context `{Externals}.

Import Spec Notions MonadFacts ToolRuns StepFacts ReplyFacts EmailService.

(** Detection under an outage: the answer is yes. *)
Lemma is_support_request_down subject message w :
  model_down →
  ∃ w',
    TicketRouter.is_support_request subject message w = (inr true, w')
    ∧ trace w' = trace w
                 ++ [LLMInvoke (TicketRouter.support_detection_formatted_prompt
                                  subject message)].
Proof.
  intros Hdown.
  destruct (is_support_request_run subject message w) as (msg & lvl & Hrun & _).
  cbv zeta in Hrun.
  destruct (Hdown (llm_calls w)
              (TicketRouter.support_detection_formatted_prompt subject message))
    as [e He].
  rewrite He in Hrun. rewrite Hrun. eexists. split; reflexivity.
Qed.

(** Categorization under an outage: the fallback dictionary, with the
    category [Unknown] and the priority [Medium] when none was suggested. *)
Lemma categorize_ticket_down title description customer_id w :
  model_down →
  ∃ e w',
    CustomerServiceAgent.categorize_ticket title description customer_id
      None None w
    = (inr (TicketRouter.categorization_failure title None None
              ("Error categorizing ticket: " +:+ exn_str e)), w')
    ∧ trace w' = trace w
                 ++ [LLMInvoke (TicketRouter.categorization_formatted_prompt
                                  title description customer_id None None)].
Proof.
  intros Hdown.
  set (w0 := snd (logger_info ("Categorizing ticket: " +:+ title) w)).
  destruct (categorization_returns title description customer_id None None w0)
    as (result & w1 & Hrun & _ & Hresult).
  destruct (Hdown (llm_calls w0)
              (TicketRouter.categorization_formatted_prompt title description
                 customer_id None None)) as [e He].
  rewrite He in Hresult. subst result.
  pose proof (agent_categorize_ticket_run _ _ _ _ _ _ _ _ Hrun) as Hagent.
  cbn beta iota delta [TicketRouter.categorization_failure] in Hagent.
  destruct (categorize_ticket_step title description customer_id None None w)
    as (r & w' & Hstep & Ht & _).
  exists e, w'. split; [|exact Ht].
  rewrite Hstep in Hagent |- *. by injection Hagent as -> _.
Qed.

(** CRM entry generation under an outage: the error entry. *)
Lemma create_crm_entry_down customer_name interaction_details additional_info w :
  model_down →
  ∃ e w',
    CustomerServiceAgent.create_crm_entry customer_name interaction_details
      additional_info w
    = (inr (CRMEntryGenerator.failure_entry customer_name
              ("Error generating CRM entry: " +:+ exn_str e)), w')
    ∧ trace w' = trace w
                 ++ [LLMInvoke (CRMEntryGenerator.formatted_prompt customer_name
                                  interaction_details
                                  (Some (default ∅ additional_info)))].
Proof.
  intros Hdown.
  unfold CustomerServiceAgent.create_crm_entry, CRMEntryGenerator.create_crm_entry.
  rewrite bind_run. cbn [logger_info logger]. rewrite bind_run.
  rewrite crm_entry_run. cbv zeta.
  cbn [llm_calls clock log trace agent_memory_json].
  destruct (Hdown (llm_calls w)
              (CRMEntryGenerator.formatted_prompt customer_name
                 interaction_details (Some (default ∅ additional_info))))
    as [e ->].
  rewrite bind_run. cbn [logger_info logger].
  eexists e, _. split; reflexivity.
Qed.

(** X14. When the chat model is unreachable, the batch does not stop and
    does not skip: each email is summarized (as a failure text), taken for
    a support request, and submitted as a ticket of category [Unknown] and
    priority [Medium]; the error entry of the CRM generator is submitted to
    the CRM, and the email is marked as processed. All seven steps are
    taken and no exception reaches the handler of the loop. *)
Theorem model_outage_is_absorbed email w :
  model_down →
  ∃ w' e,
    CustomerServiceAgent.process_email email w = (inr tt, w')
    ∧ steps_since w w' = steps_for true
    ∧ TicketCreate (email_subject email) (email_body email) (VStr "Unknown")
        (VStr "Medium") (email_customer_id email) ∈ actions_since w w'
    ∧ CRMCreateEntry
        (CRMEntryGenerator.failure_entry (email_sender email)
           ("Error generating CRM entry: " +:+ exn_str e))
      ∈ actions_since w w'
    ∧ EmailMarkProcessed (email_id email) ∈ actions_since w w'.
Proof.
  intros Hdown.
  edestruct summarize_email_step as (summary & w1 & Hsum & T1 & _).
  destruct (is_support_request_down (email_subject email) (email_body email)
              w1 Hdown) as (w2 & Hdet & T2).
  destruct (categorize_ticket_down (email_subject email) (email_body email)
              (email_customer_id email) w2 Hdown) as (e3 & w3 & Hcat & T3).
  set (d := TicketRouter.categorization_failure (email_subject email) None None
              ("Error categorizing ticket: " +:+ exn_str e3)) in *.
  assert (Hc : getitem d "category" w3 = (inr (VStr "Unknown"), w3))
    by reflexivity.
  assert (Hp : getitem d "priority" w3 = (inr (VStr "Medium"), w3))
    by reflexivity.
  destruct (create_ticket_step (email_subject email) (email_body email)
              (VStr "Unknown") (VStr "Medium") (email_customer_id email) w3)
    as (ticket_id & w4 & Hticket & T4 & _).
  destruct (create_crm_entry_down (email_sender email)
              ("Email: " +:+ email_subject email +:+ PyStr.nl +:+ PyStr.nl
               +:+ "Summary: " +:+ summary)
              (Some {[ "email_id" := VStr (email_id email) ]}) w4 Hdown)
    as (e5 & w5 & Hcrm & T5).
  edestruct create_entry_step as (entry_id & w6 & Hentry & T6 & _).
  destruct (mark_as_processed_step (email_id email) w6) as (w7 & Hmark & T7 & _).
  exists w7, e5. split.
  { unfold CustomerServiceAgent.process_email.
    rewrite (bind_inr _ _ _ _ _ Hsum), (bind_inr _ _ _ _ _ Hdet).
    cbn iota.
    assert (Hphase :
      (ticket_data ← CustomerServiceAgent.categorize_ticket
                       (email_subject email) (email_body email)
                       (email_customer_id email) None None;
       category ← getitem ticket_data "category";
       priority ← getitem ticket_data "priority";
       _ ← TicketService.create_ticket (email_subject email) (email_body email)
             category priority (email_customer_id email);
       mret tt) w2 = (inr tt, w4)).
    { rewrite (bind_inr _ _ _ _ _ Hcat), (bind_inr _ _ _ _ _ Hc),
        (bind_inr _ _ _ _ _ Hp), (bind_inr _ _ _ _ _ Hticket). reflexivity. }
    rewrite (bind_inr _ _ _ _ _ Hphase), (bind_inr _ _ _ _ _ Hcrm),
      (bind_inr _ _ _ _ _ Hentry), (bind_inr _ _ _ _ _ Hmark). reflexivity. }
  assert (Hacts : actions_since w w7
                  = [LLMInvoke (EmailSummarizer.formatted_prompt
                                  (email_subject email) (email_body email)
                                  (email_sender email) (email_date email)
                                  (Some (email_attachments email)));
                     LLMInvoke (TicketRouter.support_detection_formatted_prompt
                                  (email_subject email) (email_body email));
                     LLMInvoke (TicketRouter.categorization_formatted_prompt
                                  (email_subject email) (email_body email)
                                  (email_customer_id email) None None);
                     TicketCreate (email_subject email) (email_body email)
                       (VStr "Unknown") (VStr "Medium") (email_customer_id email);
                     LLMInvoke (CRMEntryGenerator.formatted_prompt
                                  (email_sender email)
                                  ("Email: " +:+ email_subject email +:+ PyStr.nl
                                   +:+ PyStr.nl +:+ "Summary: " +:+ summary)
                                  (Some {[ "email_id" := VStr (email_id email) ]}));
                     CRMCreateEntry
                       (CRMEntryGenerator.failure_entry (email_sender email)
                          ("Error generating CRM entry: " +:+ exn_str e5));
                     EmailMarkProcessed (email_id email)]).
  { unfold actions_since. rewrite T7, T6, T5, T4, T3, T2, T1.
    rewrite <- !List.app_assoc. rewrite drop_app_length. reflexivity. }
  unfold steps_since. rewrite Hacts.
  split; [reflexivity|].
  split; [|split]; rewrite !elem_of_cons; tauto.
Qed.

End OutageFacts.
End OutageFacts.

(** ** What the agent leaves alone *)

Module FrameFacts.
Section FrameFacts.
Context `{Externals}.

Import Notions MonadFacts EmailService.

Lemma keeps_ret {A} (a : A) : keeps_memory_file (mret a).
Proof. by intros w. Qed.

Lemma keeps_raise {A} e : keeps_memory_file (@raise A e).
Proof. by intros w. Qed.

Lemma keeps_bind {A B} (m : M A) (f : A → M B) :
  keeps_memory_file m → (∀ a, keeps_memory_file (f a)) →
  keeps_memory_file (m ≫= f).
Proof.
  intros Hm Hf w. rewrite bind_run. specialize (Hm w).
  destruct (m w) as [[e|a] w']; cbn [snd] in *; [exact Hm|].
  by rewrite Hf.
Qed.

Lemma keeps_try_except {A} (body : M A) handler :
  keeps_memory_file body → (∀ e, keeps_memory_file (handler e)) →
  keeps_memory_file (try_except body handler).
Proof.
  intros Hm Hf w. rewrite try_except_run. specialize (Hm w).
  destruct (body w) as [[e|a] w']; cbn [snd] in *; [|exact Hm].
  by rewrite Hf.
Qed.

Lemma keeps_try_except_class {A} is_C (body : M A) handler :
  keeps_memory_file body → (∀ e, keeps_memory_file (handler e)) →
  keeps_memory_file (try_except_class is_C body handler).
Proof.
  intros Hm Hf w. unfold try_except_class. specialize (Hm w).
  destruct (body w) as [[e|a] w']; cbn [snd] in *; [|exact Hm].
  destruct (is_C e); [by rewrite Hf | exact Hm].
Qed.

Lemma keeps_logger lvl msg : keeps_memory_file (logger lvl msg).
Proof. by intros w. Qed.

Lemma keeps_request a : keeps_memory_file (request a).
Proof. by intros w. Qed.

Lemma keeps_datetime_now : keeps_memory_file datetime_now.
Proof. by intros w. Qed.

Lemma keeps_llm_invoke p : keeps_memory_file (llm_invoke p).
Proof. by intros w. Qed.

Lemma keeps_loads s : keeps_memory_file (loads s).
Proof. intros w. unfold loads. by destruct (json_loads s). Qed.

Lemma keeps_get v key : keeps_memory_file (get v key).
Proof. intros w. by destruct v. Qed.

Lemma keeps_getitem v key : keeps_memory_file (getitem v key).
Proof. intros w. destruct v; try reflexivity. cbn. by destruct (d !! key). Qed.

Lemma keeps_for_each {A} (l : list A) body :
  (∀ x, keeps_memory_file (body x)) → keeps_memory_file (for_each l body).
Proof.
  intros Hbody. induction l as [|x l IH]; cbn [for_each].
  - apply keeps_ret.
  - apply keeps_bind; [apply Hbody | intros _; exact IH].
Qed.

(** Splits a computation of the monad into its parts. *)
Ltac keeps :=
  repeat match goal with
    | |- keeps_memory_file (mret _) => apply keeps_ret
    | |- keeps_memory_file (raise _) => apply keeps_raise
    | |- keeps_memory_file (logger _ _) => apply keeps_logger
    | |- keeps_memory_file (request _) => apply keeps_request
    | |- keeps_memory_file datetime_now => apply keeps_datetime_now
    | |- keeps_memory_file (llm_invoke _) => apply keeps_llm_invoke
    | |- keeps_memory_file (loads _) => apply keeps_loads
    | |- keeps_memory_file (get _ _) => apply keeps_get
    | |- keeps_memory_file (getitem _ _) => apply keeps_getitem
    | |- keeps_memory_file (_ ≫= _) => apply keeps_bind; [|intros ?]
    | |- keeps_memory_file (try_except _ _) =>
        apply keeps_try_except; [|intros ?]
    | |- keeps_memory_file (try_except_class _ _ _) =>
        apply keeps_try_except_class; [|intros ?]
    | |- keeps_memory_file (for_each _ _) => apply keeps_for_each; intros ?
    | |- keeps_memory_file (match ?x with _ => _ end) => destruct x
    | |- keeps_memory_file (let _ := _ in _) => cbv zeta
    end.

Lemma keeps_extract_json content : keeps_memory_file (extract_json content).
Proof. unfold extract_json. keeps. Qed.

Lemma keeps_mock_emails range emails :
  keeps_memory_file (mock_emails range emails).
Proof.
  revert emails. induction range as [|i range IH]; intros emails;
    cbn [mock_emails]; keeps. apply IH.
Qed.

Lemma keeps_summarize_email subject body sender date attachments :
  keeps_memory_file
    (CustomerServiceAgent.summarize_email subject body sender date attachments).
Proof.
  unfold CustomerServiceAgent.summarize_email, EmailSummarizer.summarize_email,
    EmailSummarizer._run, logger_info, logger_error.
  keeps.
Qed.

Lemma keeps_is_support_request subject message :
  keeps_memory_file (TicketRouter.is_support_request subject message).
Proof.
  unfold TicketRouter.is_support_request, logger_info, logger_error. keeps.
Qed.

Lemma keeps_categorize_ticket title description customer_id priority category :
  keeps_memory_file
    (CustomerServiceAgent.categorize_ticket title description customer_id
       priority category).
Proof.
  unfold CustomerServiceAgent.categorize_ticket, TicketRouter.categorize_ticket,
    TicketRouter._run_categorization, logger_info, logger_error.
  keeps; apply keeps_extract_json.
Qed.

Lemma keeps_create_crm_entry customer_name interaction_details additional_info :
  keeps_memory_file
    (CustomerServiceAgent.create_crm_entry customer_name interaction_details
       additional_info).
Proof.
  unfold CustomerServiceAgent.create_crm_entry,
    CRMEntryGenerator.create_crm_entry, CRMEntryGenerator._run, logger_info,
    logger_error.
  keeps; apply keeps_extract_json.
Qed.

Lemma keeps_route_query query customer_id context :
  keeps_memory_file (CustomerServiceAgent.route_query query customer_id context).
Proof.
  unfold CustomerServiceAgent.route_query, TicketRouter.route_query,
    TicketRouter._run_routing, logger_info, logger_error.
  keeps; apply keeps_extract_json.
Qed.

Lemma keeps_process_email email :
  keeps_memory_file (CustomerServiceAgent.process_email email).
Proof.
  unfold CustomerServiceAgent.process_email.
  apply keeps_bind; [apply keeps_summarize_email | intros summary].
  apply keeps_bind; [apply keeps_is_support_request | intros is_support].
  apply keeps_bind.
  { destruct is_support; [|apply keeps_ret].
    apply keeps_bind; [apply keeps_categorize_ticket | intros ticket_data].
    unfold TicketService.create_ticket, logger_info, logger_error. keeps. }
  intros _.
  apply keeps_bind; [apply keeps_create_crm_entry | intros crm_entry].
  unfold CRMService.create_entry, mark_as_processed, logger_info, logger_error.
  keeps.
Qed.

(** X15. Nothing that the endpoints reach writes the conversation memory:
    the four operations of the agent and the whole of
    [process_email_batch] leave the memory file exactly as it was. (The
    memory is handed to the agent executor, which none of them runs.) *)
Theorem agent_operations_keep_memory_file :
  keeps_memory_file CustomerServiceAgent.process_email_batch
  ∧ (∀ subject body sender date attachments,
       keeps_memory_file
         (CustomerServiceAgent.summarize_email subject body sender date
            attachments))
  ∧ (∀ title description customer_id priority category,
       keeps_memory_file
         (CustomerServiceAgent.categorize_ticket title description customer_id
            priority category))
  ∧ (∀ customer_name interaction_details additional_info,
       keeps_memory_file
         (CustomerServiceAgent.create_crm_entry customer_name
            interaction_details additional_info))
  ∧ (∀ query customer_id context,
       keeps_memory_file
         (CustomerServiceAgent.route_query query customer_id context)).
Proof.
  split; [|split; [|split; [|split]]].
  - unfold CustomerServiceAgent.process_email_batch, get_unprocessed_emails,
      CustomerServiceAgent.process_emails,
      CustomerServiceAgent.process_email_guarded, logger_info, logger_error.
    keeps; first [apply keeps_mock_emails | apply keeps_process_email].
  - apply keeps_summarize_email.
  - apply keeps_categorize_ticket.
  - apply keeps_create_crm_entry.
  - apply keeps_route_query.
Qed.

End FrameFacts.
End FrameFacts.

(** ** Properties of the ticket and CRM mocks beside the batch *)

Module TicketQueryFacts.
Section TicketQueryFacts.
Context `{Externals} `{Calendar}.

Import PyStr Spec Notions PyStrFacts MonadFacts TicketQueries.

(** A filter lets a value through exactly when it accepts it. *)
Lemma filtered_out_accepts wanted actual :
  filtered_out wanted actual = false ↔ accepts wanted actual.
Proof.
  unfold filtered_out, accepts. destruct wanted as [s|].
  - rewrite andb_false_iff, !negb_false_iff, !String.eqb_eq. split.
    + intros [->|Heq]; [tauto|]. right. right. by exists s.
    + intros [Hn|[[= ->]|(s' & [= <-] & Heq)]]; [discriminate | tauto | tauto].
  - split; [tauto | reflexivity].
Qed.

Lemma passes_wanted query status category priority c :
  passes query status category priority c = true
  ↔ Notions.wanted query status category priority c.
Proof.
  destruct c as [[[[st ti] de] ca] pr]. unfold passes, Notions.wanted, query_misses.
  rewrite !andb_true_iff, !negb_true_iff, !filtered_out_accepts.
  rewrite andb_false_iff, !negb_false_iff, !contains_spec. tauto.
Qed.

(** The loop of [search_tickets] appends the tickets that pass, in order. *)
Lemma found_tickets_spec range query status category priority tickets w :
  ∃ new w',
    found_tickets range query status category priority tickets w
    = (inr (tickets ++ new), w')
    ∧ map card new
      = List.filter (passes query status category priority)
          (map found_ticket_fields range).
Proof.
  revert tickets w. induction range as [|i range IH]; intros tickets w.
  - exists [], w. by rewrite List.app_nil_r.
  - cbn [found_tickets map List.filter]. rewrite bind_run.
    unfold datetime_now at 1. cbn beta iota zeta.
    unfold passes at 1.
    destruct (found_ticket_fields i) as [[[[st ti] de] ca] pr].
    destruct (filtered_out status st); [apply IH|].
    destruct (filtered_out category ca); [apply IH|].
    destruct (filtered_out priority pr); [apply IH|].
    destruct (query_misses query ti de); [apply IH|].
    cbn [negb andb]. rewrite bind_run. unfold datetime_now at 1.
    cbn beta iota. rewrite bind_run. unfold datetime_now at 1.
    cbn beta iota zeta.
    edestruct IH as (new & w' & -> & Hnew).
    eexists (_ :: new), w'. split; [by rewrite <- List.app_assoc|].
    cbn [map]. by rewrite Hnew.
Qed.

(** X16. For a query in ASCII, [search_tickets] never raises. It scans
    the first [min(5, limit)] of its five canned tickets and returns, in
    their order, exactly those among them that every given filter accepts
    (status, category, priority; an absent or empty filter accepts
    everything, a given one compares ignoring case) and whose title or
    description contains the query, ignoring case. [limit] bounds the
    tickets scanned, not the tickets found: a matching ticket beyond the
    first [limit] is not returned, and a [limit] of zero or less returns
    nothing. (A query that is not ASCII may be lowered by Python to text
    that the tickets contain, as the Kelvin sign is to the letter k; a
    filter that is not ASCII accepts no ticket, under Python's lowering as
    under the bytewise one, the fields of the tickets being ASCII without
    that letter.) *)
Theorem search_tickets_scans_then_filters query status category priority limit w :
  is_ascii query = true →
  ∃ tickets w',
    search_tickets query status category priority limit w = (inr tickets, w')
    ∧ map card tickets `sublist_of` canned_tickets
    ∧ (∀ c, c ∈ map card tickets
            ↔ c ∈ take (Z.to_nat (Z.min 5 limit)) canned_tickets
              ∧ Notions.wanted query status category priority c)
    ∧ (length tickets <= Z.to_nat (Z.min 5 limit))%nat
    ∧ (limit <= 0 → tickets = []).
Proof.
  intros _.
  unfold search_tickets. rewrite try_except_run, bind_run.
  cbn [asyncio_sleep mret M_ret]. rewrite bind_run.
  edestruct found_tickets_spec as (tickets & w' & -> & Hcards).
  rewrite bind_run. cbn [app logger_info logger].
  exists tickets. eexists. split; [reflexivity|].
  assert (Hscan : map found_ticket_fields (seq 0 (Z.to_nat (Z.min 5 limit)))
                  = take (Z.to_nat (Z.min 5 limit)) canned_tickets).
  { unfold canned_tickets. rewrite <- fmap_take, take_seq.
    do 2 f_equal. lia. }
  rewrite Hscan in Hcards.
  split; [|split; [|split]].
  - rewrite Hcards. etrans; [apply CRMClaims.filter_sublist|].
    apply sublist_take.
  - intros c. rewrite Hcards, list_elem_of_In, List.filter_In, <- list_elem_of_In.
    by rewrite passes_wanted.
  - rewrite <- (length_map card), Hcards.
    etrans; [apply List.filter_length_le|].
    rewrite length_take. lia.
  - intros Hlimit. apply (f_equal length) in Hcards.
    rewrite length_map in Hcards. apply length_zero_iff_nil.
    replace (Z.to_nat (Z.min 5 limit)) with 0%nat in Hcards by lia.
    exact Hcards.
Qed.

(** The loop of [get_tickets_by_customer]. *)
Lemma customer_tickets_spec range customer_id status tickets w :
  ∃ new w',
    customer_tickets range customer_id status tickets w
    = (inr (tickets ++ new), w')
    ∧ map ct_status new
      = List.filter (fun st => negb (filtered_out status st))
          (map (fun i => (customer_ticket_fields i).1.1.1) range)
    ∧ Forall (fun t => ct_customer_id t = customer_id) new.
Proof.
  revert tickets w. induction range as [|i range IH]; intros tickets w.
  - exists [], w. by rewrite List.app_nil_r.
  - cbn [customer_tickets map List.filter]. rewrite bind_run.
    unfold datetime_now at 1. cbn beta iota zeta.
    destruct (customer_ticket_fields i) as [[[st ti] ca] pr]. cbn [fst].
    destruct (filtered_out status st); [apply IH|].
    cbn [negb]. rewrite bind_run. unfold datetime_now at 1.
    cbn beta iota. rewrite bind_run. unfold datetime_now at 1.
    cbn beta iota zeta.
    edestruct IH as (new & w' & -> & Hnew & Hcust).
    eexists (_ :: new), w'. split; [by rewrite <- List.app_assoc|].
    cbn [map ct_status]. rewrite Hnew. split; [reflexivity|].
    by constructor.
Qed.

(** X17. [get_tickets_by_customer] never raises, and every ticket it
    returns carries the customer id it was asked for, whatever that id is.
    Without a status filter (absent or empty) it returns three tickets,
    open, pending and closed, in this order; with a status filter it
    returns those of the three whose status equals the filter when case is
    ignored, which is at most one ticket. *)
Theorem customer_tickets_by_status customer_id status w :
  ∃ tickets w',
    get_tickets_by_customer customer_id status w = (inr tickets, w')
    ∧ Forall (fun t => ct_customer_id t = customer_id) tickets
    ∧ map ct_status tickets `sublist_of` customer_ticket_statuses
    ∧ (∀ st, st ∈ map ct_status tickets
             ↔ st ∈ customer_ticket_statuses ∧ accepts status st)
    ∧ (status = None ∨ status = Some EmptyString →
       map ct_status tickets = ["Open"; "Pending"; "Closed"])
    ∧ (∀ s, status = Some s → s ≠ EmptyString →
         (length tickets <= 1)%nat
         ∧ Forall (fun t => lower (ct_status t) = lower s) tickets).
Proof.
  unfold get_tickets_by_customer. rewrite try_except_run, bind_run.
  cbn [asyncio_sleep mret M_ret]. rewrite bind_run.
  edestruct customer_tickets_spec as (tickets & w' & -> & Hst & Hcust).
  rewrite bind_run. cbn [app logger_info logger].
  exists tickets. eexists. split; [reflexivity|].
  fold customer_ticket_statuses in Hst.
  split; [exact Hcust|]. split; [|split; [|split]].
  - rewrite Hst. apply CRMClaims.filter_sublist.
  - intros st. rewrite Hst, list_elem_of_In, List.filter_In, <- list_elem_of_In.
    by rewrite negb_true_iff, filtered_out_accepts.
  - intros [->| ->]; rewrite Hst; reflexivity.
  - intros s -> Hs. split.
    + rewrite <- (length_map ct_status), Hst.
      unfold customer_ticket_statuses, filtered_out. cbn [seq map List.filter
        customer_ticket_fields fst].
      destruct (String.eqb_spec s EmptyString) as [|_]; [done|]. cbn [negb andb].
      change (lower "Open") with "open".
      change (lower "Pending") with "pending".
      change (lower "Closed") with "closed".
      destruct (String.eqb_spec (lower s) "open") as [->|_];
        [reflexivity|].
      destruct (String.eqb_spec (lower s) "pending") as [->|_];
        [reflexivity|].
      destruct (String.eqb (lower s) "closed"); cbn; lia.
    + apply Forall_forall. intros t Ht.
      assert (Hin : ct_status t ∈ map ct_status tickets).
      { apply list_elem_of_In, in_map, list_elem_of_In, Ht. }
      rewrite Hst, list_elem_of_In, List.filter_In in Hin.
      destruct Hin as [_ Hacc].
      apply negb_true_iff, filtered_out_accepts in Hacc.
      destruct Hacc as [[=]|[[= ->]|(s' & [= <-] & Heq)]]; [done | done].
Qed.

End TicketQueryFacts.
End TicketQueryFacts.

Module CRMRecordFacts.
Section CRMRecordFacts.
Context `{Externals}.

Import Spec Notions MonadFacts CRMRecords.

(** X18. [get_recent_interactions] returns the empty list for every
    customer and every limit, and never raises. With a limit of one or
    more, building the first interaction looks up [asyncio.timedelta],
    which does not exist; the [AttributeError] is caught and logged, and
    the interactions are lost. With a limit of zero or less there is
    nothing to build. *)
Theorem recent_interactions_are_never_returned customer_id limit w :
  ∃ w',
    get_recent_interactions customer_id limit w = (inr [], w')
    ∧ (0 < limit →
       LogRecord ERROR
         ("Error retrieving interactions for customer " +:+ customer_id
          +:+ ": module 'asyncio' has no attribute 'timedelta'")
       ∈ drop (length (log w)) (log w'))
    ∧ (limit <= 0 → ¬ logged_error w w').
Proof.
  unfold get_recent_interactions. rewrite try_except_run, bind_run.
  cbn [asyncio_sleep mret M_ret]. rewrite bind_run.
  destruct (Z.to_nat (Z.min 3 limit)) as [|n] eqn:Hn.
  - cbn [seq recent_interactions mret M_ret]. rewrite bind_run.
    cbn [logger_info logger]. eexists. split; [reflexivity|].
    split; [lia|]. intros _ [msg Hin]. cbn [log] in Hin.
    rewrite drop_app_length in Hin.
    apply list_elem_of_singleton in Hin. discriminate.
  - cbn [seq recent_interactions]. rewrite bind_run.
    unfold datetime_now at 1. cbn beta iota. rewrite bind_run.
    unfold datetime_now at 1. cbn beta iota.
    rewrite bind_run. cbn [asyncio_timedelta raise].
    rewrite bind_run. cbn [logger_error logger].
    eexists. split; [reflexivity|]. split; [|lia].
    intros _. cbn [log]. rewrite drop_app_length. apply list_elem_of_here.
Qed.

(** X19. The CRM mock stores nothing: [create_customer] never raises and
    reports an id of the form [CUST_...], and [get_customer] answers
    [None] for that id, in whatever state it is asked. *)
Theorem created_customer_is_not_found customer_data w :
  ∃ customer_id w',
    create_customer customer_data w = (inr (Some customer_id), w')
    ∧ PyStr.startswith "CUST_" customer_id = true
    ∧ ∀ w1, fst (CRMService.get_customer customer_id w1) = inr None.
Proof.
  unfold create_customer. rewrite try_except_run, bind_run.
  cbn [asyncio_sleep mret M_ret]. rewrite bind_run.
  unfold datetime_now at 1. cbn beta iota zeta. rewrite bind_run.
  cbn [logger_info logger].
  eexists _, _. split; [reflexivity|]. split; [reflexivity|].
  intros w1. reflexivity.
Qed.

End CRMRecordFacts.
End CRMRecordFacts.

(** ** One invocation per call, the report of the batch, and the two
       catalogs of the CRM mock *)

Module CallFacts.
Section CallFacts.
Context `{Externals}.

Import Spec Notions MonadFacts ToolRuns BatchClaims FetchFacts EmailService.


(** X21. The last thing [process_email_batch] logs is the number of emails
    it fetched, as the number processed: [min(5, EMAIL_BATCH_SIZE)] (none
    below one), whatever happened to the emails, also when the handling of
    every one of them ended in an exception. *)
Theorem batch_reports_the_fetched_count w :
  let w' := snd (CustomerServiceAgent.process_email_batch w) in
  last (log w')
  = Some (LogRecord INFO
            ("Batch email processing completed. Processed "
             +:+ pretty (Z.to_nat (Z.min 5 EMAIL_BATCH_SIZE)) +:+ " emails")).
Proof.
  cbv zeta. unfold CustomerServiceAgent.process_email_batch.
  rewrite bind_run. cbn [logger_info logger].
  edestruct get_unprocessed_emails_spec as (emails & w0 & Hfetch & Hlen & _).
  rewrite (bind_inr _ _ _ _ _ Hfetch).
  pose proof (process_emails_ok emails w0) as Hok.
  destruct (CustomerServiceAgent.process_emails emails w0) as [r w1] eqn:Hloop.
  cbn [fst] in Hok. subst r.
  rewrite (bind_inr _ _ _ _ _ Hloop). cbn [logger_info logger snd log].
  by rewrite last_snoc, Hlen.
Qed.

End CallFacts.
End CallFacts.

Module CatalogFacts.

Import Spec CRMService CRMClaims.

(** X22. The two catalogs of the CRM mock agree: every entry that
    [search_customers] returns, for any query, has an id that
    [get_customer] knows, and the record found under that id has the name,
    the email address and the company of the entry. *)
Theorem search_results_can_be_looked_up query w :
  ∃ results w',
    search_customers query w = (inr results, w')
    ∧ ∀ c, c ∈ results →
        ∀ w1, ∃ r,
          fst (get_customer (entry_id c) w1) = inr (Some r)
          ∧ cust_id r = entry_id c
          ∧ cust_name r = entry_name c
          ∧ cust_email r = entry_email c
          ∧ cust_company r = entry_company c.
Proof.
  exists (List.filter (entry_matches (PyStr.lower query)) mock_customers).
  eexists. split.
  { unfold search_customers.
    rewrite MonadFacts.try_except_run, MonadFacts.bind_run. cbn [request].
    cbv zeta. rewrite MonadFacts.bind_run. cbn [logger_info logger].
    rewrite search_loop_filter. reflexivity. }
  intros c Hc w1. apply list_elem_of_In, List.filter_In in Hc as [Hc _].
  apply list_elem_of_In in Hc. unfold mock_customers in Hc.
  rewrite !elem_of_cons, elem_of_nil in Hc.
  destruct Hc as [->|[->|[->|[->|[]]]]]; eexists;
    (split; [reflexivity|]); repeat split.
Qed.

End CatalogFacts.

Module TurnFacts.
Section TurnFacts.
Context `{Externals}.

Import Spec Notions MonadFacts AgentMemory MemoryFacts MemoryClaims.

(** X23. A turn of conversation is persisted as exactly two messages. One
    memory object reads the file, which is one that the program wrote or
    none, and is operated on in any way; then a [save_context] whose input
    and output strings are found appends the input as a human message and
    the output as an AI message, in this order, to the conversation in
    memory, and changes no customer context. When [json.dump] can serialise
    the customer contexts of the object, the two messages are appended to
    the conversation in the file as well; when it cannot, the turn is in
    memory only, and the file is cut short. *)
Theorem save_context_persists_the_turn w0 ops inputs outputs input_str output_str :
  Forall known_type (persisted_messages w0) →
  get_input_output inputs outputs = inr (input_str, output_str) →
  let self := (run_operations ops (loaded w0).1 (loaded w0).2).1 in
  let w := (run_operations ops (loaded w0).1 (loaded w0).2).2 in
  ∃ self' w',
    save_context self inputs outputs w = (inr self', w')
    ∧ messages self'
      = messages self ++ [mkMessage HumanMessage input_str ∅;
                          mkMessage AIMessage output_str ∅]
    ∧ customer_contexts self' = customer_contexts self
    ∧ match json_dump_contexts (customer_contexts self) with
      | inr _ =>
          persisted_messages w'
          = persisted_messages w ++ [mkStored "human" input_str;
                                     mkStored "ai" output_str]
      | inl _ =>
          agent_memory_json w' = Some (Truncated (customer_contexts self))
          ∧ persisted_messages w' = []
      end.
Proof.
  intros Hknown Hio self w.
  assert (Hsync : in_sync self w)
    by by apply run_operations_in_sync, loaded_in_sync.
  destruct Hsync as [Htagged Hsync].
  rewrite save_context_run, Hio. cbv zeta. eexists _, _.
  split; [reflexivity|]. cbn [messages customer_contexts add_message].
  split; [by rewrite <- List.app_assoc|]. split; [reflexivity|].
  assert (Htagged' : Forall role_tagged
            (messages (add_message (add_message self HumanMessage input_str)
                         AIMessage output_str))).
  { cbn [messages add_message]. rewrite !Forall_app.
    repeat split; [exact Htagged | |]; by repeat constructor. }
  pose proof (save_memory_file _ w Htagged') as Hfile.
  cbn [customer_contexts add_message] in Hfile.
  unfold writable in Hsync.
  destruct (json_dump_contexts (customer_contexts self)) as [e|written].
  - destruct Hfile as [Hfile _]. split; [exact Hfile|].
    unfold persisted_messages. by rewrite Hfile.
  - destruct Hsync as [Hsync|[_ Hno]]; [|destruct Hno; by eexists].
    unfold persisted_messages at 1. rewrite Hfile.
    cbn [whole_state file_messages messages add_message].
    rewrite !map_app, <- List.app_assoc, <- Hsync. reflexivity.
Qed.

End TurnFacts.
End TurnFacts.

(** ** What becomes of a reply, and of the results of the steps *)

Module FlowFacts.
Section FlowFacts.
Context `{Externals}.

Import Spec Notions MonadFacts ToolFacts ToolRuns StepFacts BatchFacts
  ReplyFacts EmailService.

(** X24. A reply of the chat model is never dropped: ticket
    categorization, query routing and the CRM entry generator return either
    what was extracted from the reply or, when nothing could be, a
    dictionary that carries the reply verbatim ([raw_response], and
    [raw_entry] for the CRM entry) beside the defaults: the suggested
    category and priority or [Unknown] and [Medium] and the department
    [Support] for a ticket; [Support], [Medium], [General] for a query; the
    customer name for a CRM entry. *)
Theorem replies_are_never_lost content w :
  (∀ title description customer_id priority category,
     llm_outcome (llm_calls w)
       (TicketRouter.categorization_formatted_prompt title description
          customer_id priority category) = inr content →
     ∃ result,
       fst (TicketRouter._run_categorization title description customer_id
              priority category w) = inr result
       ∧ (fst (extract_json content w) = inr result
          ∨ (∃ e, fst (extract_json content w) = inl e)
            ∧ ∃ d, result = VDict d
                   ∧ d !! "raw_response" = Some (VStr content)
                   ∧ d !! "title" = Some (VStr title)
                   ∧ d !! "category" = Some (VStr (str_or category "Unknown"))
                   ∧ d !! "priority" = Some (VStr (str_or priority "Medium"))
                   ∧ d !! "department" = Some (VStr "Support")))
  ∧ (∀ query customer_id context,
       llm_outcome (llm_calls w)
         (TicketRouter.routing_formatted_prompt query customer_id context)
       = inr content →
       ∃ result,
         fst (TicketRouter._run_routing query customer_id context w)
         = inr result
         ∧ (fst (extract_json content w) = inr result
            ∨ (∃ e, fst (extract_json content w) = inl e)
              ∧ ∃ d, result = VDict d
                     ∧ d !! "raw_response" = Some (VStr content)
                     ∧ d !! "department" = Some (VStr "Support")
                     ∧ d !! "priority" = Some (VStr "Medium")
                     ∧ d !! "category" = Some (VStr "General")))
  ∧ (∀ customer_name interaction_details additional_info,
       llm_outcome (llm_calls w)
         (CRMEntryGenerator.formatted_prompt customer_name interaction_details
            additional_info) = inr content →
       ∃ result,
         fst (CRMEntryGenerator._run customer_name interaction_details
                additional_info w) = inr result
         ∧ (fst (extract_json content w) = inr result
            ∨ (∃ e, fst (extract_json content w) = inl e)
              ∧ ∃ d, result = VDict d
                     ∧ d !! "raw_entry" = Some (VStr content)
                     ∧ d !! "customer_name" = Some (VStr customer_name))).
Proof.
  split; [|split].
  - intros title description customer_id priority category Hllm.
    rewrite categorization_run. cbv zeta. rewrite Hllm.
    destruct (fst (extract_json content w)) as [e|result];
      eexists; (split; [reflexivity|]); [right | by left].
    split; [by eexists|]. eexists. split; [reflexivity|].
    repeat split; reflexivity.
  - intros query customer_id context Hllm.
    rewrite routing_run. cbv zeta. rewrite Hllm.
    destruct (fst (extract_json content w)) as [e|result];
      eexists; (split; [reflexivity|]); [right | by left].
    split; [by eexists|]. eexists. split; [reflexivity|].
    repeat split; reflexivity.
  - intros customer_name interaction_details additional_info Hllm.
    rewrite crm_entry_run. cbv zeta. rewrite Hllm.
    destruct (fst (extract_json content w)) as [e|result];
      eexists; (split; [reflexivity|]); [right | by left].
    split; [by eexists|]. eexists. split; [reflexivity|].
    repeat split; reflexivity.
Qed.

(** The last three steps for an email: each starts from the world that the
    one before it left, and the entry submitted is the one generated. *)
Lemma crm_phase_flow email summary w w' :
  let details := "Email: " +:+ email_subject email +:+ PyStr.nl +:+ PyStr.nl
                 +:+ "Summary: " +:+ summary in
  let info : option (gmap string value) :=
    Some {[ "email_id" := VStr (email_id email) ]} in
  (crm_entry ← CustomerServiceAgent.create_crm_entry (email_sender email)
                 details info;
   _ ← CRMService.create_entry crm_entry;
   _ ← mark_as_processed (email_id email);
   mret tt) w = (inr tt, w') →
  ∃ crm_entry w5 entry_id w6,
    CustomerServiceAgent.create_crm_entry (email_sender email) details info w
    = (inr crm_entry, w5)
    ∧ CRMService.create_entry crm_entry w5 = (inr entry_id, w6)
    ∧ mark_as_processed (email_id email) w6 = (inr true, w')
    ∧ ∃ p, actions_since w w'
           = [LLMInvoke p; CRMCreateEntry crm_entry;
              EmailMarkProcessed (email_id email)].
Proof.
  intros details info.
  destruct (create_crm_entry_step (email_sender email) details info w)
    as (crm_entry & w5 & H1 & T1 & _).
  destruct (create_entry_step crm_entry w5) as (entry_id & w6 & H2 & T2 & _).
  destruct (mark_as_processed_step (email_id email) w6) as (w7 & H3 & T3 & _).
  rewrite (bind_inr _ _ _ _ _ H1), (bind_inr _ _ _ _ _ H2),
    (bind_inr _ _ _ _ _ H3).
  intros [= <-]. exists crm_entry, w5, entry_id, w6.
  split; [exact H1|]. split; [exact H2|]. split; [exact H3|].
  eexists. unfold actions_since.
  rewrite T3, T2, T1, <- !List.app_assoc, drop_app_length. reflexivity.
Qed.

(** The ticket branch, when it ends normally: the categorization is a
    dictionary with a category and a priority, and the ticket is submitted
    with these two, from the world that the categorization left. *)
Lemma ticket_phase_flow email w w' :
  (ticket_data ← CustomerServiceAgent.categorize_ticket (email_subject email)
                   (email_body email) (email_customer_id email) None None;
   category ← getitem ticket_data "category";
   priority ← getitem ticket_data "priority";
   _ ← TicketService.create_ticket (email_subject email) (email_body email)
         category priority (email_customer_id email);
   mret tt) w = (inr tt, w') →
  ∃ d w3 category priority ticket_id,
    CustomerServiceAgent.categorize_ticket (email_subject email)
      (email_body email) (email_customer_id email) None None w
    = (inr (VDict d), w3)
    ∧ d !! "category" = Some category
    ∧ d !! "priority" = Some priority
    ∧ TicketService.create_ticket (email_subject email) (email_body email)
        category priority (email_customer_id email) w3 = (inr ticket_id, w')
    ∧ ∃ p, actions_since w w'
           = [LLMInvoke p;
              TicketCreate (email_subject email) (email_body email) category
                priority (email_customer_id email)].
Proof.
  destruct (categorize_ticket_step (email_subject email) (email_body email)
              (email_customer_id email) None None w)
    as (r & w3 & Hcat & T3 & _ & Hdict).
  destruct r as [e|ticket_data].
  { rewrite (bind_inl _ _ _ _ _ Hcat). discriminate. }
  destruct (Hdict ticket_data eq_refl) as [d ->].
  rewrite (bind_inr _ _ _ _ _ Hcat).
  destruct (getitem_run (VDict d) "category" w3) as (rc & Hc & Hcv).
  specialize (Hcv d eq_refl).
  destruct (d !! "category") as [category|] eqn:Hkc.
  2:{ destruct Hcv as [e ->]. rewrite (bind_inl _ _ _ _ _ Hc). discriminate. }
  subst rc. rewrite (bind_inr _ _ _ _ _ Hc).
  destruct (getitem_run (VDict d) "priority" w3) as (rp & Hp & Hpv).
  specialize (Hpv d eq_refl).
  destruct (d !! "priority") as [priority|] eqn:Hkp.
  2:{ destruct Hpv as [e ->]. rewrite (bind_inl _ _ _ _ _ Hp). discriminate. }
  subst rp. rewrite (bind_inr _ _ _ _ _ Hp).
  destruct (create_ticket_step (email_subject email) (email_body email)
              category priority (email_customer_id email) w3)
    as (ticket_id & w4 & Hticket & T4 & _).
  rewrite (bind_inr _ _ _ _ _ Hticket). intros [= <-].
  exists d, w3, category, priority, ticket_id. split; [exact Hcat|].
  split; [exact Hkc|]. split; [exact Hkp|]. split; [exact Hticket|].
  eexists. unfold actions_since.
  rewrite T4, T3, <- !List.app_assoc, drop_app_length. reflexivity.
Qed.

(** X25. The steps for an email hand their results on, each step starting
    from the world that the step before it left. When the handling of an
    email ends normally, it was: the summarization of the email; the
    detection; when the detection said yes, the categorization, whose
    result is then a dictionary with a [category] and a [priority], and the
    submission of a ticket with these two and with the subject, the body
    and the customer id of the email; the generation of the CRM entry, for
    the sender of the email and from details built of the subject and of
    the very summary that the summarization returned, with the id of the
    email as additional information; the submission of the entry that the
    generation returned; and the mark on this email. No other ticket is
    submitted. *)
Theorem handling_hands_results_on email w w' :
  CustomerServiceAgent.process_email email w = (inr tt, w') →
  ∃ summary w1 is_support w2 w4 crm_entry w5 entry_id w6,
    CustomerServiceAgent.summarize_email (email_subject email)
      (email_body email) (email_sender email) (email_date email)
      (Some (email_attachments email)) w = (inr summary, w1)
    ∧ TicketRouter.is_support_request (email_subject email) (email_body email)
        w1 = (inr is_support, w2)
    ∧ (if is_support then
         ∃ d w3 category priority ticket_id,
           CustomerServiceAgent.categorize_ticket (email_subject email)
             (email_body email) (email_customer_id email) None None w2
           = (inr (VDict d), w3)
           ∧ d !! "category" = Some category
           ∧ d !! "priority" = Some priority
           ∧ TicketService.create_ticket (email_subject email)
               (email_body email) category priority (email_customer_id email)
               w3 = (inr ticket_id, w4)
           ∧ List.filter (fun a => negb (is_llm_call a)) (actions_since w w4)
             = [TicketCreate (email_subject email) (email_body email) category
                  priority (email_customer_id email)]
       else
         w4 = w2
         ∧ List.filter (fun a => negb (is_llm_call a)) (actions_since w w4) = [])
    ∧ CustomerServiceAgent.create_crm_entry (email_sender email)
        ("Email: " +:+ email_subject email +:+ PyStr.nl +:+ PyStr.nl
         +:+ "Summary: " +:+ summary)
        (Some {[ "email_id" := VStr (email_id email) ]}) w4
      = (inr crm_entry, w5)
    ∧ CRMService.create_entry crm_entry w5 = (inr entry_id, w6)
    ∧ mark_as_processed (email_id email) w6 = (inr true, w')
    ∧ List.filter (fun a => negb (is_llm_call a)) (actions_since w4 w')
      = [CRMCreateEntry crm_entry; EmailMarkProcessed (email_id email)].
Proof.
  edestruct summarize_email_step as (summary & w1 & Hsum & T1 & _).
  edestruct is_support_request_step as (is_support & w2 & Hdet & T2 & _).
  unfold CustomerServiceAgent.process_email.
  rewrite (bind_inr _ _ _ _ _ Hsum), (bind_inr _ _ _ _ _ Hdet).
  intros Hrun. rewrite bind_run in Hrun.
  assert (Hw2 : ∀ k, trace w2 ++ k
                     = trace w ++ [LLMInvoke
                                     (EmailSummarizer.formatted_prompt
                                        (email_subject email) (email_body email)
                                        (email_sender email) (email_date email)
                                        (Some (default []
                                           (Some (email_attachments email)))));
                                   LLMInvoke
                                     (TicketRouter.support_detection_formatted_prompt
                                        (email_subject email) (email_body email))]
                        ++ k).
  { intros k. by rewrite T2, T1, <- !List.app_assoc. }
  destruct is_support.
  - match type of Hrun with
    | match ?phase w2 with _ => _ end = _ =>
        destruct (phase w2) as [[e|[]] w4] eqn:Hphase; [discriminate|]
    end.
    destruct (ticket_phase_flow email w2 w4 Hphase)
      as (d & w3 & category & priority & ticket_id & Hcat & Hkc & Hkp
          & Hticket & p & T4).
    destruct (crm_phase_flow email summary w4 w' Hrun)
      as (crm_entry & w5 & entry_id & w6 & Hcrm & Hentry & Hmark & p' & T6).
    exists summary, w1, true, w2, w4, crm_entry, w5, entry_id, w6.
    split; [exact Hsum|]. split; [exact Hdet|].
    split; [|split; [exact Hcrm|split; [exact Hentry|split; [exact Hmark|]]]].
    + exists d, w3, category, priority, ticket_id.
      split; [exact Hcat|]. split; [exact Hkc|]. split; [exact Hkp|].
      split; [exact Hticket|].
      assert (Ht : trace w4 = trace w2 ++ actions_since w2 w4).
      { unfold actions_since.
        destruct (categorize_ticket_step (email_subject email)
                    (email_body email) (email_customer_id email) None None w2)
          as (r & w3' & Hcat' & T3 & _).
        rewrite Hcat in Hcat'. injection Hcat' as <- <-.
        destruct (create_ticket_step (email_subject email) (email_body email)
                    category priority (email_customer_id email) w3)
          as (tid & w4' & Hticket' & T4' & _).
        rewrite Hticket in Hticket'. injection Hticket' as <- <-.
        by rewrite T4', T3, <- !List.app_assoc, drop_app_length. }
      unfold actions_since at 1. rewrite Ht, Hw2, drop_app_length, T4.
      reflexivity.
    + rewrite T6. reflexivity.
  - cbn [mret M_ret] in Hrun.
    destruct (crm_phase_flow email summary w2 w' Hrun)
      as (crm_entry & w5 & entry_id & w6 & Hcrm & Hentry & Hmark & p' & T6).
    exists summary, w1, false, w2, w2, crm_entry, w5, entry_id, w6.
    split; [exact Hsum|]. split; [exact Hdet|].
    split; [|split; [exact Hcrm|split; [exact Hentry|split; [exact Hmark|]]]].
    + split; [reflexivity|]. unfold actions_since.
      rewrite <- (List.app_nil_r (trace w2)), Hw2, drop_app_length.
      reflexivity.
    + rewrite T6. reflexivity.
Qed.

End FlowFacts.
End FlowFacts.

(** ** The further parts at work: concrete runs *)

Module FurtherRuns.

Import Spec Notions Demo Samples.

(** Witness of X3: after one saved turn, the history of a customer. *)
Lemma history_by_customer_is_empty_witness :
  "CUST12345" ≠ EmptyString
  ∧ AgentMemory.get_relevant_history after_a_turn.1 (Some "CUST12345") 10 = [].
Proof.
  assert (Hne : "CUST12345" ≠ EmptyString) by discriminate.
  split; [exact Hne|].
  exact (proj2 (@MemoryRoundTrip.history_by_customer_is_empty E_down world0
                  [a_turn] "CUST12345" 10 Hne)).
Defined.

(** Witness of X4: a limit of zero on a memory of three messages. *)
Lemma history_limit_below_one_witness :
  0 <= 0
  ∧ AgentMemory.no_customer_id None = true
  ∧ AgentMemory.get_relevant_history a_memory None 0
    = AgentMemory.messages a_memory
  ∧ length (AgentMemory.get_relevant_history a_memory None 0) = 3%nat.
Proof.
  assert (Hmax : 0 <= 0) by lia.
  assert (Hno : AgentMemory.no_customer_id None = true) by reflexivity.
  split; [exact Hmax|]. split; [exact Hno|].
  destruct (MemoryRoundTrip.history_limit_below_one a_memory None 0 Hmax Hno)
    as [_ Hall].
  split; [exact (Hall eq_refl) | reflexivity].
Defined.

(** Witness of X8: a model that answers [Yes] to the detection prompt. *)
Lemma detection_reads_the_reply_witness :
  @llm_outcome E_empty_object (llm_calls world0)
    (TicketRouter.support_detection_formatted_prompt "Hello" "Please help")
  = inr "Yes"
  ∧ PyStr.is_ascii "Yes" = true
  ∧ ∃ w', @TicketRouter.is_support_request E_empty_object "Hello" "Please help"
            world0 = (inr true, w').
Proof.
  assert (Hllm : @llm_outcome E_empty_object (llm_calls world0)
                   (TicketRouter.support_detection_formatted_prompt "Hello"
                      "Please help") = inr "Yes") by reflexivity.
  assert (Hascii : PyStr.is_ascii "Yes" = true) by reflexivity.
  split; [exact Hllm|]. split; [exact Hascii|].
  destruct (@ReplyFacts.detection_reads_the_reply E_empty_object "Hello"
              "Please help" "Yes" world0 Hllm Hascii)
    as (is_support & w' & Hrun & _ & Hyes & _).
  exists w'. rewrite Hrun. by rewrite (Hyes eq_refl).
Defined.

(** A reply that starts with a no is a no, whatever follows. *)
Example detection_of_a_no_that_says_yes :
  fst (@TicketRouter.is_support_request E_no_but_yes "Hello" "Please help" world0)
  = inr false.
Proof. vm_compute. reflexivity. Qed.

(** Witness of X9: the model replies with an empty JSON list. *)
Lemma non_object_reply_raises_in_agent_witness :
  @json_loads E_list "[]" = inr (VList [])
  ∧ (∀ d, VList [] ≠ VDict d)
  ∧ fst (@TicketRouter.categorize_ticket E_list "Login" "Cannot log in" None
           None None world0) = inr (VList [])
  ∧ fst (@CustomerServiceAgent.categorize_ticket E_list "Login" "Cannot log in"
           None None None world0)
    = inl (Exn AttributeError "'list' object has no attribute 'get'").
Proof.
  assert (Hv : @json_loads E_list "[]" = inr (VList [])) by reflexivity.
  assert (Hnd : ∀ d, VList [] ≠ VDict d) by (intros d; discriminate).
  split; [exact Hv|]. split; [exact Hnd|].
  destruct (@ReplyFacts.non_object_reply_raises_in_agent E_list "[]" (VList [])
              Hv Hnd) as [Hcat _].
  exact (Hcat "Login" "Cannot log in" None None None world0 eq_refl).
Defined.

(** The same reply at the endpoints: a 500 from the router, a body from
    the summarizer. *)
Example endpoints_on_a_list_reply :
  fst (@Main.categorize_ticket E_list "Login" "Cannot log in" None None None
         world0)
  = inl (Main.mkHTTPException 500
           "Error categorizing ticket: 'list' object has no attribute 'get'")
  ∧ fst (@Main.summarize_email E_list "Login" "Cannot log in" "a@example.com"
           "2023-10-15" None world0)
    = inr (VDict {[ "summary" := VStr "[]" ]}).
Proof. split; vm_compute; reflexivity. Qed.

(** Witness of X14: the model is unreachable. *)
Lemma model_outage_is_absorbed_witness :
  @model_down E_down
  ∧ ∃ w', @CustomerServiceAgent.process_email E_down an_email world0
          = (inr tt, w')
          ∧ steps_since world0 w' = steps_for true.
Proof.
  assert (Hdown : @model_down E_down) by (intros n p; eexists; reflexivity).
  split; [exact Hdown|].
  destruct (@OutageFacts.model_outage_is_absorbed E_down an_email world0 Hdown)
    as (w' & e & Hrun & Hsteps & _).
  exists w'. split; [exact Hrun | exact Hsteps].
Defined.

(** Witness of X25: an email handled while the model is unreachable. *)
Lemma handling_hands_results_on_witness :
  @CustomerServiceAgent.process_email E_down an_email world0
  = (inr tt, snd (@CustomerServiceAgent.process_email E_down an_email world0))
  ∧ ∃ summary w1,
      @CustomerServiceAgent.summarize_email E_down
        (EmailService.email_subject an_email) (EmailService.email_body an_email)
        (EmailService.email_sender an_email) (EmailService.email_date an_email)
        (Some (EmailService.email_attachments an_email)) world0
      = (inr summary, w1).
Proof.
  assert (Hrun : @CustomerServiceAgent.process_email E_down an_email world0
                 = (inr tt, snd (@CustomerServiceAgent.process_email E_down
                                   an_email world0)))
    by (vm_compute; reflexivity).
  split; [exact Hrun|].
  destruct (@FlowFacts.handling_hands_results_on E_down an_email world0 _ Hrun)
    as (summary & w1 & is_support & w2 & w4 & crm_entry & w5 & entry_id & w6
        & Hsum & _).
  exists summary, w1. exact Hsum.
Defined.

(** Witness of X23: the first turn of a conversation. *)
Lemma save_context_persists_the_turn_witness :
  Forall known_type (AgentMemory.persisted_messages world0)
  ∧ @get_input_output E_down {[ "input" := Plain (VStr "hi") ]}
      {[ "output" := "hello" ]}
    = inr ("hi", "hello")
  ∧ ∃ self' w',
      @AgentMemory.save_context E_down (@AgentMemory.loaded E_down world0).1
        {[ "input" := Plain (VStr "hi") ]} {[ "output" := "hello" ]}
        (@AgentMemory.loaded E_down world0).2 = (inr self', w')
      ∧ AgentMemory.persisted_messages w'
        = AgentMemory.persisted_messages (@AgentMemory.loaded E_down world0).2
          ++ [mkStored "human" "hi"; mkStored "ai" "hello"].
Proof.
  assert (Hknown : Forall known_type (AgentMemory.persisted_messages world0))
    by constructor.
  assert (Hio : @get_input_output E_down {[ "input" := Plain (VStr "hi") ]}
                  {[ "output" := "hello" ]} = inr ("hi", "hello"))
    by reflexivity.
  split; [exact Hknown|]. split; [exact Hio|].
  destruct (@TurnFacts.save_context_persists_the_turn E_down world0 []
              {[ "input" := Plain (VStr "hi") ]} {[ "output" := "hello" ]}
              "hi" "hello" Hknown Hio) as (self' & w' & Hrun & _ & _ & Hfile).
  exists self', w'. split; [exact Hrun | exact Hfile].
Defined.

(** Witness of X16: a search for a word in capitals. *)
Lemma search_tickets_scans_then_filters_witness :
  PyStr.is_ascii "LOGIN" = true
  ∧ ∃ tickets w',
      @TicketQueries.search_tickets E_down calendar "LOGIN" None None None 10
        world0 = (inr tickets, w')
      ∧ (length tickets <= 5)%nat.
Proof.
  assert (Hascii : PyStr.is_ascii "LOGIN" = true) by reflexivity.
  split; [exact Hascii|].
  destruct (@TicketQueryFacts.search_tickets_scans_then_filters E_down calendar
              "LOGIN" None None None 10 world0 Hascii)
    as (tickets & w' & Hrun & _ & _ & Hlen & _).
  exists tickets, w'. split; [exact Hrun | exact Hlen].
Defined.

(** The ticket search: case is ignored, and [limit] cuts the scan before
    the filters apply (the closed ticket is the fourth). *)
Example ticket_searches :
  cards_of (fst (@TicketQueries.search_tickets E_down calendar "LOGIN" None None
                   None 10 world0))
  = [TicketQueries.found_ticket_fields 0]
  ∧ cards_of (fst (@TicketQueries.search_tickets E_down calendar EmptyString
                     (Some "CLOSED") None None 3 world0)) = []
  ∧ cards_of (fst (@TicketQueries.search_tickets E_down calendar EmptyString
                     (Some "CLOSED") None None 4 world0))
    = [TicketQueries.found_ticket_fields 3]
  ∧ statuses_of (fst (@TicketQueries.get_tickets_by_customer E_down calendar
                        "nobody" None world0))
    = ["Open"; "Pending"; "Closed"]
  ∧ statuses_of (fst (@TicketQueries.get_tickets_by_customer E_down calendar
                        "CUST12345" (Some "pending") world0))
    = ["Pending"].
Proof. repeat split; vm_compute; reflexivity. Qed.

(** The interactions of a customer, asked for with the default limit. *)
Example no_recent_interactions :
  @CRMRecords.get_recent_interactions E_down "CUST12345" 5 world0
  = (inr [],
     mkWorld 0 2
       [LogRecord ERROR
          "Error retrieving interactions for customer CUST12345: module 'asyncio' has no attribute 'timedelta'"]
       [] None).
Proof. vm_compute. reflexivity. Qed.

(** A batch in which every email fails still reports five processed. *)
Example batch_report_after_failures :
  last (log (snd (@CustomerServiceAgent.process_email_batch E_empty_object world0)))
  = Some (LogRecord INFO "Batch email processing completed. Processed 5 emails")
  ∧ length (List.filter is_error_record
              (log (snd (@CustomerServiceAgent.process_email_batch
                           E_empty_object world0)))) = 5%nat.
Proof. split; vm_compute; reflexivity. Qed.

End FurtherRuns.
